(** * Realtime messaging service: a shallow embedding

    This development models the direct-messaging layer of the application
    ([client/lib/realtime-messaging.service.ts]), the realtime messages page
    that drives it (the conversation-list merge of [initializeChat], the
    state updates of its callbacks, loading, sending, typing and the
    rendering of time stamps) and the part of the schema in
    [supabase-messages-1to1.sql] that the service relies on.

    The hosted backend (store, change feed, broadcast transport) is an
    external collaborator.  It is represented by an explicit [World]: the
    four tables, the two clocks, a supply of random identifiers, the
    client-side registries of the service object, and a script [net] that
    says how the next backend requests are answered.  Service methods are
    computations in a state-and-exception monad over that world, so that
    [try]/[catch] blocks, early [return]s and in-place mutation read the way
    they are written in the source. *)

From Stdlib Require Import ZArith String Ascii Lia.
From stdpp Require Import base list sorting gmap strings pretty.

(** ** Insertion-ordered maps

    A JavaScript [Map], and a plain object used as a dictionary with
    non-index keys, enumerate their entries in insertion order, and
    assigning to an existing key keeps the position of that key.  User
    identifiers are UUID strings: never array-index keys and never names of
    [Object.prototype] members. *)

Module JsMap.
Section defs.
Context {V : Type}.

Definition t : Type := list (string * V).

Definition empty : t := [].

Fixpoint get (k : string) (m : t) : option V :=
  match m with
  | [] => None
  | (k', v) :: m' => if decide (k' = k) then Some v else get k m'
  end.

Definition has (k : string) (m : t) : bool :=
  match get k m with Some _ => true | None => false end.

Fixpoint put (k : string) (v : V) (m : t) : t :=
  match m with
  | [] => [(k, v)]
  | (k', v') :: m' =>
      if decide (k' = k) then (k, v) :: m' else (k', v') :: put k v m'
  end.

Definition keys (m : t) : list string := m.*1.
Definition values (m : t) : list V := m.*2.

(** [m.forEach((v, k) => mutate v)] on a map of objects. *)
Definition forEach (f : string → V → V) (m : t) : t :=
  (λ kv, (kv.1, f kv.1 kv.2)) <$> m.
End defs.
Arguments t : clear implicits.
End JsMap.

(** ** [Array.prototype.sort]

    The sort of an array is stable.  For a consistent comparator its result
    is the unique stable ordering, which insertion from the right computes:
    an element is placed before the first later element it does not
    exceed. *)

Fixpoint sort_insert {A} (cmp : A → A → Z) (x : A) (l : list A) : list A :=
  match l with
  | [] => [x]
  | y :: l' =>
      if (cmp x y <=? 0)%Z then x :: y :: l' else y :: sort_insert cmp x l'
  end.

Definition Array_sort {A} (cmp : A → A → Z) (l : list A) : list A :=
  foldr (sort_insert cmp) [] l.

(** The default comparator of [sort()] on strings: code-unit order. *)
Definition defaultCompare (x y : string) : Z :=
  match String.compare x y with
  | Lt => (-1)%Z
  | Eq => 0%Z
  | Gt => 1%Z
  end.

(** ** Data model *)

Inductive MessageType := text | image | file | system.
Inductive MessageStatus := sent | delivered | read.

Global Instance MessageStatus_eq_dec : EqDecision MessageStatus.
Proof. solve_decision. Defined.
Global Instance MessageType_eq_dec : EqDecision MessageType.
Proof. solve_decision. Defined.

(** The wire spelling of a status, as it appears in filters. *)
Definition status_text (s : MessageStatus) : string :=
  match s with
  | sent => "sent"
  | delivered => "delivered"
  | read => "read"
  end.

(** The hydrated [{ id, name, profile_picture }] attached to messages. *)
Record UserRef := {
  ref_id : string;
  ref_name : string;
  ref_profile_picture : option string;
}.

(** [interface Message].  Timestamps are instants in milliseconds (the
    value [new Date(s).getTime()] of the ISO string [s]).  A stored row is a
    [Message] whose columns carry the schema's defaults; the optional
    [sender] and [receiver] are filled in by the service. *)
Record Message := {
  m_id : string;
  m_sender_id : string;
  m_receiver_id : string;
  m_content : string;
  m_message_type : MessageType;
  m_status : MessageStatus;
  m_reply_to : option string;
  m_created_at : Z;
  m_updated_at : Z;
  m_read_at : option Z;
  m_sender : option UserRef;
  m_receiver : option UserRef;
}.

(** Rows of [profiles], [user_status] and [typing_indicators]. *)
Record Profile := {
  p_user_id : string;
  p_name : string;
  p_profile_picture : option string;
}.

Record UserStatus := {
  s_user_id : string;
  s_is_online : bool;
  s_last_seen : Z;
}.

Record TypingIndicator := {
  ti_user_id : string;
  ti_target_user_id : string;
  ti_is_typing : bool;
}.

(** [last_message] of a preview. *)
Record LastMessage := {
  lm_content : string;
  lm_created_at : Z;
  lm_sender_id : string;
}.

(** [interface ConversationPreview]. *)
Record ConversationPreview := {
  c_user_id : string;
  c_name : string;
  c_profile_picture : option string;
  c_last_message : option LastMessage;
  c_unread_count : Z;
  c_is_online : bool;
  c_last_seen : option Z;
}.

(** Entries returned by [getAllUsersExcept] and [getOnlineUsers]. *)
Record DirectoryUser := {
  d_user_id : string;
  d_name : string;
  d_profile_picture : option string;
  d_last_seen : option Z;
}.

(** ** The world *)

(** How the backend answers one request: it serves it, it answers with an
    [error] and no [data], or the call itself throws (a rejected promise). *)
Inductive NetMode := Healthy | Refuse | Throw.

Global Instance NetMode_eq_dec : EqDecision NetMode.
Proof. solve_decision. Defined.

(** Closures handed to [setTimeout], by what they do when they fire. *)
Inductive TimerAction :=
  | BumpDelivered (messageId : string)
  | StopTyping (userId targetUserId : string).

Record Timer := {
  t_handle : nat;
  t_delay : Z;
  t_action : TimerAction;
}.

(** A listener registered on a channel with [.on('broadcast', ...)]: the
    closure of [subscribeToPairBroadcast] over its two users and the
    caller's callback, which is named by a number. *)
Record Listener := {
  l_userId : string;
  l_otherUserId : string;
  l_onPairMessage : nat;
}.

Record World := {
  (* the hosted store; [collation] orders its text columns *)
  messages : list Message;
  profiles : list Profile;
  user_status : list UserStatus;
  typing_indicators : list TypingIndicator;
  server_now : Z;
  collation : string → string → Z;
  (* random identifiers, for gen_random_uuid() and crypto.randomUUID() *)
  uuids : nat → string;
  uuid_next : nat;
  (* the client; [locale] is the result of [String.prototype.localeCompare] *)
  client_now : Z;
  locale : string → string → Z;
  console : list string;
  channels : gmap string (list Listener);
  typingTimeouts : gmap string nat;
  timers : list Timer;
  timer_next : nat;
  (* broadcasts handed to the transport, and callback invocations *)
  outbox : list (string * Message);
  calls : list (nat * Message);
  (* the answers to the coming requests; past the end all are served *)
  net : list NetMode;
}.

(** Functional updates of one component of the world. *)

Definition with_messages (f : list Message → list Message) (w : World) : World :=
  {| messages := f (messages w); profiles := profiles w;
     user_status := user_status w; typing_indicators := typing_indicators w;
     server_now := server_now w; collation := collation w; uuids := uuids w;
     uuid_next := uuid_next w; client_now := client_now w;
     locale := locale w; console := console w; channels := channels w;
     typingTimeouts := typingTimeouts w; timers := timers w;
     timer_next := timer_next w; outbox := outbox w; calls := calls w;
     net := net w |}.

Definition with_user_status (f : list UserStatus → list UserStatus) (w : World) : World :=
  {| messages := messages w; profiles := profiles w;
     user_status := f (user_status w);
     typing_indicators := typing_indicators w; server_now := server_now w;
     collation := collation w; uuids := uuids w; uuid_next := uuid_next w;
     client_now := client_now w; locale := locale w; console := console w;
     channels := channels w; typingTimeouts := typingTimeouts w;
     timers := timers w; timer_next := timer_next w; outbox := outbox w;
     calls := calls w; net := net w |}.

Definition with_typing_indicators (f : list TypingIndicator → list TypingIndicator) (w : World) : World :=
  {| messages := messages w; profiles := profiles w;
     user_status := user_status w;
     typing_indicators := f (typing_indicators w);
     server_now := server_now w; collation := collation w; uuids := uuids w;
     uuid_next := uuid_next w; client_now := client_now w;
     locale := locale w; console := console w; channels := channels w;
     typingTimeouts := typingTimeouts w; timers := timers w;
     timer_next := timer_next w; outbox := outbox w; calls := calls w;
     net := net w |}.

Definition with_uuid_next (f : nat → nat) (w : World) : World :=
  {| messages := messages w; profiles := profiles w;
     user_status := user_status w; typing_indicators := typing_indicators w;
     server_now := server_now w; collation := collation w; uuids := uuids w;
     uuid_next := f (uuid_next w); client_now := client_now w;
     locale := locale w; console := console w; channels := channels w;
     typingTimeouts := typingTimeouts w; timers := timers w;
     timer_next := timer_next w; outbox := outbox w; calls := calls w;
     net := net w |}.

Definition with_console (f : list string → list string) (w : World) : World :=
  {| messages := messages w; profiles := profiles w;
     user_status := user_status w; typing_indicators := typing_indicators w;
     server_now := server_now w; collation := collation w; uuids := uuids w;
     uuid_next := uuid_next w; client_now := client_now w;
     locale := locale w; console := f (console w); channels := channels w;
     typingTimeouts := typingTimeouts w; timers := timers w;
     timer_next := timer_next w; outbox := outbox w; calls := calls w;
     net := net w |}.

Definition with_channels (f : gmap string (list Listener) → gmap string (list Listener)) (w : World) : World :=
  {| messages := messages w; profiles := profiles w;
     user_status := user_status w; typing_indicators := typing_indicators w;
     server_now := server_now w; collation := collation w; uuids := uuids w;
     uuid_next := uuid_next w; client_now := client_now w;
     locale := locale w; console := console w; channels := f (channels w);
     typingTimeouts := typingTimeouts w; timers := timers w;
     timer_next := timer_next w; outbox := outbox w; calls := calls w;
     net := net w |}.

Definition with_typingTimeouts (f : gmap string nat → gmap string nat) (w : World) : World :=
  {| messages := messages w; profiles := profiles w;
     user_status := user_status w; typing_indicators := typing_indicators w;
     server_now := server_now w; collation := collation w; uuids := uuids w;
     uuid_next := uuid_next w; client_now := client_now w;
     locale := locale w; console := console w; channels := channels w;
     typingTimeouts := f (typingTimeouts w); timers := timers w;
     timer_next := timer_next w; outbox := outbox w; calls := calls w;
     net := net w |}.

Definition with_timers (f : list Timer → list Timer) (g : nat → nat) (w : World) : World :=
  {| messages := messages w; profiles := profiles w;
     user_status := user_status w; typing_indicators := typing_indicators w;
     server_now := server_now w; collation := collation w; uuids := uuids w;
     uuid_next := uuid_next w; client_now := client_now w;
     locale := locale w; console := console w; channels := channels w;
     typingTimeouts := typingTimeouts w; timers := f (timers w);
     timer_next := g (timer_next w); outbox := outbox w; calls := calls w;
     net := net w |}.

Definition with_outbox (f : list (string * Message) → list (string * Message)) (w : World) : World :=
  {| messages := messages w; profiles := profiles w;
     user_status := user_status w; typing_indicators := typing_indicators w;
     server_now := server_now w; collation := collation w; uuids := uuids w;
     uuid_next := uuid_next w; client_now := client_now w;
     locale := locale w; console := console w; channels := channels w;
     typingTimeouts := typingTimeouts w; timers := timers w;
     timer_next := timer_next w; outbox := f (outbox w); calls := calls w;
     net := net w |}.

Definition with_calls (f : list (nat * Message) → list (nat * Message)) (w : World) : World :=
  {| messages := messages w; profiles := profiles w;
     user_status := user_status w; typing_indicators := typing_indicators w;
     server_now := server_now w; collation := collation w; uuids := uuids w;
     uuid_next := uuid_next w; client_now := client_now w;
     locale := locale w; console := console w; channels := channels w;
     typingTimeouts := typingTimeouts w; timers := timers w;
     timer_next := timer_next w; outbox := outbox w; calls := f (calls w);
     net := net w |}.

Definition with_net (f : list NetMode → list NetMode) (w : World) : World :=
  {| messages := messages w; profiles := profiles w;
     user_status := user_status w; typing_indicators := typing_indicators w;
     server_now := server_now w; collation := collation w; uuids := uuids w;
     uuid_next := uuid_next w; client_now := client_now w;
     locale := locale w; console := console w; channels := channels w;
     typingTimeouts := typingTimeouts w; timers := timers w;
     timer_next := timer_next w; outbox := outbox w; calls := calls w;
     net := f (net w) |}.

(** ** Computations: state and exceptions *)

Inductive Exn :=
  | ReferenceError (identifier : string)
  | Rejected (what : string).

Inductive Outcome (A : Type) :=
  | Returned (a : A)
  | Raised (e : Exn).
Arguments Returned {A} a.
Arguments Raised {A} e.

Definition M (A : Type) : Type := World → Outcome A * World.

Global Instance M_ret : MRet M := λ A a w, (Returned a, w).

Global Instance M_bind : MBind M := λ A B k m w,
  match m w with
  | (Returned a, w') => k a w'
  | (Raised e, w') => (Raised e, w')
  end.

Definition throw {A} (e : Exn) : M A := λ w, (Raised e, w).

(** [try { m } catch (e) { h e }]: effects of [m] before the throw stay. *)
Definition try_catch {A} (m : M A) (h : Exn → M A) : M A :=
  λ w, match m w with
       | (Returned a, w') => (Returned a, w')
       | (Raised e, w') => h e w'
       end.

Definition gets {A} (f : World → A) : M A := λ w, (Returned (f w), w).
Definition modify (f : World → World) : M unit := λ w, (Returned tt, f w).


(** ** The backend as the client sees it *)

(** The [{ data, error }] object a request resolves to. *)
Record Response (A : Type) := {
  data : option A;
  error : option string;
}.
Arguments data {A} _.
Arguments error {A} _.

Definition served {A} (a : A) : Response A := {| data := Some a; error := None |}.
Definition failed {A} (why : string) : Response A := {| data := None; error := Some why |}.

(** One round trip: the head of the script decides how it is answered. *)
Definition request {A} (serve : M (Response A)) : M (Response A) :=
  mode ← gets (λ w, hd Healthy (net w));
  modify (with_net tail);;
  match mode with
  | Healthy => serve
  | Refuse => mret (failed "refused")
  | Throw => throw (Rejected "request failed")
  end.

(** Filters of the query builder over the columns of [messages]. *)
Inductive Column := col_id | col_sender_id | col_receiver_id | col_status.

Definition column (c : Column) (m : Message) : string :=
  match c with
  | col_id => m_id m
  | col_sender_id => m_sender_id m
  | col_receiver_id => m_receiver_id m
  | col_status => status_text (m_status m)
  end.

Inductive Filter :=
  | f_eq (c : Column) (v : string)
  | f_neq (c : Column) (v : string)
  | f_and (f g : Filter)
  | f_or (f g : Filter).

Fixpoint holds (f : Filter) (m : Message) : bool :=
  match f with
  | f_eq c v => bool_decide (column c m = v)
  | f_neq c v => bool_decide (column c m ≠ v)
  | f_and f g => holds f m && holds g m
  | f_or f g => holds f m || holds g m
  end.

(** [.order('created_at', { ascending })]: rows with equal keys keep their
    stored order. *)
Definition order_by_created_at (ascending : bool) (rows : list Message) : list Message :=
  Array_sort
    (λ a b, if ascending then (m_created_at a - m_created_at b)%Z
            else (m_created_at b - m_created_at a)%Z)
    rows.

(** [.range(from, to)] asks for offset [from] and limit [to - from + 1];
    the store rejects a negative offset or limit. *)
Definition range (from to : Z) (rows : list Message) : Response (list Message) :=
  if bool_decide (from < 0 ∨ to - from + 1 < 0)%Z then failed "range"
  else served (take (Z.to_nat (to - from + 1)) (drop (Z.to_nat from) rows)).

(** [from('messages').select(..)] with a filter, an optional order and an
    optional range. *)
Definition select_messages (f : Filter) (order : option bool)
    (window : option (Z * Z)) : M (Response (list Message)) :=
  request (
    rows ← gets (λ w, filter (λ m, holds f m = true) (messages w));
    let ordered :=
      match order with
      | Some ascending => order_by_created_at ascending rows
      | None => rows
      end in
    mret match window with
         | Some (from, to) => range from to ordered
         | None => served ordered
         end).

(** [from('messages').insert({ sender_id, receiver_id, content })
    .select('*').single()]: the remaining columns take the defaults of the
    schema, [id] is the primary key. *)
Definition insert_message (senderId receiverId content : string) : M (Response Message) :=
  request (
    newId ← gets (λ w, uuids w (uuid_next w));
    modify (with_uuid_next S);;
    now ← gets server_now;
    stored ← gets messages;
    if bool_decide (newId ∈ m_id <$> (stored : list Message))
    then mret (failed "duplicate key value violates unique constraint") : M (Response Message)
    else
      let row :=
        {| m_id := newId; m_sender_id := senderId; m_receiver_id := receiverId;
           m_content := content; m_message_type := text; m_status := sent;
           m_reply_to := None; m_created_at := now; m_updated_at := now;
           m_read_at := None; m_sender := None; m_receiver := None |} in
      modify (with_messages (λ rows, rows ++ [row]));;
      mret (served row)).

(** The columns an [update] of [messages] writes. *)
Record MessagePatch := {
  patch_status : MessageStatus;
  patch_read_at : option Z;
}.

(** An updated row; the trigger [touch_updated_at] stamps [updated_at]. *)
Definition apply_patch (p : MessagePatch) (now : Z) (m : Message) : Message :=
  {| m_id := m_id m; m_sender_id := m_sender_id m;
     m_receiver_id := m_receiver_id m; m_content := m_content m;
     m_message_type := m_message_type m; m_status := patch_status p;
     m_reply_to := m_reply_to m; m_created_at := m_created_at m;
     m_updated_at := now;
     m_read_at := match patch_read_at p with
                  | Some t => Some t
                  | None => m_read_at m
                  end;
     m_sender := m_sender m; m_receiver := m_receiver m |}.

(** Row level security of [public.messages].  The schema enables it and
    creates two policies, [dm_select_sender_or_receiver] for SELECT and
    [dm_insert_sender_only] for INSERT; the page calls the service on behalf
    of the signed-in user, whose own rows these two admit.  A command
    without policy is denied on every row: the store answers it without
    error and applies it to no row.  No policy is created for UPDATE. *)
Inductive Command := cmd_select | cmd_insert | cmd_update.

Global Instance Command_eq_dec : EqDecision Command.
Proof. solve_decision. Defined.

Definition messages_policies : list Command := [cmd_select; cmd_insert].

Definition admitted (c : Command) (m : Message) : bool :=
  bool_decide (c ∈ messages_policies).

(** [from('messages').update(patch)] restricted by a filter: the patch is
    applied to the rows that match the filter and that row level security
    admits for UPDATE. *)
Definition update_messages (p : MessagePatch) (f : Filter) : M (Response unit) :=
  request (
    now ← gets server_now;
    modify (with_messages
              (fmap (λ m, if holds f m && admitted cmd_update m
                          then apply_patch p now m else m)));;
    mret (served ())).

(** [from('profiles').select(..).in('user_id', ids)]. *)
Definition select_profiles_in (ids : list string) : M (Response (list Profile)) :=
  request (
    rows ← gets (λ w, filter (λ p, p_user_id p ∈ ids) (profiles w));
    mret (served rows)).

(** [from('profiles').select(..).eq('user_id', id).single()]: an error
    unless exactly one row matches. *)
Definition select_profile_single (id : string) : M (Response Profile) :=
  request (
    rows ← gets (λ w, filter (λ p, p_user_id p = id) (profiles w));
    mret match rows with
         | [p] => served p
         | _ => failed "JSON object requested, multiple (or no) rows returned"
         end).

(** [from('profiles').select(..).neq('user_id', id).order('name')]. *)
Definition select_profiles_except (id : string) : M (Response (list Profile)) :=
  request (
    rows ← gets (λ w, filter (λ p, p_user_id p ≠ id) (profiles w));
    cmp ← gets collation;
    mret (served (Array_sort (λ a b, cmp (p_name a) (p_name b)) rows))).

(** [from('user_status').select(..).eq('is_online', true)] and
    [.in('user_id', ids)]. *)
Definition select_user_status_online : M (Response (list UserStatus)) :=
  request (
    rows ← gets (λ w, filter (λ s, s_is_online s = true) (user_status w));
    mret (served rows)).

Definition select_user_status_in (ids : list string) : M (Response (list UserStatus)) :=
  request (
    rows ← gets (λ w, filter (λ s, s_user_id s ∈ ids) (user_status w));
    mret (served rows)).

(** [from('user_status').upsert(row)]: the conflict target is the primary
    key [id], which the payload leaves to its default, so a second row for
    a user runs into the [unique] constraint on [user_id]. *)
Definition upsert_user_status (row : UserStatus) : M (Response unit) :=
  request (
    stored ← gets user_status;
    if bool_decide (s_user_id row ∈ s_user_id <$> (stored : list UserStatus))
    then mret (failed "duplicate key value violates unique constraint") : M (Response unit)
    else modify (with_user_status (λ rows, rows ++ [row]));; mret (served ())).

(** [from('typing_indicators').upsert(row)]: no constraint besides [id]. *)
Definition upsert_typing_indicator (row : TypingIndicator) : M (Response unit) :=
  request (
    modify (with_typing_indicators (λ rows, rows ++ [row]));;
    mret (served ())).

(** [channel.send({ type: 'broadcast', event: 'dm', payload })]: the payload
    reaches the transport, the send resolves to an error status, or it
    throws. *)
Definition channel_send (room : string) (payload : Message) : M unit :=
  mode ← gets (λ w, hd Healthy (net w));
  modify (with_net tail);;
  match mode with
  | Healthy => modify (with_outbox (λ o, o ++ [(room, payload)]))
  | Refuse => mret ()
  | Throw => throw (Rejected "send failed")
  end.

(** ** Client primitives *)

Definition console_error (label : string) : M unit :=
  modify (with_console (λ c, c ++ [label])).

(** [new Date().toISOString()], as an instant. *)
Definition Date_now : M Z := gets client_now.

Definition randomUUID : M string :=
  u ← gets (λ w, uuids w (uuid_next w));
  modify (with_uuid_next S);;
  mret u.

Definition setTimeout (action : TimerAction) (delay : Z) : M nat :=
  h ← gets timer_next;
  modify (with_timers
            (λ ts, ts ++ [{| t_handle := h; t_delay := delay; t_action := action |}]) S);;
  mret h.

Definition clearTimeout (h : nat) : M unit :=
  modify (with_timers (filter (λ t, t_handle t ≠ h)) id).

(** What a [null]-or-array value stands for in [(x || [])]. *)
Definition or_empty {A} (x : option (list A)) : list A := default [] x.

(** [x || undefined] on an optional string: the empty string is falsy. *)
Definition or_undefined (x : option string) : option string :=
  match x with
  | Some s => if bool_decide (s = "") then None else Some s
  | None => None
  end.

(** [await Promise.all([a, b])]: both computations are started, the first
    then the second; the result rejects with the first rejection. *)
Definition Promise_all {A B} (a : M A) (b : M B) : M (A * B) :=
  λ w, match a w with
       | (Returned x, w1) =>
           match b w1 with
           | (Returned y, w2) => (Returned (x, y), w2)
           | (Raised e, w2) => (Raised e, w2)
           end
       | (Raised e, w1) => (Raised e, (b w1).2)
       end.

(** ** The service: [class RealtimeMessagingService] *)

Definition buildPairRoom (userIdA userIdB : string) : string :=
  let sorted := Array_sort defaultCompare [userIdA; userIdB] in
  let a := default "undefined" (sorted !! 0%nat) in
  let b := default "undefined" (sorted !! 1%nat) in
  "dm:" +:+ a +:+ ":" +:+ b.
Arguments buildPairRoom : simpl never.

Definition getOnlineUsers (currentUserId : string) : M (list DirectoryUser) :=
  try_catch (
    res ← select_user_status_online;
    match error res, data res with
    | None, Some rows =>
        let otherUserIds := filter (λ id, id ≠ currentUserId) (s_user_id <$> rows) in
        if bool_decide (length otherUserIds = 0%nat) then mret [] : M (list DirectoryUser)
        else
          pres ← select_profiles_in otherUserIds;
          let lastSeenMap :=
            foldl (λ mp u, JsMap.put (s_user_id u) (s_last_seen u) mp) JsMap.empty rows in
          mret ((λ p, {| d_user_id := p_user_id p; d_name := p_name p;
                         d_profile_picture := p_profile_picture p;
                         d_last_seen := JsMap.get (p_user_id p) lastSeenMap |})
                  <$> or_empty (pres.(data)))
    | _, _ => mret []
    end)
  (λ _, console_error "Error fetching online users:";; mret []).

Definition getAllUsersExcept (currentUserId : string) : M (list DirectoryUser) :=
  try_catch (
    res ← select_profiles_except currentUserId;
    match error res, data res with
    | None, Some rows =>
        mret ((λ p, {| d_user_id := p_user_id p; d_name := p_name p;
                       d_profile_picture := p_profile_picture p;
                       d_last_seen := None |}) <$> rows : list DirectoryUser)
    | _, _ => mret []
    end)
  (λ _, console_error "Error fetching all users:";; mret []).

Definition initializeUserStatus (userId : string) : M unit :=
  try_catch (
    now ← Date_now;
    res ← upsert_user_status {| s_user_id := userId; s_is_online := true; s_last_seen := now |};
    match error res with
    | Some _ => console_error "Error initializing user status:"
    | None => mret ()
    end)
  (λ _, console_error "Error initializing user status:").

Definition broadcastPairMessage (senderId receiverId : string) (message : Message) : M unit :=
  let room := buildPairRoom senderId receiverId in
  channel ← gets (λ w, channels w !! room);
  match channel with
  | None => modify (with_channels (<[room := []]>))
  | Some _ => mret ()
  end;;
  channel_send room message.

(** The object built from an inserted or fetched row. *)
Definition message_of_row (row : Message) (sender receiver : option UserRef) : Message :=
  {| m_id := m_id row; m_sender_id := m_sender_id row;
     m_receiver_id := m_receiver_id row; m_content := m_content row;
     m_message_type := m_message_type row; m_status := m_status row;
     m_reply_to := m_reply_to row; m_created_at := m_created_at row;
     m_updated_at := m_updated_at row; m_read_at := m_read_at row;
     m_sender := sender; m_receiver := receiver |}.

Definition userRef_of_profile (p : Profile) : UserRef :=
  {| ref_id := p_user_id p; ref_name := p_name p;
     ref_profile_picture := or_undefined (p_profile_picture p) |}.

Definition sendMessage (senderId receiverId content : string)
    (messageType : MessageType) (replyTo : option string) : M (option Message) :=
  try_catch (
    insertRes ← insert_message senderId receiverId content;
    match error insertRes, data insertRes with
    | None, Some inserted =>
        try_catch (
          '(senderProfile, receiverProfile) ←
            Promise_all (select_profile_single (m_sender_id inserted))
                        (select_profile_single (m_receiver_id inserted));
          let result :=
            message_of_row inserted
              (userRef_of_profile <$> senderProfile.(data))
              (userRef_of_profile <$> receiverProfile.(data)) in
          setTimeout (BumpDelivered (m_id result)) 800;;
          broadcastPairMessage senderId receiverId result;;
          mret (Some result))
        (λ _,
          let result := message_of_row inserted None None in
          setTimeout (BumpDelivered (m_id result)) 800;;
          broadcastPairMessage senderId receiverId result;;
          mret (Some result))
    | _, _ => console_error "Error sending message:";; mret None
    end)
  (λ _,
    console_error "Error sending message:";;
    now ← Date_now;
    newId ← randomUUID;
    let temp :=
      {| m_id := newId; m_sender_id := senderId; m_receiver_id := receiverId;
         m_content := content; m_message_type := text; m_status := sent;
         m_reply_to := None; m_created_at := now; m_updated_at := now;
         m_read_at := None; m_sender := None; m_receiver := None |} in
    try_catch (broadcastPairMessage senderId receiverId temp) (λ _, mret ());;
    mret None).

Definition updateMessageStatus (messageId : string) (status : MessageStatus) : M unit :=
  try_catch (
    now ← Date_now;
    let updateData :=
      {| patch_status := status;
         patch_read_at := if decide (status = read) then Some now else None |} in
    res ← update_messages updateData (f_eq col_id messageId);
    match error res with
    | Some _ => console_error "Error updating message status:"
    | None => mret ()
    end)
  (λ _, console_error "Error updating message status:").

Definition markMessagesAsRead (senderId receiverId : string) : M unit :=
  try_catch (
    now ← Date_now;
    res ← update_messages {| patch_status := read; patch_read_at := Some now |}
            (f_and (f_and (f_eq col_sender_id senderId) (f_eq col_receiver_id receiverId))
                   (f_neq col_status "read"));
    match error res with
    | Some _ => console_error "Error marking messages as read:"
    | None => mret ()
    end)
  (λ _, console_error "Error marking messages as read:").

(** [profMap.has(uid) ? { id: uid, name, profile_picture } : undefined]. *)
Definition ref_of (profMap : JsMap.t (string * option string)) (uid : string)
    : option UserRef :=
  (λ e : string * option string,
     {| ref_id := uid; ref_name := e.1; ref_profile_picture := e.2 |})
    <$> JsMap.get uid profMap.

Definition getMessages (userId1 userId2 : string) (limit offset : Z) : M (list Message) :=
  try_catch (
    res ← select_messages
            (f_or (f_and (f_eq col_sender_id userId1) (f_eq col_receiver_id userId2))
                  (f_and (f_eq col_sender_id userId2) (f_eq col_receiver_id userId1)))
            (Some true) (Some (offset, offset + limit - 1)%Z);
    match error res, data res with
    | None, Some rows =>
        let userIds :=
          remove_dups (rows ≫= λ m, [m_sender_id m; m_receiver_id m]) in
        pres ← select_profiles_in userIds;
        let profMap :=
          foldl (λ mp p, JsMap.put (p_user_id p)
                           (p_name p, or_undefined (p_profile_picture p)) mp)
                JsMap.empty (or_empty (pres.(data))) in
        mret ((λ row, message_of_row row (ref_of profMap (m_sender_id row))
                                         (ref_of profMap (m_receiver_id row))) <$> rows)
    | Some _, _ => console_error "Error fetching messages:";; mret []
    | None, None => mret []
    end)
  (λ _, console_error "Error fetching messages:";; mret []).

(** The two mutations of a preview held in a map. *)
Definition bump_unread (c : ConversationPreview) : ConversationPreview :=
  {| c_user_id := c_user_id c; c_name := c_name c;
     c_profile_picture := c_profile_picture c;
     c_last_message := c_last_message c;
     c_unread_count := (c_unread_count c + 1)%Z;
     c_is_online := c_is_online c; c_last_seen := c_last_seen c |}.

Definition set_profile (name : string) (picture : option string)
    (c : ConversationPreview) : ConversationPreview :=
  {| c_user_id := c_user_id c; c_name := name; c_profile_picture := picture;
     c_last_message := c_last_message c; c_unread_count := c_unread_count c;
     c_is_online := c_is_online c; c_last_seen := c_last_seen c |}.

Definition set_presence (online : bool) (last_seen : option Z)
    (c : ConversationPreview) : ConversationPreview :=
  {| c_user_id := c_user_id c; c_name := c_name c;
     c_profile_picture := c_profile_picture c;
     c_last_message := c_last_message c; c_unread_count := c_unread_count c;
     c_is_online := online; c_last_seen := last_seen |}.

(** The body of [data.forEach] in [getConversations]. *)
Definition scan_message (userId : string)
    (conversationMap : JsMap.t ConversationPreview) (m : Message)
    : JsMap.t ConversationPreview :=
  let otherUserId :=
    if bool_decide (m_sender_id m = userId) then m_receiver_id m else m_sender_id m in
  match JsMap.get otherUserId conversationMap with
  | None =>
      JsMap.put otherUserId
        {| c_user_id := otherUserId; c_name := "Unknown User";
           c_profile_picture := None;
           c_last_message :=
             Some {| lm_content := m_content m; lm_created_at := m_created_at m;
                     lm_sender_id := m_sender_id m |};
           c_unread_count := if bool_decide (m_sender_id m ≠ userId) then 1 else 0;
           c_is_online := false; c_last_seen := None |}
        conversationMap
  | Some c =>
      if bool_decide (m_sender_id m ≠ userId)
      then JsMap.put otherUserId (bump_unread c) conversationMap
      else conversationMap
  end.

(** The body of [conversationMap.forEach] over the two lookup maps. *)
Definition overlay_profile_status
    (pMap : JsMap.t (string * option string))
    (sMap : JsMap.t (bool * option Z))
    (uid : string) (c : ConversationPreview) : ConversationPreview :=
  let c1 := match JsMap.get uid pMap with
            | Some p => set_profile p.1 p.2 c
            | None => c
            end in
  match JsMap.get uid sMap with
  | Some s => set_presence s.1 s.2 c1
  | None => c1
  end.

Definition getConversations (userId : string) : M (list ConversationPreview) :=
  try_catch (
    res ← select_messages (f_or (f_eq col_sender_id userId) (f_eq col_receiver_id userId))
            (Some false) None;
    match error res, data res with
    | None, Some rows =>
        let conversationMap := foldl (scan_message userId) JsMap.empty rows in
        let userIds := JsMap.keys conversationMap in
        hydrated ←
          (if bool_decide (0 < length userIds)%nat
           then
             '(pres, sres) ← Promise_all (select_profiles_in userIds)
                                         (select_user_status_in userIds);
             let pMap :=
               foldl (λ mp p, JsMap.put (p_user_id p)
                                (p_name p, or_undefined (p_profile_picture p)) mp)
                     JsMap.empty (or_empty (pres.(data))) in
             let sMap :=
               foldl (λ mp s, JsMap.put (s_user_id s)
                                (s_is_online s, Some (s_last_seen s)) mp)
                     JsMap.empty (or_empty (sres.(data))) in
             mret (JsMap.forEach (overlay_profile_status pMap sMap) conversationMap)
           else mret conversationMap) : M (JsMap.t ConversationPreview);
        mret (JsMap.values hydrated)
    | Some _, _ => console_error "Error fetching conversations:";; mret []
    | None, None => mret []
    end)
  (λ _, console_error "Error fetching conversations:";; mret []).

(** The listener of [subscribeToPairBroadcast] on an arriving payload. *)
Definition on_dm (l : Listener) (msg : Message) : M unit :=
  if bool_decide (m_sender_id msg = l_userId l) && bool_decide (m_receiver_id msg = l_otherUserId l)
     || bool_decide (m_sender_id msg = l_otherUserId l) && bool_decide (m_receiver_id msg = l_userId l)
  then modify (with_calls (λ cs, cs ++ [(l_onPairMessage l, msg)]))
  else mret ().

(** The channel handle is represented by the name of its room. *)
Definition subscribeToPairBroadcast (userId otherUserId : string)
    (onPairMessage : nat) : M string :=
  let room := buildPairRoom userId otherUserId in
  existing ← gets (λ w, channels w !! room);
  match existing with
  | Some _ => mret room
  | None =>
      modify (with_channels
                (<[room := [{| l_userId := userId; l_otherUserId := otherUserId;
                               l_onPairMessage := onPairMessage |}]]>));;
      mret room
  end.

(** The transport hands a payload of event [dm] to the listeners of a
    channel the client holds. *)
Definition deliver (room : string) (payload : Message) : M unit :=
  listeners ← gets (λ w, default [] (channels w !! room));
  foldr (λ l k, on_dm l payload;; k) (mret ()) listeners.

(** Values of the identifiers in scope of a method body. *)
Inductive JsValue :=
  | JsString (s : string)
  | JsBoolean (b : bool).

(** Evaluation of an identifier reference. *)
Definition identifier (scope : list (string * JsValue)) (name : string) : M JsValue :=
  match JsMap.get name scope with
  | Some v => mret v
  | None => throw (ReferenceError name)
  end.

(** [upsert({ user_id, target_user_id, is_typing })] into a table whose
    [is_typing] column is boolean. *)
Definition upsert_typing (user_id target_user_id : string) (is_typing : JsValue)
    : M (Response unit) :=
  match is_typing with
  | JsBoolean b =>
      upsert_typing_indicator
        {| ti_user_id := user_id; ti_target_user_id := target_user_id; ti_is_typing := b |}
  | JsString _ => request (mret (failed "invalid input syntax for type boolean"))
  end.

(** The payload of the upsert is written [{ user_id: userId,
    target_user_id: targetUserId, is_typing }]: the shorthand property reads
    the identifier [is_typing].  The identifiers bound at that point are the
    three parameters [userId], [targetUserId], [isTyping] and the constant
    [timeoutKey]; the module binds [supabase] and the service object, and
    nothing anywhere binds [is_typing]. *)
Definition sendTypingIndicator (userId targetUserId : string) (isTyping : bool) : M unit :=
  try_catch (
    let timeoutKey := userId +:+ "-" +:+ targetUserId in
    let scope :=
      [("userId", JsString userId); ("targetUserId", JsString targetUserId);
       ("isTyping", JsBoolean isTyping); ("timeoutKey", JsString timeoutKey)] in
    pending ← gets (λ w, typingTimeouts w !! timeoutKey);
    match pending with
    | Some h => clearTimeout h;; modify (with_typingTimeouts (delete timeoutKey))
    | None => mret ()
    end;;
    is_typing ← identifier scope "is_typing";
    res ← upsert_typing userId targetUserId is_typing;
    match error res with
    | Some _ => console_error "Error sending typing indicator:"
    | None =>
        if isTyping
        then
          timeout ← setTimeout (StopTyping userId targetUserId) 3000;
          modify (with_typingTimeouts (<[timeoutKey := timeout]>))
        else mret ()
    end)
  (λ _, console_error "Error sending typing indicator:").

(** A pending timer fires: it leaves the queue and its closure runs. *)
Definition run_action (a : TimerAction) : M unit :=
  match a with
  | BumpDelivered messageId =>
      try_catch (updateMessageStatus messageId delivered) (λ _, mret ())
  | StopTyping userId targetUserId => sendTypingIndicator userId targetUserId false
  end.

Definition fire (h : nat) : M unit :=
  pending ← gets (λ w, filter (λ t, t_handle t = h) (timers w));
  match pending with
  | t :: _ => clearTimeout h;; run_action (t_action t)
  | [] => mret ()
  end.

(** ** The messages page: [initializeChat] *)

(** [a.last_message?.created_at ? new Date(..).getTime() : 0]. *)
Definition last_message_time (c : ConversationPreview) : Z :=
  match c_last_message c with
  | Some lm => lm_created_at lm
  | None => 0
  end.

(** The comparator handed to [sort]. *)
Definition compareConversations (localeCompare : string → string → Z)
    (a b : ConversationPreview) : Z :=
  if c_is_online a && negb (c_is_online b) then (-1)%Z
  else if negb (c_is_online a) && c_is_online b then 1%Z
  else
    let at_ := last_message_time a in
    let bt := last_message_time b in
    if bool_decide (bt ≠ at_) then (bt - at_)%Z
    else localeCompare (c_name a) (c_name b).

(** The body of [allUsers.forEach] over the dictionary [byId]. *)
Definition overlay_user (onlineMap : JsMap.t DirectoryUser)
    (byId : JsMap.t ConversationPreview) (u : DirectoryUser)
    : JsMap.t ConversationPreview :=
  let is_online := JsMap.has (d_user_id u) onlineMap in
  let last_seen := JsMap.get (d_user_id u) onlineMap ≫= d_last_seen in
  match JsMap.get (d_user_id u) byId with
  | None =>
      JsMap.put (d_user_id u)
        {| c_user_id := d_user_id u; c_name := d_name u;
           c_profile_picture := d_profile_picture u;
           c_last_message := None; c_unread_count := 0;
           c_is_online := is_online; c_last_seen := last_seen |}
        byId
  | Some c => JsMap.put (d_user_id u) (set_presence is_online last_seen c) byId
  end.

Definition mergeConversations (localeCompare : string → string → Z)
    (conversationsData : list ConversationPreview)
    (allUsers online : list DirectoryUser) : list ConversationPreview :=
  let onlineMap := foldl (λ mp u, JsMap.put (d_user_id u) u mp) JsMap.empty online in
  let byId0 := foldl (λ mp c, JsMap.put (c_user_id c) c mp) JsMap.empty conversationsData in
  let byId := foldl (overlay_user onlineMap) byId0 allUsers in
  Array_sort (compareConversations localeCompare) (JsMap.values byId).

(** The list handed to [setConversations]. *)
Definition initializeChat (userId : string) : M (list ConversationPreview) :=
  initializeUserStatus userId;;
  conversationsData ← getConversations userId;
  '(allUsers, online) ← Promise_all (getAllUsersExcept userId) (getOnlineUsers userId);
  localeCompare ← gets locale;
  mret (mergeConversations localeCompare conversationsData allUsers online).

(** ** Worked scenario *)

Definition alice : string := "a1".
Definition bob : string := "b2".
Definition carol : string := "c3".

Definition stored (id from to body : string) (st : MessageStatus) (at_ : Z) : Message :=
  {| m_id := id; m_sender_id := from; m_receiver_id := to; m_content := body;
     m_message_type := text; m_status := st; m_reply_to := None;
     m_created_at := at_; m_updated_at := at_; m_read_at := None;
     m_sender := None; m_receiver := None |}.

(** The identifiers the generators hand out, told apart by their length. *)
Definition unary_uuid (n : nat) : string :=
  "u" +:+ foldr (λ _ s, String "i" s) "" (seq 0 n).

(** Four profiles, five stored messages, one user online, and a backend
    that serves every request. *)
Definition quiet_world : World :=
  {| messages :=
       [ stored "m1" alice bob "hello" read 10;
         stored "m2" bob alice "hi" sent 20;
         stored "m3" carol alice "ping" delivered 15;
         stored "m4" bob alice "there?" read 30;
         stored "m5" bob carol "other" sent 5 ];
     profiles :=
       [ {| p_user_id := alice; p_name := "Alice"; p_profile_picture := None |};
         {| p_user_id := bob; p_name := "Bob"; p_profile_picture := Some "b.png" |};
         {| p_user_id := carol; p_name := "Carol"; p_profile_picture := Some "" |};
         {| p_user_id := "d4"; p_name := "Dan"; p_profile_picture := None |} ];
     user_status := [ {| s_user_id := carol; s_is_online := true; s_last_seen := 40 |} ];
     typing_indicators := [];
     server_now := 100;
     collation := defaultCompare;
     uuids := unary_uuid;
     uuid_next := 0;
     client_now := 101;
     locale := defaultCompare;
     console := [];
     channels := ∅;
     typingTimeouts := ∅;
     timers := [];
     timer_next := 0;
     outbox := [];
     calls := [];
     net := [] |}.

(** The quiet world, except that its next request throws. *)
Definition throwing_world : World := with_net (λ _, [Throw]) quiet_world.

(** The quiet world, except that the request after the next one throws. *)
Definition half_served_world : World := with_net (λ _, [Healthy; Throw]) quiet_world.

(** A conversation of fifty stored messages between two users. *)
Definition busy_world : World :=
  with_messages
    (λ _, (λ i, stored ("s" +:+ unary_uuid i) alice bob "old" read (Z.of_nat i))
            <$> seq 0 50)
    quiet_world.

(** The outcome of one send in the quiet world, and the world after the
    timeout of that send has fired. *)
Definition sent_world : World := (sendMessage alice bob "yo" text None quiet_world).2.

Definition promoted_world : World := (fire 0 sent_world).2.

Definition sent_message : Message :=
  match (sendMessage alice bob "yo" text None quiet_world).1 with
  | Returned (Some m) => m
  | _ => stored "" "" "" "" sent 0
  end.

(** ** Vocabulary of the specification *)

(** No failure is scripted: every request of the coming ones is served. *)
Definition quiet (w : World) : Prop := Forall (λ mode, mode = Healthy) (net w).

(** The answers the backend gave to the requests issued on the way from
    world [w] to world [w']: the part of the script used up. *)
Definition consumed (w w' : World) : list NetMode :=
  take (length (net w) - length (net w')) (net w).

(** The failure policy of a read operation: it returns in every world;
    when any of the requests it issues throws, it returns [empty] and has
    logged [label], once; when its first request is answered with an error,
    it returns [empty]. *)
Definition fails_softly {A} (op : M A) (empty : A) (label : string) : Prop :=
  ∀ w, ∃ a w',
    op w = (Returned a, w')
    ∧ (Throw ∈ consumed w w' → a = empty ∧ console w' = console w ++ [label])
    ∧ (hd Healthy (net w) = Refuse → a = empty).

(** The failure policy of [sendMessage]: it returns in every world; a
    failing insert (thrown, or answered with an error) gives [null]; [null]
    comes with one logged error, a message comes without. *)
Definition sends_softly (op : M (option Message)) (label : string) : Prop :=
  ∀ w, ∃ r w',
    op w = (Returned r, w')
    ∧ (hd Healthy (net w) ≠ Healthy → r = None)
    ∧ (r = None → console w' = console w ++ [label])
    ∧ (is_Some r → console w' = console w).

(** A message of the pair [(a, b)], in either direction. *)
Definition between (a b : string) (m : Message) : Prop :=
  (m_sender_id m = a ∧ m_receiver_id m = b)
  ∨ (m_sender_id m = b ∧ m_receiver_id m = a).

Global Instance between_dec a b m : Decision (between a b m).
Proof. unfold between. apply _. Defined.

(** What identifies a stored message and never changes once it is stored;
    updates only write [status], [read_at] and [updated_at]. *)
Definition identity (m : Message) : string * string * string * string * Z :=
  (m_id m, m_sender_id m, m_receiver_id m, m_content m, m_created_at m).

(** The stored columns of a message, without the hydrated users. *)
Definition columns (m : Message) : Message := message_of_row m None None.

(** Ascending creation time. *)
Definition created_le (a b : Message) : Prop := (m_created_at a ≤ m_created_at b)%Z.

(** A message from [senderId] to [receiverId] that is not yet read. *)
Definition unread_from_to (senderId receiverId : string) (m : Message) : Prop :=
  m_sender_id m = senderId ∧ m_receiver_id m = receiverId ∧ m_status m ≠ read.

(** The number of stored messages between [userId] and [peer] that
    [userId] did not send. *)
Definition inbound_count (userId peer : string) (rows : list Message) : Z :=
  Z.of_nat (length (filter (λ m, between userId peer m ∧ m_sender_id m ≠ userId) rows)).

(** The message [sendMessage] fabricates when the insert throws. *)
Definition fabricated (w : World) (senderId receiverId content : string) : Message :=
  {| m_id := uuids w (uuid_next w); m_sender_id := senderId;
     m_receiver_id := receiverId; m_content := content;
     m_message_type := text; m_status := sent; m_reply_to := None;
     m_created_at := client_now w; m_updated_at := client_now w;
     m_read_at := None; m_sender := None; m_receiver := None |}.

(** The instant of the most recent stored message between [userId] and
    [peer], in either direction; instant 0 when they have exchanged none. *)
Definition most_recent_time (userId peer : string) (rows : list Message) : Z :=
  match filter (between userId peer) rows with
  | [] => 0
  | m :: ms => foldr (λ x t, Z.max (m_created_at x) t) (m_created_at m) ms
  end.

(** The order of the conversation list in the words of the specification:
    online before offline, then the user with the more recent message
    first, [recent] giving the instant of the most recent message exchanged
    with a user, then the name in ascending order. *)
Definition three_key_le (localeCompare : string → string → Z)
    (recent : string → Z) (a b : ConversationPreview) : Prop :=
  (c_is_online a = true ∧ c_is_online b = false)
  ∨ (c_is_online a = c_is_online b
     ∧ ((recent (c_user_id b) < recent (c_user_id a))%Z
        ∨ (recent (c_user_id a) = recent (c_user_id b)
           ∧ (localeCompare (c_name a) (c_name b) ≤ 0)%Z))).

(** A comparison of names is consistent when it is total and transitive. *)
Definition consistent (cmp : string → string → Z) : Prop :=
  (∀ a b, (0 < cmp a b)%Z → (cmp b a ≤ 0)%Z)
  ∧ (∀ a b c, (cmp a b ≤ 0)%Z → (cmp b c ≤ 0)%Z → (cmp a c ≤ 0)%Z).

(** ** Invariants and abbreviations of the proofs *)

(** The order a comparator induces. *)
Definition cmp_le {A} (cmp : A → A → Z) (a b : A) : Prop := (cmp a b ≤ 0)%Z.

(** The order [compareConversations] induces, on the fields it reads. *)
Definition preview_le (localeCompare : string → string → Z)
    (a b : ConversationPreview) : Prop :=
  (c_is_online a = true ∧ c_is_online b = false)
  ∨ (c_is_online a = c_is_online b
     ∧ ((last_message_time b < last_message_time a)%Z
        ∨ (last_message_time a = last_message_time b
           ∧ (localeCompare (c_name a) (c_name b) ≤ 0)%Z))).

(** The other party of a message that touches [userId]. *)
Definition peer_of (userId : string) (m : Message) : string :=
  if bool_decide (m_sender_id m = userId) then m_receiver_id m else m_sender_id m.

(** The rows [getConversations] scans: those that touch [userId], newest
    first. *)
Definition rows_touching (userId : string) (w : World) : list Message :=
  order_by_created_at false
    (filter (λ m, holds (f_or (f_eq col_sender_id userId) (f_eq col_receiver_id userId)) m
                  = true) (messages w)).

(** What the scan of [getConversations] has built after the rows [l]: one
    preview per peer seen, counting the rows of that peer that [userId] did
    not send. *)
Definition scan_inv (userId : string) (cm : JsMap.t ConversationPreview)
    (l : list Message) : Prop :=
  NoDup (JsMap.keys cm)
  ∧ (∀ k, is_Some (JsMap.get k cm) ↔ ∃ m, m ∈ l ∧ peer_of userId m = k)
  ∧ (∀ k c, JsMap.get k cm = Some c →
       c_user_id c = k
       ∧ c_unread_count c =
           Z.of_nat (length (filter (λ m, peer_of userId m = k ∧ m_sender_id m ≠ userId) l))).

(** The filter [getMessages] sends, and the complete history of a pair as
    the store orders it. *)
Definition pair_filter (userId1 userId2 : string) : Filter :=
  f_or (f_and (f_eq col_sender_id userId1) (f_eq col_receiver_id userId2))
       (f_and (f_eq col_sender_id userId2) (f_eq col_receiver_id userId1)).

Definition history (userId1 userId2 : string) (w : World) : list Message :=
  order_by_created_at true
    (filter (λ m, holds (pair_filter userId1 userId2) m = true) (messages w)).

(** What the calls of [initializeChat] leave alone: the stored messages and
    profiles, the two orders on text, and the absence of scripted failures. *)
Definition same_store (w w' : World) : Prop :=
  messages w' = messages w ∧ profiles w' = profiles w
  ∧ collation w' = collation w ∧ locale w' = locale w
  ∧ (quiet w → quiet w').

(** The entry of the directory made from a profile row. *)
Definition directory_user (p : Profile) : DirectoryUser :=
  {| d_user_id := p_user_id p; d_name := p_name p;
     d_profile_picture := p_profile_picture p; d_last_seen := None |}.

(** What the dictionary [byId] of [initializeChat] satisfies while it is
    built from the previews [cs]: an entry sits under its own identifier,
    and it either comes from [cs] or is a fresh entry without history. *)
Definition merge_inv (cs : list ConversationPreview)
    (byId : JsMap.t ConversationPreview) : Prop :=
  NoDup (JsMap.keys byId)
  ∧ ∀ k c, JsMap.get k byId = Some c →
      c_user_id c = k
      ∧ (k ∈ c_user_id <$> cs ∨ (c_unread_count c = 0%Z ∧ c_last_message c = None)).

(** ** Tactics *)

(** Unfolding of the monad and of the primitives, then computation. *)
Ltac mrun :=
  cbv beta iota delta
    [mbind M_bind mret M_ret gets modify throw try_catch request
     console_error Date_now randomUUID setTimeout clearTimeout channel_send
     Promise_all];
  cbn.

(** The same, computing only with the components of the world. *)
Ltac mstep :=
  cbv beta iota delta
    [mbind M_bind mret M_ret gets modify throw try_catch request
     console_error Date_now randomUUID setTimeout clearTimeout channel_send
     Promise_all];
  cbn [messages profiles user_status typing_indicators server_now collation
       uuids uuid_next client_now locale console channels typingTimeouts
       timers timer_next outbox calls net
       with_messages with_user_status with_typing_indicators with_uuid_next
       with_console with_channels with_typingTimeouts with_timers with_outbox
       with_calls with_net
       data error served failed fst snd].

(** Case analysis on the script, on the channel registry, on the rows a
    [single()] finds and on the tests of a method body. *)
Ltac case_script :=
  repeat first
    [ match goal with
      | |- context [(<[?k := ?v]> ?m) !! ?k] =>
          rewrite (lookup_insert_eq m k v); mstep
      | |- context [match hd Healthy ?l with _ => _ end] =>
          destruct (hd Healthy l) eqn:?; mstep
      | |- context [match channels ?w !! ?k with _ => _ end] =>
          destruct (channels w !! k) eqn:?; mstep
      | |- context [match filter ?P ?l with _ => _ end] =>
          destruct (filter P l) as [|? [|? ?]] eqn:?; mstep
      | |- context [if bool_decide ?P then _ else _] =>
          destruct (bool_decide P) eqn:?; mstep
      end ].

(** Closes a [same_store] goal between a world and an update of it. *)
Ltac solve_same_store :=
  unfold same_store, quiet;
  cbn [messages profiles collation locale net with_messages with_user_status
       with_typing_indicators with_uuid_next with_console with_channels
       with_typingTimeouts with_timers with_outbox with_calls with_net];
  repeat split; auto using Forall_tail.

(** Closes a leaf of the case analysis for [fails_softly]; [script] is the
    lemma that locates a [Throw] among the answers consumed by no, one, two
    or three requests. *)
Ltac solve_fails_softly script :=
  eexists _, _; (split; [reflexivity|]);
  split;
  [ let Hthrow := fresh "Hthrow" in
    intros Hthrow; unfold consumed in Hthrow;
    cbn [net with_messages with_user_status with_typing_indicators
         with_uuid_next with_console with_channels with_typingTimeouts
         with_timers with_outbox with_calls with_net] in Hthrow;
    match type of Hthrow with
    | Throw ∈ take _ ?l =>
        let H0 := fresh in let H1 := fresh in
        let H2 := fresh in let H3 := fresh in
        destruct (script l) as (H0 & H1 & H2 & H3);
        first [ apply H0 in Hthrow | apply H1 in Hthrow
              | apply H2 in Hthrow | apply H3 in Hthrow ]
    end;
    cbn [console with_messages with_user_status with_typing_indicators
         with_uuid_next with_console with_channels with_typingTimeouts
         with_timers with_outbox with_calls with_net];
    intuition congruence
  | let Hmode := fresh "Hmode" in
    intros Hmode; first [reflexivity | congruence] ].

(** Closes a leaf of the case analysis for [sends_softly]. *)
Ltac solve_sends_softly :=
  eexists _, _; (split; [reflexivity|]);
  cbn [console with_messages with_user_status with_typing_indicators
       with_uuid_next with_console with_channels with_typingTimeouts
       with_timers with_outbox with_calls with_net];
  split; [|split];
  [ let H := fresh in intros H; first [reflexivity | by destruct H]
  | let H := fresh in intros H; first [reflexivity | discriminate H]
  | let H := fresh in intros H; first [reflexivity | by destruct H as [? [=]]] ].

(** * Further definitions: the rest of the service and the page *)

(** ** Further vocabulary: sending and promoting *)

(** The row an insert of [sendMessage] stores in world [w]: every column
    but the three of the payload takes the default of the schema. *)
Definition inserted_row (w : World) (senderId receiverId content : string) : Message :=
  {| m_id := uuids w (uuid_next w); m_sender_id := senderId;
     m_receiver_id := receiverId; m_content := content;
     m_message_type := text; m_status := sent; m_reply_to := None;
     m_created_at := server_now w; m_updated_at := server_now w;
     m_read_at := None; m_sender := None; m_receiver := None |}.

(** The user attached to a message for [userId]: present when exactly one
    profile row carries that identifier. *)
Definition single_profile_ref (w : World) (userId : string) : option UserRef :=
  match filter (λ p, p_user_id p = userId) (profiles w) with
  | [p] => Some (userRef_of_profile p)
  | _ => None
  end.

(** The timeout a send schedules for the message [messageId]. *)
Definition promotion_timer (w : World) (messageId : string) : Timer :=
  {| t_handle := timer_next w; t_delay := 800; t_action := BumpDelivered messageId |}.

(** ** Further vocabulary: previews *)

(** The [last_message] a preview shows for the message [m]. *)
Definition last_of (m : Message) : LastMessage :=
  {| lm_content := m_content m; lm_created_at := m_created_at m;
     lm_sender_id := m_sender_id m |}.

(** Descending creation time. *)
Definition created_ge (a b : Message) : Prop := (m_created_at b ≤ m_created_at a)%Z.

(** What the scan of [getConversations] has stored as last message after
    the rows [l]: for every peer, the first row of that peer. *)
Definition scan_last (userId : string) (cm : JsMap.t ConversationPreview)
    (l : list Message) : Prop :=
  ∀ k c, JsMap.get k cm = Some c →
    ∃ l1 m l2,
      l = l1 ++ m :: l2 ∧ peer_of userId m = k
      ∧ (∀ x, x ∈ l1 → peer_of userId x ≠ k)
      ∧ c_last_message c = Some (last_of m).

(** The previews [getConversations] returns to alice in the quiet world. *)
Definition alice_conversations : list ConversationPreview :=
  match (getConversations alice quiet_world).1 with
  | Returned cs => cs
  | Raised _ => []
  end.

(** ** Further vocabulary: the users online *)

(** The rows [getOnlineUsers] is served, the identifiers it keeps of them,
    and the entry it makes from a profile row. *)
Definition online_rows (w : World) : list UserStatus :=
  filter (λ s, s_is_online s = true) (user_status w).

Definition other_online (currentUserId : string) (w : World) : list string :=
  filter (λ id, id ≠ currentUserId) (s_user_id <$> online_rows w).

Definition online_entry (rows : list UserStatus) (p : Profile) : DirectoryUser :=
  {| d_user_id := p_user_id p; d_name := p_name p;
     d_profile_picture := p_profile_picture p;
     d_last_seen :=
       JsMap.get (p_user_id p)
         (foldl (λ mp u, JsMap.put (s_user_id u) (s_last_seen u) mp) JsMap.empty rows) |}.

(** ** The service: presence updates and [cleanup] *)

(** The payload of [updateUserStatus] also carries [status_message], a
    column that no query of the service reads. *)
Definition updateUserStatus (userId : string) (isOnline : bool)
    (statusMessage : option string) : M unit :=
  try_catch (
    now ← Date_now;
    res ← upsert_user_status {| s_user_id := userId; s_is_online := isOnline; s_last_seen := now |};
    match error res with
    | Some _ => console_error "Error updating user status:"
    | None => mret ()
    end)
  (λ _, console_error "Error updating user status:").

(** [timeouts.forEach((timeout) => clearTimeout(timeout))]. *)
Definition clearTimeouts (handles : list nat) : M unit :=
  foldr (λ h k, clearTimeout h;; k) (mret ()) handles.

(** [cleanup]: the channels leave the registry ([removeChannel] hands them
    back to the transport), the registered typing timeouts are cleared.
    Clearing timeouts commutes, so the order of the enumeration plays no
    part. *)
Definition cleanup (userId : string) : M unit :=
  try_catch (
    updateUserStatus userId false None;;
    modify (with_channels (λ _, ∅));;
    handles ← gets (λ w, (map_to_list (typingTimeouts w)).*2);
    clearTimeouts handles;;
    modify (with_typingTimeouts (λ _, ∅)))
  (λ _, console_error "Error during cleanup:").

(** ** Further vocabulary: rooms *)

(** No colon occurs in an identifier (as in a UUID). *)
Fixpoint colon_free (s : string) : Prop :=
  match s with
  | EmptyString => True
  | String c s' => c ≠ ":"%char ∧ colon_free s'
  end.

(** One step of the concatenation of strings, on every literal prefix. *)
Ltac append_step :=
  repeat match goal with
         | |- context [String.append EmptyString ?s] =>
             change (String.append EmptyString s) with s
         | |- context [String.append (String ?c ?x) ?s] =>
             change (String.append (String c x) s) with (String c (String.append x s))
         end.

(** ** The messages page: the conversation list *)

(** [{ ...conv, last_message, unread_count }] for an arriving message. *)
Definition touch_preview (userId : string) (message : Message)
    (c : ConversationPreview) : ConversationPreview :=
  {| c_user_id := c_user_id c; c_name := c_name c;
     c_profile_picture := c_profile_picture c;
     c_last_message := Some (last_of message);
     c_unread_count :=
       if bool_decide (m_sender_id message ≠ userId)
       then (c_unread_count c + 1)%Z else c_unread_count c;
     c_is_online := c_is_online c; c_last_seen := c_last_seen c |}.

(** The function handed to [setConversations] by [updateConversationsList];
    [onlineUsers] is the set the callback has captured. *)
Definition updateConversationsList (userId : string) (onlineUsers : gset string)
    (message : Message) (prev : list ConversationPreview) : list ConversationPreview :=
  let otherUserId :=
    if bool_decide (m_sender_id message = userId)
    then m_receiver_id message else m_sender_id message in
  let otherUser :=
    if bool_decide (m_sender_id message = userId)
    then m_receiver message else m_sender message in
  match list_find (λ conv, c_user_id conv = otherUserId) prev with
  | Some (existingIndex, conv) =>
      <[existingIndex := touch_preview userId message conv]> prev
  | None =>
      {| c_user_id := otherUserId;
         c_name := match otherUser with
                   | Some u => if bool_decide (ref_name u = "") then "Unknown User"
                               else ref_name u
                   | None => "Unknown User"
                   end;
         c_profile_picture := otherUser ≫= ref_profile_picture;
         c_last_message := Some (last_of message);
         c_unread_count := if bool_decide (m_sender_id message ≠ userId) then 1 else 0;
         c_is_online := bool_decide (otherUserId ∈ onlineUsers);
         c_last_seen := None |} :: prev
  end.

(** The unread count the list shows for a user: that of the first entry
    with the identifier, none when there is no entry. *)
Definition unread_of (k : string) (cs : list ConversationPreview) : Z :=
  match list_find (λ c, c_user_id c = k) cs with
  | Some (_, c) => c_unread_count c
  | None => 0
  end.

(** A message that [userId] sent or received. *)
Definition touches (userId : string) (m : Message) : Prop :=
  m_sender_id m = userId ∨ m_receiver_id m = userId.

(** ** The messages page: live updates of the directory and of presence

    The callbacks close over [onlineUsers] and [onlineDirectory]; they are
    parameters here. *)

(** The function handed to [setConversations] when a profile row arrives. *)
Definition profileUpsert (onlineUsers : gset string)
    (onlineDirectory : JsMap.t DirectoryUser) (p : Profile)
    (prev : list ConversationPreview) : list ConversationPreview :=
  if bool_decide (Exists (λ c, c_user_id c = p_user_id p) prev)
  then (λ c, if bool_decide (c_user_id c = p_user_id p)
             then set_profile (p_name p) (p_profile_picture p) c else c) <$> prev
  else {| c_user_id := p_user_id p; c_name := p_name p;
          c_profile_picture := p_profile_picture p;
          c_last_message := None; c_unread_count := 0;
          c_is_online := bool_decide (p_user_id p ∈ onlineUsers);
          c_last_seen := JsMap.get (p_user_id p) onlineDirectory ≫= d_last_seen |}
       :: prev.

(** The function handed to [setOnlineUsers] when a presence row arrives. *)
Definition statusOnlineUsers (status : UserStatus) (prev : gset string) : gset string :=
  if s_is_online status then prev ∪ {[s_user_id status]}
  else prev ∖ {[s_user_id status]}.

(** The function handed to [setConversations] when a presence row arrives.
    For a user who is neither listed nor in the captured directory the list
    stays as it is (an entry is added later, once a fetch has resolved). *)
Definition statusConversations (onlineDirectory : JsMap.t DirectoryUser)
    (status : UserStatus) (prev : list ConversationPreview) : list ConversationPreview :=
  if s_is_online status
  then
    if bool_decide (Exists (λ c, c_user_id c = s_user_id status) prev)
    then (λ c, if bool_decide (c_user_id c = s_user_id status)
               then set_presence true (Some (s_last_seen status)) c else c) <$> prev
    else
      match JsMap.get (s_user_id status) onlineDirectory with
      | None => prev
      | Some minimal =>
          {| c_user_id := d_user_id minimal; c_name := d_name minimal;
             c_profile_picture := d_profile_picture minimal;
             c_last_message := None; c_unread_count := 0;
             c_is_online := true; c_last_seen := d_last_seen minimal |} :: prev
      end
  else (λ c, if bool_decide (c_user_id c = s_user_id status)
             then set_presence false (Some (s_last_seen status)) c else c) <$> prev.

(** The function handed to [setTypingUsers] when a typing row arrives at
    the page of [userId]. *)
Definition typingChange (userId : string) (typing : TypingIndicator)
    (prev : gset string) : gset string :=
  if bool_decide (ti_target_user_id typing = userId)
  then if ti_is_typing typing then prev ∪ {[ti_user_id typing]}
       else prev ∖ {[ti_user_id typing]}
  else prev.

(** Every entry of a dictionary sits under its own identifier. *)
Definition well_keyed (dir : JsMap.t DirectoryUser) : Prop :=
  ∀ k d, JsMap.get k dir = Some d → d_user_id d = k.

(** ** The messages page: loading, sending, typing, time stamps

    [scrollToBottom] only schedules a scroll of the view; it is left out. *)


(** The state of the page that [sendMessage] reads and writes, and the
    alerts it has raised. *)
Record PageState := {
  pg_messages : list Message;
  pg_conversations : list ConversationPreview;
  pg_newMessage : string;
  pg_sending : bool;
  pg_alerts : list string;
}.

(** [sendMessage] of the page; [trim] is [String.prototype.trim], the two
    identifiers are [user?.id] and [selectedUserId]. *)
Definition pageSendMessage (trim : string → string) (onlineUsers : gset string)
    (userId selectedUserId : option string) (st : PageState) : M PageState :=
  match userId, selectedUserId with
  | Some uid, Some selected =>
      if bool_decide (trim (pg_newMessage st) = "") || pg_sending st
      then mret st
      else
        let messageContent := trim (pg_newMessage st) in
        try_catch (
          sentMessage ← sendMessage uid selected messageContent text None;
          match sentMessage with
          | Some m =>
              mret {| pg_messages := pg_messages st ++ [m];
                      pg_conversations :=
                        updateConversationsList uid onlineUsers m (pg_conversations st);
                      pg_newMessage := ""; pg_sending := false;
                      pg_alerts := pg_alerts st |}
          | None =>
              mret {| pg_messages := pg_messages st;
                      pg_conversations := pg_conversations st;
                      pg_newMessage := messageContent; pg_sending := false;
                      pg_alerts :=
                        pg_alerts st ++ ["Failed to send message. Please ensure you are signed in and permitted."] |}
          end)
        (λ _,
          console_error "Error sending message:";;
          mret {| pg_messages := pg_messages st;
                  pg_conversations := pg_conversations st;
                  pg_newMessage := messageContent; pg_sending := false;
                  pg_alerts :=
                    pg_alerts st ++ ["Failed to send message due to an unexpected error."] |})
  | _, _ => mret st
  end.

(** [handleTyping]: the value of [typingTimeoutRef.current] goes in and
    comes out.  The call of [sendTypingIndicator] is not awaited; it fails
    before its first [await], so it has completed when the next statement
    runs. *)
Definition handleTyping (userId selectedUserId : string)
    (typingTimeoutRef : option nat) : M (option nat) :=
  sendTypingIndicator userId selectedUserId true;;
  match typingTimeoutRef with
  | Some h => clearTimeout h
  | None => mret ()
  end;;
  h ← setTimeout (StopTyping userId selectedUserId) 1000;
  mret (Some h).

(** [n] keystrokes in a row, none of the timeouts firing in between. *)
Fixpoint keystrokes (userId selectedUserId : string) (n : nat)
    (typingTimeoutRef : option nat) : M (option nat) :=
  match n with
  | O => mret typingTimeoutRef
  | S n' =>
      ref ← handleTyping userId selectedUserId typingTimeoutRef;
      keystrokes userId selectedUserId n' ref
  end.

(** [formatTime]: [now] and [timestamp] are the two instants
    [getTime()] gives, [toLocaleDateString] is the rendering of a date in
    the locale of the browser. *)
Definition formatTime (toLocaleDateString : Z → string) (now timestamp : Z) : string :=
  let diff := (now - timestamp)%Z in
  if bool_decide (diff < 60000)%Z then "Just now"
  else if bool_decide (diff < 3600000)%Z then pretty (diff `div` 60000)%Z +:+ "m ago"
  else if bool_decide (diff < 86400000)%Z then pretty (diff `div` 3600000)%Z +:+ "h ago"
  else toLocaleDateString timestamp.

(** The timeout of the page that is pending under the handle in
    [typingTimeoutRef]. *)
Definition pending_stop (userId selectedUserId : string) (ref : option nat) : list Timer :=
  match ref with
  | Some h => [{| t_handle := h; t_delay := 1000;
                  t_action := StopTyping userId selectedUserId |}]
  | None => []
  end.

(** ** Further vocabulary: hydration *)

(** The maps [getConversations] and [getMessages] build from the rows they
    are served for the identifiers [ids]. *)
Definition profile_map (ids : list string) (w : World) : JsMap.t (string * option string) :=
  foldl (λ mp p, JsMap.put (p_user_id p) (p_name p, or_undefined (p_profile_picture p)) mp)
        JsMap.empty (filter (λ p, p_user_id p ∈ ids) (profiles w)).

Definition status_map (ids : list string) (w : World) : JsMap.t (bool * option Z) :=
  foldl (λ mp s, JsMap.put (s_user_id s) (s_is_online s, Some (s_last_seen s)) mp)
        JsMap.empty (filter (λ s, s_user_id s ∈ ids) (user_status w)).

(** A world whose insert and profile lookups are served, whose first
    broadcast throws and whose second broadcast goes through. *)
Definition flaky_world : World :=
  with_net (λ _, [Healthy; Healthy; Healthy; Throw]) quiet_world.

(** ** The messages page: the deferred part of the presence callback *)

(** For a user who came online and is neither listed nor in the captured
    directory, the callback fetches the users online and, if the user is
    among them, queues [setConversations(prev2 => [entry, ...prev2])]: the
    result of the fetch is the function queued. *)
Definition deferredStatusInsert (userId : string) (status : UserStatus)
    : M (list ConversationPreview → list ConversationPreview) :=
  list ← getOnlineUsers userId;
  match list_find (λ u, d_user_id u = s_user_id status) list with
  | Some (_, found) =>
      mret (λ prev2,
              {| c_user_id := d_user_id found; c_name := d_name found;
                 c_profile_picture := d_profile_picture found;
                 c_last_message := None; c_unread_count := 0;
                 c_is_online := true; c_last_seen := d_last_seen found |} :: prev2)
  | None => mret (λ prev2, prev2)
  end.

(** The function queued once the fetch started for the row [status] has
    resolved with the list [fetched]. *)
Definition resolvedInsert (status : UserStatus) (fetched : list DirectoryUser)
    (prev2 : list ConversationPreview) : list ConversationPreview :=
  match list_find (λ u, d_user_id u = s_user_id status) fetched with
  | Some (_, found) =>
      {| c_user_id := d_user_id found; c_name := d_name found;
         c_profile_picture := d_profile_picture found;
         c_last_message := None; c_unread_count := 0;
         c_is_online := true; c_last_seen := d_last_seen found |} :: prev2
  | None => prev2
  end.

(** Whether the callback of a presence row starts that fetch: the user came
    online, is not listed, and is not in the captured directory. *)
Definition startsFetch (onlineDirectory : JsMap.t DirectoryUser)
    (status : UserStatus) (prev : list ConversationPreview) : bool :=
  s_is_online status
  && negb (bool_decide (Exists (λ c, c_user_id c = s_user_id status) prev))
  && negb (JsMap.has (s_user_id status) onlineDirectory).

(** The page while presence rows arrive: the set of users online, the
    conversation list, and the rows whose fetch has not resolved yet. *)
Record PresenceState := {
  ps_onlineUsers : gset string;
  ps_conversations : list ConversationPreview;
  ps_fetching : list UserStatus
}.

(** What reaches the page: a presence row, or the answer [fetched] of
    [getOnlineUsers] to the fetch at position [i] of those under way. *)
Inductive PresenceEvent :=
  | RowArrives (status : UserStatus)
  | FetchResolves (i : nat) (fetched : list DirectoryUser).

Definition presence_step (onlineDirectory : JsMap.t DirectoryUser)
    (st : PresenceState) (ev : PresenceEvent) : PresenceState :=
  match ev with
  | RowArrives status =>
      {| ps_onlineUsers := statusOnlineUsers status (ps_onlineUsers st);
         ps_conversations :=
           statusConversations onlineDirectory status (ps_conversations st);
         ps_fetching :=
           if startsFetch onlineDirectory status (ps_conversations st)
           then ps_fetching st ++ [status] else ps_fetching st |}
  | FetchResolves i fetched =>
      match ps_fetching st !! i with
      | Some status =>
          {| ps_onlineUsers := ps_onlineUsers st;
             ps_conversations := resolvedInsert status fetched (ps_conversations st);
             ps_fetching := delete i (ps_fetching st) |}
      | None => st
      end
  end.

(** The page after a sequence of events, starting from [start]. *)
Definition presence_replay (onlineDirectory : JsMap.t DirectoryUser)
    (events : list PresenceEvent) (start : PresenceState) : PresenceState :=
  foldl (presence_step onlineDirectory) start events.

(** The page as mounted: no fetch under way. *)
Definition mounted (online : gset string) (cs : list ConversationPreview)
    : PresenceState :=
  {| ps_onlineUsers := online; ps_conversations := cs; ps_fetching := [] |}.

(** The users whose presence rows occur in a sequence of events. *)
Definition row_users (events : list PresenceEvent) : list string :=
  events ≫= λ ev, match ev with
                  | RowArrives status => [s_user_id status]
                  | FetchResolves _ _ => []
                  end.

(** A user the page knows from the start: listed, or in the captured
    directory. *)
Definition known (onlineDirectory : JsMap.t DirectoryUser)
    (cs : list ConversationPreview) (k : string) : Prop :=
  k ∈ c_user_id <$> cs ∨ is_Some (JsMap.get k onlineDirectory).

(** What a replay from [mounted online cs0] keeps true: no fetch is under
    way for a known user, the users listed at the start stay listed, and
    the list agrees with the set on the known users [seen] so far. *)
Definition replay_inv (onlineDirectory : JsMap.t DirectoryUser)
    (cs0 : list ConversationPreview) (seen : string → Prop)
    (st : PresenceState) : Prop :=
  (∀ status, status ∈ ps_fetching st → ¬ known onlineDirectory cs0 (s_user_id status))
  ∧ (∀ k, k ∈ c_user_id <$> cs0 → k ∈ c_user_id <$> ps_conversations st)
  ∧ (∀ c, c ∈ ps_conversations st →
       known onlineDirectory cs0 (c_user_id c) ∧ seen (c_user_id c) →
       c_is_online c = bool_decide (c_user_id c ∈ ps_onlineUsers st)).

(** * Proofs *)

(** ** Insertion-ordered maps *)

Module JsMapFacts.
Import JsMap.
Section facts.
Context {V : Type}.
Implicit Types (m : JsMap.t V) (k : string) (v : V).

Lemma get_put_eq k v m : get k (put k v m) = Some v.
Proof.
  induction m as [|[k' v'] m IH]; simpl.
  - by rewrite decide_True.
  - destruct (decide (k' = k)); simpl.
    + by rewrite decide_True.
    + by rewrite decide_False.
Qed.

Lemma get_put_ne k k' v m : k ≠ k' → get k' (put k v m) = get k' m.
Proof.
  intros Hne. induction m as [|[k0 v0] m IH]; simpl.
  - by rewrite decide_False.
  - destruct (decide (k0 = k)) as [->|]; simpl.
    + by rewrite !decide_False.
    + destruct (decide (k0 = k')); done.
Qed.

Lemma get_put k k' v m :
  get k' (put k v m) = if decide (k = k') then Some v else get k' m.
Proof.
  destruct (decide (k = k')) as [->|]; auto using get_put_eq, get_put_ne.
Qed.

Lemma elem_of_keys k m : k ∈ keys m ↔ is_Some (get k m).
Proof.
  unfold keys. induction m as [|[k' v'] m IH]; simpl.
  - split; [by intros ?%elem_of_nil | by intros [? ?]].
  - rewrite elem_of_cons, IH. destruct (decide (k' = k)) as [->|]; [|intuition congruence].
    split; eauto.
Qed.

Lemma elem_of_keys_put k k' v m : k' ∈ keys (put k v m) ↔ k' = k ∨ k' ∈ keys m.
Proof.
  rewrite !elem_of_keys, get_put.
  destruct (decide (k = k')) as [->|]; [|intuition congruence].
  split; eauto.
Qed.

Lemma NoDup_keys_put k v m : NoDup (keys m) → NoDup (keys (put k v m)).
Proof.
  unfold keys. induction m as [|[k' v'] m IH]; simpl; intros Hnd.
  - apply NoDup_singleton.
  - apply NoDup_cons in Hnd as [Hk' Hnd].
    destruct (decide (k' = k)) as [->|Hne]; simpl.
    + by apply NoDup_cons.
    + apply NoDup_cons. split; [|by apply IH].
      intros [?|?]%(elem_of_keys_put k k' v m); [congruence|done].
Qed.

Lemma elem_of_values v m :
  NoDup (keys m) → v ∈ values m ↔ ∃ k, get k m = Some v.
Proof.
  unfold keys, values. induction m as [|[k' v'] m IH]; simpl; intros Hnd.
  - split; [by intros ?%elem_of_nil | by intros [? ?]].
  - apply NoDup_cons in Hnd as [Hk' Hnd]. rewrite elem_of_cons, (IH Hnd).
    split.
    + intros [->|[k Hk]].
      * exists k'. by rewrite decide_True.
      * exists k. rewrite decide_False; [done|].
        intros ->. apply Hk'. apply (elem_of_keys k m). eauto.
    + intros [k Hk]. destruct (decide (k' = k)); [left; congruence|right; eauto].
Qed.

Lemma keys_forEach (f : string → V → V) m : keys (forEach f m) = keys m.
Proof.
  unfold keys, forEach. induction m as [|[k v] m IH]; simpl; [done|].
  f_equal. apply IH.
Qed.

Lemma get_forEach (f : string → V → V) k m :
  get k (forEach f m) = f k <$> get k m.
Proof.
  unfold forEach. induction m as [|[k' v'] m IH]; simpl; [done|].
  destruct (decide (k' = k)) as [->|]; [done|apply IH].
Qed.
End facts.
End JsMapFacts.

(** An element of a list without duplicate keys is the only one with its
    key. *)
Lemma NoDup_fmap_once {A} (f : A → string) (l : list A) (k : string) :
  NoDup (f <$> l) → k ∈ f <$> l →
  length (filter (λ y, f y = k) l) = 1%nat.
Proof.
  induction l as [|y l IH]; intros Hnd Hin.
  - by apply elem_of_nil in Hin.
  - rewrite fmap_cons in Hnd, Hin. apply NoDup_cons in Hnd as [Hy Hnd].
    rewrite filter_cons. destruct (decide (f y = k)) as [<-|Hne]; simpl.
    + f_equal. destruct (filter (λ z, f z = f y) l) as [|z ?] eqn:Hf; [done|].
      exfalso. assert (z ∈ filter (λ z, f z = f y) l) as Hz by (rewrite Hf; left).
      apply list_elem_of_filter in Hz as [Heq Hz].
      apply Hy. rewrite <- Heq. by apply list_elem_of_fmap_2.
    + apply IH; [done|]. apply elem_of_cons in Hin as [?|?]; [congruence|done].
Qed.

Lemma fmap_id_on {A} (f : A → A) (l : list A) :
  (∀ x, x ∈ l → f x = x) → f <$> l = l.
Proof.
  intros Hf. induction l as [|x l IH]; [done|]. cbn. f_equal.
  - apply Hf. left.
  - apply IH. intros y Hy. apply Hf. by right.
Qed.

(** A map filled by [set] over a list holds, under a key, the value of a
    row with that key. *)
Lemma get_foldl_put {A V} (key : A → string) (val : A → V) (l : list A) k v :
  JsMap.get k (foldl (λ mp x, JsMap.put (key x) (val x) mp) JsMap.empty l) = Some v →
  ∃ x, x ∈ l ∧ key x = k ∧ v = val x.
Proof.
  induction l as [|x l IH] using rev_ind; [done|].
  rewrite foldl_app. cbn. rewrite JsMapFacts.get_put.
  destruct (decide (key x = k)) as [Hk|Hk].
  - intros [= <-]. exists x. split; [|done]. apply elem_of_app. right. by left.
  - intros (y & ? & ? & ?)%IH. exists y. split; [|done]. apply elem_of_app. by left.
Qed.

Lemma is_Some_get_foldl_put {A V} (key : A → string) (val : A → V) (l : list A) x :
  x ∈ l →
  is_Some (JsMap.get (key x) (foldl (λ mp x, JsMap.put (key x) (val x) mp) JsMap.empty l)).
Proof.
  induction l as [|y l IH] using rev_ind; [by intros ?%elem_of_nil|].
  rewrite foldl_app. cbn. rewrite JsMapFacts.get_put.
  intros [Hin| ->%list_elem_of_singleton]%elem_of_app.
  - destruct (decide (key y = key x)); [eauto|by apply IH].
  - rewrite decide_True by done. eauto.
Qed.

(** ** Sorting *)

Section sorting.
Context {A : Type} (cmp : A → A → Z).

Lemma sort_insert_Permutation x l : sort_insert cmp x l ≡ₚ x :: l.
Proof.
  induction l as [|y l IH]; simpl; [done|].
  destruct (cmp x y <=? 0)%Z; [done|].
  rewrite IH. apply Permutation_swap.
Qed.

Lemma Array_sort_Permutation l : Array_sort cmp l ≡ₚ l.
Proof.
  induction l as [|x l IH]; simpl; [done|].
  rewrite sort_insert_Permutation. by f_equiv.
Qed.

Lemma Array_sort_nil : Array_sort cmp [] = [].
Proof. done. Qed.

Hypothesis cmp_total : ∀ a b, (0 < cmp a b)%Z → (cmp b a ≤ 0)%Z.
Hypothesis cmp_trans : ∀ a b c, (cmp a b ≤ 0)%Z → (cmp b c ≤ 0)%Z → (cmp a c ≤ 0)%Z.

Lemma sort_insert_sorted x l :
  StronglySorted (cmp_le cmp) l → StronglySorted (cmp_le cmp) (sort_insert cmp x l).
Proof.
  induction l as [|y l IH]; simpl; intros Hs.
  - repeat constructor.
  - apply StronglySorted_cons in Hs as [Hy Hs].
    destruct (cmp x y <=? 0)%Z eqn:Hxy.
    + apply Z.leb_le in Hxy. apply StronglySorted_cons. split.
      * constructor; [done|]. eapply Forall_impl; [exact Hy|].
        intros z Hz. eapply cmp_trans; [exact Hxy|exact Hz].
      * by apply StronglySorted_cons.
    + apply Z.leb_gt in Hxy. apply StronglySorted_cons. split; [|by apply IH].
      rewrite sort_insert_Permutation. constructor; [|done].
      by apply cmp_total.
Qed.

Lemma Array_sort_sorted l : StronglySorted (cmp_le cmp) (Array_sort cmp l).
Proof.
  induction l as [|x l IH]; simpl; [constructor|].
  by apply sort_insert_sorted.
Qed.
End sorting.

(** ** The pair room *)

(** C6. The pair-room identifier derived for (A, B) is the one derived for
    (B, A): both participants compute the same channel name. *)
Theorem buildPairRoom_symmetric (userIdA userIdB : string) :
  buildPairRoom userIdA userIdB = buildPairRoom userIdB userIdA.
Proof.
  unfold buildPairRoom, Array_sort, defaultCompare. simpl.
  rewrite (String.compare_antisym userIdA userIdB).
  destruct (String.compare userIdB userIdA) eqn:Hcmp; simpl; try done.
  apply String.compare_eq_iff in Hcmp. by subst.
Qed.

(** C7. On a channel opened by [subscribeToPairBroadcast userId otherUserId
    onPairMessage], an arriving payload invokes [onPairMessage] exactly when
    its (sender, receiver) is the pair in one of the two directions; any
    other payload is discarded. *)
Theorem subscribeToPairBroadcast_filters userId otherUserId onPairMessage w :
  channels w !! buildPairRoom userId otherUserId = None →
  ∃ w1,
    subscribeToPairBroadcast userId otherUserId onPairMessage w
      = (Returned (buildPairRoom userId otherUserId), w1)
    ∧ ∀ w' payload,
        channels w' !! buildPairRoom userId otherUserId
          = channels w1 !! buildPairRoom userId otherUserId →
        ∃ w2,
          deliver (buildPairRoom userId otherUserId) payload w' = (Returned (), w2)
          ∧ (between userId otherUserId payload →
             calls w2 = calls w' ++ [(onPairMessage, payload)])
          ∧ (¬ between userId otherUserId payload → calls w2 = calls w').
Proof.
  intros Hnew. unfold subscribeToPairBroadcast. mrun. rewrite Hnew.
  eexists. split; [reflexivity|]. cbn. rewrite lookup_insert_eq.
  intros w' payload Hsame. unfold deliver, on_dm. mrun. rewrite Hsame. cbn.
  unfold between.
  repeat case_bool_decide; cbn; eexists; (split; [reflexivity|]); cbn;
    split; intros; try done; intuition congruence.
Qed.

(** ** Typing indicator *)

(** C9, the code at any input.  Building the payload of the upsert reads the
    unbound identifier [is_typing]; the [ReferenceError] is caught and
    logged.  No request is issued, no row is written and no timeout is
    scheduled or registered, whatever [isTyping] is: the call never
    succeeds, and nothing resets the indicator after the quiet period. *)
Theorem sendTypingIndicator_reference_error userId targetUserId isTyping w :
  ∃ w',
    sendTypingIndicator userId targetUserId isTyping w = (Returned (), w')
    ∧ typing_indicators w' = typing_indicators w
    ∧ net w' = net w
    ∧ console w' = console w ++ ["Error sending typing indicator:"]
    ∧ typingTimeouts w' !! (userId +:+ "-" +:+ targetUserId) = None
    ∧ ∀ t, t ∈ timers w' → t ∈ timers w.
Proof.
  unfold sendTypingIndicator, identifier. mrun.
  destruct (typingTimeouts w !! _) as [h|] eqn:Hpending; cbn;
    eexists; (split; [reflexivity|]); cbn; repeat split; try done.
  - apply lookup_delete_eq.
  - by intros t [_ ?]%list_elem_of_filter.
Qed.

(** ** Sending when the insert fails *)

(** C10. If the insert throws, [sendMessage] logs, hands a fabricated
    message (fresh random identifier, status [sent], the current instant as
    both timestamps) to the pair channel and returns [null]; no row is
    stored.  If the insert answers with an error, [sendMessage] returns
    [null] and broadcasts nothing. *)
Theorem sendMessage_insert_failure senderId receiverId content messageType replyTo w :
  (hd Healthy (net w) = Throw →
   nth 1 (net w) Healthy = Healthy →
   ∃ w',
     sendMessage senderId receiverId content messageType replyTo w = (Returned None, w')
     ∧ messages w' = messages w
     ∧ outbox w' = outbox w ++ [(buildPairRoom senderId receiverId,
                                 fabricated w senderId receiverId content)]
     ∧ m_status (fabricated w senderId receiverId content) = sent
     ∧ is_Some (channels w' !! buildPairRoom senderId receiverId))
  ∧ (hd Healthy (net w) = Refuse →
     ∃ w',
       sendMessage senderId receiverId content messageType replyTo w = (Returned None, w')
       ∧ messages w' = messages w
       ∧ outbox w' = outbox w).
Proof.
  split.
  - intros H0 H1. unfold sendMessage, insert_message, broadcastPairMessage. mrun.
    rewrite H0. cbn.
    assert (hd Healthy (tail (net w)) = Healthy) as Hsend.
    { destruct (net w) as [|? [|? ?]]; cbn in *; congruence. }
    destruct (channels w !! buildPairRoom senderId receiverId) eqn:Hroom; cbn;
      rewrite Hsend; cbn; eexists; (split; [reflexivity|]); cbn;
      repeat split; try done;
      first [rewrite lookup_insert_eq; eauto | rewrite Hroom; eauto].
  - intros H0. unfold sendMessage, insert_message. mrun. rewrite H0. cbn.
    eexists. split; [reflexivity|]. done.
Qed.

(** ** Marking as read *)

Lemma holds_unread_from_to senderId receiverId m :
  holds (f_and (f_and (f_eq col_sender_id senderId) (f_eq col_receiver_id receiverId))
               (f_neq col_status "read")) m = true
  ↔ unread_from_to senderId receiverId m.
Proof.
  unfold unread_from_to. cbn.
  rewrite !andb_true_iff, !bool_decide_eq_true.
  destruct (m_status m); cbn; intuition congruence.
Qed.

(** An update of [public.messages] by the client changes no row: no policy
    admits a row for UPDATE. *)
Lemma update_messages_denied p f w :
  messages (update_messages p f w).2 = messages w.
Proof.
  unfold update_messages. mstep.
  destruct (hd Healthy (net w)); mstep; [|done..].
  apply fmap_id_on. intros m _. unfold admitted.
  rewrite (bool_decide_false (cmd_update ∈ messages_policies)).
  - by rewrite andb_false_r.
  - unfold messages_policies. rewrite !elem_of_cons, elem_of_nil. intuition discriminate.
Qed.

(** C8, the code under the schema it ships with.  [markMessagesAsRead]
    sends the update the claim describes: the filter selects exactly the
    messages from [sender] to [receiver] that are not yet read, and the
    patch sets [status] to [read] and stamps [read_at].  But the schema
    enables row level security on [public.messages] and creates no policy
    for UPDATE, so the store applies the update to no row.  In every world
    the call returns, the stored messages afterwards are the stored
    messages before, and a message from [sender] to [receiver] that was not
    read is still not read.  A failure is logged and not raised. *)
Theorem markMessagesAsRead_changes_nothing senderId receiverId w :
  ∃ w',
    markMessagesAsRead senderId receiverId w = (Returned (), w')
    ∧ messages w' = messages w
    ∧ (∀ m, holds (f_and (f_and (f_eq col_sender_id senderId)
                                (f_eq col_receiver_id receiverId))
                         (f_neq col_status "read")) m = true
            ↔ unread_from_to senderId receiverId m)
    ∧ (∀ m, m ∈ messages w → unread_from_to senderId receiverId m →
            m ∈ messages w' ∧ m_status m ≠ read)
    ∧ (hd Healthy (net w) = Healthy → console w' = console w)
    ∧ (hd Healthy (net w) ≠ Healthy →
       console w' = console w ++ ["Error marking messages as read:"]).
Proof.
  pose proof (update_messages_denied
                {| patch_status := read; patch_read_at := Some (client_now w) |}
                (f_and (f_and (f_eq col_sender_id senderId) (f_eq col_receiver_id receiverId))
                       (f_neq col_status "read")) w) as Hkept.
  revert Hkept. unfold markMessagesAsRead, update_messages. mstep.
  destruct (hd Healthy (net w)) eqn:Hmode; mstep; intros Hkept;
    eexists; (split; [reflexivity|]); cbn [messages console with_messages with_net
                                           with_console];
    (split; [exact Hkept|]);
    (split; [apply holds_unread_from_to|]);
    (split; [intros m Hm (_ & _ & Hstatus); split; [|exact Hstatus];
             first [exact Hm | by rewrite Hkept]|]);
    split; intros Hserved; try done; try discriminate Hserved.
Qed.

(** ** Conversation previews *)

Lemma length_filter_snoc {A} (P : A → Prop) `{!∀ x, Decision (P x)} (l : list A) (x : A) :
  length (filter P (l ++ [x])) = (length (filter P l) + if decide (P x) then 1 else 0)%nat.
Proof.
  rewrite filter_app, length_app. f_equal.
  rewrite filter_cons, filter_nil. by destruct (decide (P x)).
Qed.

Section conversations.
Context (userId : string).
Import JsMap JsMapFacts.

Lemma scan_inv_empty : scan_inv userId JsMap.empty [].
Proof.
  split; [constructor|]. split.
  - intros k. split; [by intros [? ?]|]. intros (m & Hm & _). by apply elem_of_nil in Hm.
  - intros k c Hget. done.
Qed.

Lemma scan_message_inv cm l m :
  scan_inv userId cm l → scan_inv userId (scan_message userId cm m) (l ++ [m]).
Proof.
  intros (Hnd & Hdom & Hval). unfold scan_message.
  change (if bool_decide (m_sender_id m = userId) then m_receiver_id m else m_sender_id m)
    with (peer_of userId m).
  set (k0 := peer_of userId m).
  assert (∀ k, (∃ m', m' ∈ l ++ [m] ∧ peer_of userId m' = k)
               ↔ k = k0 ∨ ∃ m', m' ∈ l ∧ peer_of userId m' = k) as Hsnoc.
  { intros k. split.
    - intros (m' & [Hin| ->%list_elem_of_singleton]%elem_of_app & Hp); eauto.
    - intros [->|(m' & Hin & Hp)].
      + exists m. split; [apply elem_of_app; right; by apply list_elem_of_singleton|done].
      + exists m'. split; [apply elem_of_app; by left|done]. }
  destruct (get k0 cm) as [c|] eqn:Hget.
  - destruct (Hval _ _ Hget) as [Hid Hcount].
    case_bool_decide as Hsender.
    + split; [by apply NoDup_keys_put|]. split.
      * intros k. rewrite Hsnoc, get_put, <- Hdom.
        destruct (decide (k0 = k)) as [<-|]; [|intuition congruence].
        split; eauto.
      * intros k c'. rewrite get_put, length_filter_snoc.
        destruct (decide (k0 = k)) as [<-|Hne].
        -- intros [= <-]. cbn. split; [done|]. rewrite Hcount.
           rewrite decide_True by done. lia.
        -- intros Hget'. destruct (Hval _ _ Hget') as [? ->]. split; [done|].
           rewrite decide_False by (intros [? _]; done). by rewrite Nat.add_0_r.
    + split; [done|]. split.
      * intros k. rewrite Hsnoc, <- Hdom.
        split; [eauto|]. intros [->|?]; [|done]. rewrite Hget. eauto.
      * intros k c' Hget'. destruct (Hval _ _ Hget') as [? ->]. split; [done|].
        rewrite length_filter_snoc, decide_False; [by rewrite Nat.add_0_r|].
        intros [_ ?]. congruence.
  - assert (filter (λ m', peer_of userId m' = k0 ∧ m_sender_id m' ≠ userId) l = []) as Hnone.
    { destruct (filter _ l) as [|m' ?] eqn:Hf; [done|]. exfalso.
      assert (m' ∈ filter (λ m', peer_of userId m' = k0 ∧ m_sender_id m' ≠ userId) l) as Hin
        by (rewrite Hf; left).
      apply list_elem_of_filter in Hin as [[Hp _] Hin].
      assert (is_Some (get k0 cm)) as [? ?] by (apply Hdom; eauto). congruence. }
    split; [by apply NoDup_keys_put|]. split.
    + intros k. rewrite Hsnoc, get_put, <- Hdom.
      destruct (decide (k0 = k)) as [<-|]; [|intuition congruence].
      split; eauto.
    + intros k c'. rewrite get_put, length_filter_snoc.
      destruct (decide (k0 = k)) as [<-|Hne].
      * intros [= <-]. cbn. split; [done|]. rewrite Hnone. cbn.
        case_bool_decide; [by rewrite decide_True|].
        rewrite decide_False; [done|]. intros [_ ?]. congruence.
      * intros Hget'. destruct (Hval _ _ Hget') as [? ->]. split; [done|].
        rewrite decide_False by (intros [? _]; done). by rewrite Nat.add_0_r.
Qed.

Lemma foldl_scan_inv l : scan_inv userId (foldl (scan_message userId) JsMap.empty l) l.
Proof.
  induction l as [|m l IH] using rev_ind; [apply scan_inv_empty|].
  rewrite foldl_app. cbn. by apply scan_message_inv.
Qed.

Lemma touching_rows w :
  rows_touching userId w
  ≡ₚ filter (λ m, m_sender_id m = userId ∨ m_receiver_id m = userId) (messages w).
Proof.
  unfold rows_touching, order_by_created_at. rewrite Array_sort_Permutation.
  erewrite list_filter_iff; [done|]. intros m. cbn.
  rewrite orb_true_iff, !bool_decide_eq_true. done.
Qed.

Lemma elem_of_rows_touching w m peer :
  m ∈ rows_touching userId w ∧ peer_of userId m = peer
  ↔ m ∈ messages w ∧ between userId peer m.
Proof.
  rewrite touching_rows, list_elem_of_filter.
  unfold between, peer_of. case_bool_decide; intuition congruence.
Qed.

Lemma inbound_count_rows w rows peer :
  rows ≡ₚ filter (λ m, m_sender_id m = userId ∨ m_receiver_id m = userId) (messages w) →
  Z.of_nat (length (filter (λ m, peer_of userId m = peer ∧ m_sender_id m ≠ userId) rows))
  = inbound_count userId peer (messages w).
Proof.
  intros ->. unfold inbound_count. f_equal. f_equal.
  rewrite list_filter_filter. apply list_filter_iff. intros m.
  unfold between, peer_of. case_bool_decide; intuition congruence.
Qed.

Lemma overlay_profile_status_keeps pMap sMap uid c :
  c_user_id (overlay_profile_status pMap sMap uid c) = c_user_id c
  ∧ c_unread_count (overlay_profile_status pMap sMap uid c) = c_unread_count c
  ∧ c_last_message (overlay_profile_status pMap sMap uid c) = c_last_message c.
Proof.
  unfold overlay_profile_status.
  destruct (get uid pMap), (get uid sMap); done.
Qed.

Lemma values_no_keys {V} (m : JsMap.t V) : ¬ (0 < length (keys m))%nat → values m = [].
Proof. destruct m; [done|]. cbn. lia. Qed.

Lemma fmap_values_keys (m : JsMap.t ConversationPreview) :
  NoDup (keys m) → (∀ k c, get k m = Some c → c_user_id c = k) →
  c_user_id <$> values m = keys m.
Proof.
  unfold keys, values. induction m as [|[k v] m IH]; intros Hnd Hid; [done|].
  cbn in *. apply NoDup_cons in Hnd as [Hk Hnd]. f_equal.
  - apply Hid. by rewrite decide_True.
  - apply IH; [done|]. intros k' c Hget. apply Hid.
    rewrite decide_False; [done|]. intros ->. apply Hk.
    apply (elem_of_keys k' m). eauto.
Qed.

Lemma getConversations_shape w cs w' :
  getConversations userId w = (Returned cs, w') →
  cs = []
  ∨ ∃ pMap sMap,
      cs = values (forEach (overlay_profile_status pMap sMap)
                     (foldl (scan_message userId) JsMap.empty (rows_touching userId w))).
Proof.
  unfold rows_touching, getConversations, select_messages, select_profiles_in,
    select_user_status_in.
  mstep.
  destruct (hd Healthy (net w)); mstep; try (intros [= <- <-]; by left).
  case_bool_decide as Hkeys; mstep.
  - destruct (hd Healthy (tail (net w))); mstep;
      destruct (hd Healthy (tail (tail (net w)))); mstep;
      intros [= <- <-]; try (by left); try (right; eauto; fail).
  - intros [= <- <-]. left. by apply values_no_keys.
Qed.
End conversations.

(** ** Worlds without scripted failures *)

Lemma quiet_hd l : Forall (λ mode, mode = Healthy) l → hd Healthy l = Healthy.
Proof. by intros [|? ? -> ?]. Qed.

(** The modes of the first three requests of a quiet world. *)
Lemma quiet_script w :
  quiet w →
  hd Healthy (net w) = Healthy
  ∧ hd Healthy (tail (net w)) = Healthy
  ∧ hd Healthy (tail (tail (net w))) = Healthy.
Proof.
  unfold quiet. intros Hq. repeat split; auto using quiet_hd, Forall_tail.
Qed.

Lemma same_store_trans w1 w2 w3 : same_store w1 w2 → same_store w2 w3 → same_store w1 w3.
Proof.
  intros (? & ? & ? & ? & ?) (? & ? & ? & ? & ?).
  repeat split; try congruence. auto.
Qed.

Section conversations_run.
Context (userId : string).
Import JsMap JsMapFacts.

Lemma getConversations_quiet w :
  quiet w →
  ∃ pMap sMap w',
    getConversations userId w
      = (Returned (values (forEach (overlay_profile_status pMap sMap)
                             (foldl (scan_message userId) JsMap.empty
                                (rows_touching userId w)))), w')
    ∧ same_store w w'.
Proof.
  intros (H0 & H1 & H2)%quiet_script.
  unfold rows_touching, getConversations, select_messages, select_profiles_in,
    select_user_status_in.
  mstep. rewrite H0. mstep.
  case_bool_decide as Hkeys; mstep.
  - rewrite H1. mstep. rewrite H2. mstep.
    eexists _, _, _. split; [reflexivity|]. solve_same_store.
  - exists JsMap.empty, JsMap.empty. apply values_no_keys in Hkeys.
    assert (∀ m : JsMap.t ConversationPreview, values m = [] →
              values (forEach (overlay_profile_status JsMap.empty JsMap.empty) m) = [])
      as Hempty by (by intros [|? ?]).
    rewrite (Hempty _ Hkeys), Hkeys.
    eexists. split; [reflexivity|solve_same_store].
Qed.

Lemma scanned_previews w pMap sMap :
  let cs := values (forEach (overlay_profile_status pMap sMap)
                      (foldl (scan_message userId) JsMap.empty (rows_touching userId w))) in
  NoDup (c_user_id <$> cs)
  ∧ (∀ peer, peer ∈ c_user_id <$> cs ↔ ∃ m, m ∈ messages w ∧ between userId peer m)
  ∧ (∀ c, c ∈ cs →
       c_unread_count c = inbound_count userId (c_user_id c) (messages w)).
Proof.
  intros cs. subst cs.
  destruct (foldl_scan_inv userId (rows_touching userId w)) as (Hnd & Hdom & Hval).
  set (cm := foldl (scan_message userId) JsMap.empty (rows_touching userId w)) in *.
  assert (NoDup (keys (forEach (overlay_profile_status pMap sMap) cm))) as Hnd' by by rewrite keys_forEach.
  assert (∀ k c, get k (forEach (overlay_profile_status pMap sMap) cm) = Some c →
            ∃ c0, get k cm = Some c0 ∧ c = overlay_profile_status pMap sMap k c0) as Hget.
  { intros k c. rewrite get_forEach. destruct (get k cm); [|done].
    intros [= <-]. eauto. }
  assert (c_user_id <$> values (forEach (overlay_profile_status pMap sMap) cm) = keys cm) as Hids.
  { rewrite fmap_values_keys, keys_forEach; [done|done|].
    intros k c (c0 & Hc0 & ->)%Hget.
    destruct (overlay_profile_status_keeps pMap sMap k c0) as (-> & _).
    by apply Hval. }
  split; [by rewrite Hids|]. split.
  - intros peer. rewrite Hids, elem_of_keys, Hdom.
    split; intros (m & Hm); exists m; by apply elem_of_rows_touching.
  - intros c (k & Hk)%elem_of_values; [|done].
    apply Hget in Hk as (c0 & Hc0 & ->).
    destruct (overlay_profile_status_keeps pMap sMap k c0) as (-> & -> & _).
    destruct (Hval _ _ Hc0) as [-> ->].
    by apply inbound_count_rows, touching_rows.
Qed.
End conversations_run.

(** C5. In the result of [getConversations userId], the unread count of the
    preview for a peer is the number of stored messages between [userId] and
    that peer whose sender is not [userId]; the status of the messages plays
    no part.  When no failure occurs there is exactly one preview for every
    peer [userId] has exchanged a message with. *)
Theorem getConversations_unread_count userId w :
  (∀ cs w', getConversations userId w = (Returned cs, w') →
     ∀ c, c ∈ cs →
       c_unread_count c = inbound_count userId (c_user_id c) (messages w))
  ∧ (quiet w →
     ∃ cs w', getConversations userId w = (Returned cs, w')
       ∧ NoDup (c_user_id <$> cs)
       ∧ ∀ peer, peer ∈ c_user_id <$> cs
                 ↔ ∃ m, m ∈ messages w ∧ between userId peer m).
Proof.
  split.
  - intros cs w' [->|(pMap & sMap & ->)]%getConversations_shape c Hc.
    + by apply elem_of_nil in Hc.
    + by apply (scanned_previews userId w pMap sMap).
  - intros (pMap & sMap & w' & Hrun & _)%(getConversations_quiet userId).
    eexists _, _. split; [exact Hrun|].
    destruct (scanned_previews userId w pMap sMap) as (? & ? & _). done.
Qed.

(** ** Message history *)

Lemma StronglySorted_weaken {A} (R R' : A → A → Prop) l :
  (∀ a b, R a b → R' a b) → StronglySorted R l → StronglySorted R' l.
Proof.
  intros HR. induction 1 as [|x l Hs IH Hx]; constructor; [done|].
  eapply Forall_impl; [exact Hx|]. auto.
Qed.

Lemma StronglySorted_take {A} (R : A → A → Prop) n l :
  StronglySorted R l → StronglySorted R (take n l).
Proof.
  intros Hs. rewrite <- (take_drop n l) in Hs. by apply StronglySorted_app_1_l in Hs.
Qed.

Lemma StronglySorted_drop {A} (R : A → A → Prop) n l :
  StronglySorted R l → StronglySorted R (drop n l).
Proof.
  intros Hs. rewrite <- (take_drop n l) in Hs. by apply StronglySorted_app_1_r in Hs.
Qed.

Lemma NoDup_fmap_eq {A} (f : A → string) (l : list A) x y :
  NoDup (f <$> l) → x ∈ l → y ∈ l → f x = f y → x = y.
Proof.
  induction l as [|z l IH]; intros Hnd Hx Hy Heq; [by apply elem_of_nil in Hx|].
  rewrite fmap_cons in Hnd. apply NoDup_cons in Hnd as [Hz Hnd].
  apply elem_of_cons in Hx as [->|Hx], Hy as [->|Hy]; auto.
  - exfalso. apply Hz. rewrite Heq. by apply list_elem_of_fmap_2.
  - exfalso. apply Hz. rewrite <- Heq. by apply list_elem_of_fmap_2.
Qed.

Section history.
Context (userId1 userId2 : string).

Lemma holds_pair_filter m :
  holds (pair_filter userId1 userId2) m = true ↔ between userId1 userId2 m.
Proof.
  unfold between. cbn.
  rewrite orb_true_iff, !andb_true_iff, !bool_decide_eq_true. done.
Qed.

Lemma filter_pair_filter (l : list Message) :
  filter (λ m, holds (pair_filter userId1 userId2) m = true) l
  = filter (between userId1 userId2) l.
Proof. apply list_filter_iff, holds_pair_filter. Qed.

Lemma history_Permutation w :
  history userId1 userId2 w ≡ₚ filter (between userId1 userId2) (messages w).
Proof.
  unfold history, order_by_created_at.
  by rewrite Array_sort_Permutation, filter_pair_filter.
Qed.

Lemma history_sorted w : StronglySorted created_le (history userId1 userId2 w).
Proof.
  unfold history, order_by_created_at.
  eapply StronglySorted_weaken; [|apply Array_sort_sorted].
  - unfold cmp_le, created_le. intros a b. lia.
  - intros a b. lia.
  - intros a b c. lia.
Qed.

Lemma getMessages_quiet limit offset w :
  quiet w → (0 ≤ limit)%Z → (0 ≤ offset)%Z →
  ∃ profMap w',
    getMessages userId1 userId2 limit offset w
      = (Returned ((λ row, message_of_row row (ref_of profMap (m_sender_id row))
                                              (ref_of profMap (m_receiver_id row)))
                     <$> take (Z.to_nat limit)
                           (drop (Z.to_nat offset) (history userId1 userId2 w))), w')
    ∧ messages w' = messages w.
Proof.
  intros (H0 & H1 & _)%quiet_script Hlimit Hoffset.
  unfold history, pair_filter, getMessages, select_messages, select_profiles_in, range.
  mstep. rewrite H0. mstep.
  rewrite bool_decide_false by lia. mstep. rewrite H1. mstep.
  replace (offset + limit - 1 - offset + 1)%Z with limit by lia.
  eexists _, _. split; [reflexivity|done].
Qed.

Lemma getMessages_empty limit offset w :
  filter (between userId1 userId2) (messages w) = [] →
  ∃ w', getMessages userId1 userId2 limit offset w = (Returned [], w').
Proof.
  intros Hempty.
  unfold getMessages, select_messages, select_profiles_in, range.
  change (f_or _ _) with (pair_filter userId1 userId2).
  mstep.
  destruct (hd Healthy (net w)); mstep; [|by eexists..].
  rewrite filter_pair_filter, Hempty.
  unfold order_by_created_at. rewrite Array_sort_nil.
  case_bool_decide; mstep; [by eexists|].
  rewrite drop_nil, take_nil.
  destruct (hd Healthy (tail (net w))); mstep; by eexists.
Qed.
End history.

(** C3. [getMessages userId1 userId2 limit offset] returns the messages
    exchanged between the two users in ascending order of creation time,
    restricted to the positions [offset .. offset + limit - 1] of that
    order; on a pair without messages it returns the empty list, whatever
    the backend does. *)
Theorem getMessages_window userId1 userId2 limit offset w :
  (filter (between userId1 userId2) (messages w) = [] →
   ∃ w', getMessages userId1 userId2 limit offset w = (Returned [], w'))
  ∧ (quiet w → (0 ≤ limit)%Z → (0 ≤ offset)%Z →
     ∃ ms w' ordered,
       getMessages userId1 userId2 limit offset w = (Returned ms, w')
       ∧ ordered ≡ₚ filter (between userId1 userId2) (messages w)
       ∧ StronglySorted created_le ordered
       ∧ columns <$> ms
         = columns <$> take (Z.to_nat limit) (drop (Z.to_nat offset) ordered)
       ∧ StronglySorted created_le ms).
Proof.
  split; [apply getMessages_empty|].
  intros Hq Hlimit Hoffset.
  destruct (getMessages_quiet userId1 userId2 limit offset w Hq Hlimit Hoffset)
    as (profMap & w' & Hrun & _).
  eexists _, w', (history userId1 userId2 w). split; [exact Hrun|].
  split; [apply history_Permutation|]. split; [apply history_sorted|]. split.
  - rewrite <- list_fmap_compose. by apply list_fmap_ext.
  - eapply StronglySorted_fmap;
      [|apply StronglySorted_take, StronglySorted_drop, history_sorted].
    by intros x y.
Qed.

(** ** Sending, then fetching *)

(** A send that returns a message has stored exactly one new row, under a
    fresh identifier, and returns that row. *)
Lemma sendMessage_stored senderId receiverId content messageType replyTo w m w1 :
  sendMessage senderId receiverId content messageType replyTo w = (Returned (Some m), w1) →
  ∃ row,
    messages w1 = messages w ++ [row]
    ∧ ¬ (m_id row ∈ m_id <$> messages w)
    ∧ m_id m = m_id row ∧ m_created_at m = m_created_at row
    ∧ m_sender_id row = senderId ∧ m_receiver_id row = receiverId
    ∧ m_content row = content.
Proof.
  unfold sendMessage, insert_message, select_profile_single, broadcastPairMessage.
  mstep. case_script.
  all: intros Heq; try discriminate Heq; simplify_eq.
  all: eexists; (split; [reflexivity|]).
  all: split; [|done].
  all: match goal with
       | H : bool_decide _ = false |- _ => by apply bool_decide_eq_false in H
       end.
Qed.

(** Updates keep the identity of every stored message. *)
Lemma update_messages_identity p f w :
  identity <$> messages (update_messages p f w).2 = identity <$> messages w.
Proof.
  unfold update_messages. mstep.
  destruct (hd Healthy (net w)); mstep; [|done..].
  rewrite <- list_fmap_compose. apply list_fmap_ext. intros i m _. cbn.
  by destruct (holds f m).
Qed.

(** A timeout that fires keeps the identity of every stored message. *)
Lemma fire_identity h w :
  identity <$> messages (fire h w).2 = identity <$> messages w.
Proof.
  unfold fire. mstep.
  destruct (filter _ (timers w)) as [|t ?]; mstep; [done|].
  destruct (t_action t) as [messageId|userId targetUserId]; cbn [run_action].
  - unfold updateMessageStatus. mstep.
    set (w0 := with_timers _ _ w).
    pose proof (update_messages_identity
                  {| patch_status := delivered;
                     patch_read_at := if decide (delivered = read)
                                      then Some (client_now w) else None |}
                  (f_eq col_id messageId) w0) as Hid.
    destruct (update_messages _ _ w0) as [[res|e] w1]; cbn [snd] in Hid.
    + destruct (error res); mstep; exact Hid.
    + exact Hid.
  - unfold sendTypingIndicator, identifier. mstep.
    destruct (typingTimeouts _ !! _); reflexivity.
Qed.

(** C2, amended.  After [sendMessage A B content] has returned a message, a
    later [getMessages A B limit 0] (later: the store holds the same
    messages, possibly with other statuses) whose window covers the stored
    messages of the pair (by default: at most 50 of them) returns that
    message exactly once, and returns the messages in ascending order of
    creation time. *)
Theorem sendMessage_then_getMessages
    senderId receiverId content messageType replyTo w m w1 limit :
  NoDup (m_id <$> messages w) →
  sendMessage senderId receiverId content messageType replyTo w = (Returned (Some m), w1) →
  ∀ w2,
    identity <$> messages w2 = identity <$> messages w1 → quiet w2 →
    (length (filter (between senderId receiverId) (messages w2)) ≤ Z.to_nat limit)%nat →
    ∃ ms w3,
      getMessages senderId receiverId limit 0 w2 = (Returned ms, w3)
      ∧ length (filter (λ x, m_id x = m_id m) ms) = 1%nat
      ∧ StronglySorted created_le ms
      ∧ ∀ x, x ∈ ms → m_id x = m_id m →
          m_sender_id x = senderId ∧ m_receiver_id x = receiverId
          ∧ m_content x = content ∧ m_created_at x = m_created_at m.
Proof.
  intros Hpk (row & Hw1 & Hfresh & Hid & Hat & Hs & Hr & Hc)%sendMessage_stored
    w2 Hw2 Hq Hlen.
  assert (NoDup (m_id <$> messages w2)) as Hpk2.
  { replace (m_id <$> messages w2) with (m_id <$> messages w1).
    - rewrite Hw1, fmap_app. apply NoDup_app. split; [done|]. split.
      + intros i Hi ->%list_elem_of_singleton. done.
      + apply NoDup_singleton.
    - change m_id with ((λ i : string * string * string * string * Z, i.1.1.1.1) ∘ identity).
      by rewrite !list_fmap_compose, Hw2. }
  assert (∃ row2, row2 ∈ messages w2 ∧ identity row2 = identity row)
    as (row2 & Hrow & Hsame).
  { assert (identity row ∈ identity <$> messages w2) as Hin.
    { rewrite Hw2, Hw1, fmap_app. apply elem_of_app. right. by left. }
    apply list_elem_of_fmap in Hin as (row2 & ? & ?). eauto. }
  injection Hsame as Hid2 Hs2 Hr2 Hc2 Hat2.
  assert (between senderId receiverId row2) as Hpair by (left; split; congruence).
  assert (0 ≤ limit)%Z as Hlimit.
  { destruct (decide (0 ≤ limit)%Z) as [|Hneg]; [done|]. exfalso.
    assert (row2 ∈ filter (between senderId receiverId) (messages w2)) as Hin
      by by apply list_elem_of_filter.
    destruct (filter _ (messages w2)); [by apply elem_of_nil in Hin|].
    cbn in Hlen. lia. }
  destruct (getMessages_quiet senderId receiverId limit 0 w2 Hq Hlimit) as
    (profMap & w3 & Hrun & _); [done|].
  assert (history senderId receiverId w2
          ≡ₚ filter (between senderId receiverId) (messages w2)) as Hperm
    by apply history_Permutation.
  rewrite drop_0, take_ge in Hrun by (by rewrite Hperm).
  assert (row2 ∈ history senderId receiverId w2) as Hrow'.
  { rewrite Hperm. by apply list_elem_of_filter. }
  set (hydrate := λ r, message_of_row r (ref_of profMap (m_sender_id r))
                                        (ref_of profMap (m_receiver_id r))) in *.
  assert (m_id <$> (hydrate <$> history senderId receiverId w2)
          = m_id <$> history senderId receiverId w2) as Hids.
  { rewrite <- list_fmap_compose. by apply list_fmap_ext. }
  eexists _, w3. split; [exact Hrun|]. split; [|split].
  - apply NoDup_fmap_once.
    + rewrite Hids, Hperm. eapply sublist_NoDup; [exact Hpk2|].
      apply fmap_sublist, sublist_filter.
    + rewrite Hids, Hid, <- Hid2. by apply list_elem_of_fmap_2.
  - eapply StronglySorted_fmap; [|apply history_sorted]. by intros x y.
  - intros x (r & -> & Hin)%list_elem_of_fmap Hx. cbn in *.
    assert (r = row2) as ->.
    { eapply (NoDup_fmap_eq m_id); [exact Hpk2| |exact Hrow|congruence].
      rewrite Hperm in Hin. by apply list_elem_of_filter in Hin as [_ ?]. }
    repeat split; congruence.
Qed.

(** ** The merged conversation list *)

Section last_message.
Context (userId : string).
Import JsMap JsMapFacts.

Lemma scan_message_last cm l m :
  scan_inv userId cm l → scan_last userId cm l →
  scan_last userId (scan_message userId cm m) (l ++ [m]).
Proof.
  intros (_ & Hdom & _) Hlast. unfold scan_message.
  change (if bool_decide (m_sender_id m = userId) then m_receiver_id m else m_sender_id m)
    with (peer_of userId m).
  set (k0 := peer_of userId m).
  assert (∀ k c, get k cm = Some c →
            ∃ l1 m0 l2, l ++ [m] = l1 ++ m0 :: l2 ∧ peer_of userId m0 = k
              ∧ (∀ x, x ∈ l1 → peer_of userId x ≠ k)
              ∧ c_last_message c = Some (last_of m0)) as Hold.
  { intros k c (l1 & m0 & l2 & -> & ? & ? & ?)%Hlast.
    exists l1, m0, (l2 ++ [m]). by rewrite <- app_assoc. }
  destruct (get k0 cm) as [c0|] eqn:Hget.
  - case_bool_decide; [|exact Hold].
    intros k c. rewrite get_put. destruct (decide (k0 = k)) as [<-|]; [|apply Hold].
    intros [= <-]. apply (Hold _ _ Hget).
  - intros k c. rewrite get_put. destruct (decide (k0 = k)) as [<-|]; [|apply Hold].
    intros [= <-]. exists l, m, []. split; [done|]. split; [done|]. split; [|done].
    intros x Hx Hp.
    assert (is_Some (get k0 cm)) as [? ?] by (apply Hdom; eauto). congruence.
Qed.

Lemma foldl_scan_last l : scan_last userId (foldl (scan_message userId) JsMap.empty l) l.
Proof.
  induction l as [|m l IH] using rev_ind; [by intros k c|].
  rewrite foldl_app. cbn. by apply scan_message_last; [apply foldl_scan_inv|].
Qed.

Lemma rows_touching_sorted w : StronglySorted created_ge (rows_touching userId w).
Proof.
  unfold rows_touching, order_by_created_at.
  eapply StronglySorted_weaken; [|apply Array_sort_sorted].
  - unfold cmp_le, created_ge. intros a b. lia.
  - intros a b. lia.
  - intros a b c. lia.
Qed.
End last_message.


(** The last message of a preview built by the scan is a stored message of
    that pair, and no stored message of the pair is more recent. *)
Lemma scanned_last_message userId w pMap sMap c :
  c ∈ JsMap.values (JsMap.forEach (overlay_profile_status pMap sMap)
                     (foldl (scan_message userId) JsMap.empty (rows_touching userId w))) →
  ∃ m, m ∈ messages w ∧ between userId (c_user_id c) m
    ∧ c_last_message c = Some (last_of m)
    ∧ ∀ m', m' ∈ messages w → between userId (c_user_id c) m' →
        (m_created_at m' ≤ m_created_at m)%Z.
Proof.
  intros Hc.
  destruct (foldl_scan_inv userId (rows_touching userId w)) as (Hnd & Hdom & Hval).
  pose proof (foldl_scan_last userId (rows_touching userId w)) as Hlast.
  pose proof (rows_touching_sorted userId w) as Hsorted.
  set (cm := foldl (scan_message userId) JsMap.empty (rows_touching userId w)) in *.
  apply JsMapFacts.elem_of_values in Hc as (k & Hk); [|by rewrite JsMapFacts.keys_forEach].
  rewrite JsMapFacts.get_forEach in Hk.
  destruct (JsMap.get k cm) as [c0|] eqn:Hc0; [|done]. injection Hk as <-.
  destruct (overlay_profile_status_keeps pMap sMap k c0) as (-> & _ & ->).
  destruct (Hval _ _ Hc0) as [-> _].
  destruct (Hlast _ _ Hc0) as (l1 & m & l2 & Hrows & Hpeer & Hfirst & ->).
  assert (m ∈ rows_touching userId w) as Hm
    by (rewrite Hrows; apply elem_of_app; right; left).
  destruct (proj1 (elem_of_rows_touching userId w m k) (conj Hm Hpeer))
    as [Hstored Hpair].
  exists m. split; [done|]. split; [done|]. split; [done|].
  intros m' Hm' Hbetween.
  assert (m' ∈ rows_touching userId w ∧ peer_of userId m' = k) as [Hin Hp]
    by by apply elem_of_rows_touching.
  rewrite Hrows in Hin, Hsorted.
  apply elem_of_app in Hin as [Hin|Hin]; [by apply Hfirst in Hin|].
  apply elem_of_cons in Hin as [->|Hin]; [lia|].
  apply StronglySorted_app in Hsorted as (_ & _ & Hsorted).
  apply StronglySorted_cons in Hsorted as [Hall _].
  rewrite Forall_forall in Hall. by apply Hall.
Qed.

Section merge.
Context (localeCompare : string → string → Z).
Hypothesis Hconsistent : consistent localeCompare.
Import JsMap JsMapFacts.

Lemma compareConversations_le a b :
  (compareConversations localeCompare a b ≤ 0)%Z ↔ preview_le localeCompare a b.
Proof.
  unfold compareConversations, preview_le.
  destruct (c_is_online a), (c_is_online b); cbn; try case_bool_decide;
    intuition (try lia; try congruence).
Qed.

Lemma compareConversations_total a b :
  (0 < compareConversations localeCompare a b)%Z →
  (compareConversations localeCompare b a ≤ 0)%Z.
Proof.
  destruct Hconsistent as [Htotal _]. unfold compareConversations.
  destruct (c_is_online a), (c_is_online b); cbn; try lia;
    repeat case_bool_decide; try lia; apply Htotal.
Qed.

Lemma preview_le_trans a b c :
  preview_le localeCompare a b → preview_le localeCompare b c →
  preview_le localeCompare a c.
Proof.
  destruct Hconsistent as [_ Htrans]. unfold preview_le.
  intros [[Ha Hb]|[Hab Hkey1]] [[Hb' Hc]|[Hbc Hkey2]].
  - congruence.
  - left. split; congruence.
  - left. split; congruence.
  - right. split; [congruence|].
    destruct Hkey1 as [?|[? ?]], Hkey2 as [?|[? ?]]; try (left; lia).
    right. split; [lia|]. eauto.
Qed.

Lemma Array_sort_preview_le l :
  StronglySorted (preview_le localeCompare)
    (Array_sort (compareConversations localeCompare) l).
Proof.
  eapply StronglySorted_weaken; [|apply Array_sort_sorted].
  - intros a b. apply compareConversations_le.
  - apply compareConversations_total.
  - unfold cmp_le. intros a b c. rewrite !compareConversations_le.
    apply preview_le_trans.
Qed.

Lemma merge_inv_previews cs :
  merge_inv cs (foldl (λ mp c, put (c_user_id c) c mp) JsMap.empty cs).
Proof.
  assert (∀ l, merge_inv l (foldl (λ mp c, put (c_user_id c) c mp) JsMap.empty l)) as H;
    [|apply H].
  induction l as [|c l [Hnd Hent]] using rev_ind.
  - split; [constructor|done].
  - rewrite foldl_app. cbn. split; [by apply NoDup_keys_put|].
    intros k c'. rewrite get_put, fmap_app, elem_of_app.
    destruct (decide (c_user_id c = k)) as [<-|].
    + intros [= <-]. split; [done|]. left. right. by apply list_elem_of_singleton.
    + intros [? [?|?]]%Hent; auto.
Qed.

Lemma overlay_user_inv cs onlineMap byId u :
  merge_inv cs byId →
  merge_inv cs (overlay_user onlineMap byId u)
  ∧ ∀ k, k ∈ keys (overlay_user onlineMap byId u) ↔ k = d_user_id u ∨ k ∈ keys byId.
Proof.
  intros [Hnd Hent]. unfold overlay_user.
  destruct (get (d_user_id u) byId) as [c|] eqn:Hget.
  - split; [split|].
    + by apply NoDup_keys_put.
    + intros k c'. rewrite get_put.
      destruct (decide (d_user_id u = k)) as [<-|]; [|apply Hent].
      intros [= <-]. cbn. destruct (Hent _ _ Hget) as [? [?|?]]; auto.
    + intros k. apply elem_of_keys_put.
  - split; [split|].
    + by apply NoDup_keys_put.
    + intros k c'. rewrite get_put.
      destruct (decide (d_user_id u = k)) as [<-|]; [|apply Hent].
      intros [= <-]. cbn. auto.
    + intros k. apply elem_of_keys_put.
Qed.

Lemma foldl_overlay_user_inv cs onlineMap allUsers byId :
  merge_inv cs byId →
  merge_inv cs (foldl (overlay_user onlineMap) byId allUsers)
  ∧ ∀ k, k ∈ keys (foldl (overlay_user onlineMap) byId allUsers)
         ↔ k ∈ d_user_id <$> allUsers ∨ k ∈ keys byId.
Proof.
  revert byId. induction allUsers as [|u l IH]; intros byId Hinv; cbn.
  - split; [done|]. intros k. rewrite elem_of_nil. intuition.
  - destruct (overlay_user_inv cs onlineMap byId u Hinv) as [Hinv' Hkeys].
    destruct (IH _ Hinv') as [Hinv'' Hkeys'']. split; [done|].
    intros k. rewrite Hkeys'', Hkeys, elem_of_cons. intuition.
Qed.

(** The merge leaves the last message of a preview as it is and gives none
    to the users it adds. *)
Lemma overlay_user_last onlineMap byId u k :
  get k (overlay_user onlineMap byId u) ≫= c_last_message
  = get k byId ≫= c_last_message.
Proof.
  unfold overlay_user. destruct (get (d_user_id u) byId) as [c|] eqn:Hget;
    rewrite get_put; destruct (decide (d_user_id u = k)) as [<-|]; try done;
    by rewrite Hget.
Qed.

Lemma foldl_overlay_user_last onlineMap allUsers byId k :
  get k (foldl (overlay_user onlineMap) byId allUsers) ≫= c_last_message
  = get k byId ≫= c_last_message.
Proof.
  revert byId. induction allUsers as [|u l IH]; intros byId; cbn [foldl]; [done|].
  by rewrite IH, overlay_user_last.
Qed.

Lemma mergeConversations_last cs allUsers online c :
  c ∈ mergeConversations localeCompare cs allUsers online →
  c_last_message c
  = get (c_user_id c) (foldl (λ mp c, put (c_user_id c) c mp) JsMap.empty cs)
      ≫= c_last_message.
Proof.
  unfold mergeConversations. rewrite Array_sort_Permutation.
  set (onlineMap := foldl _ JsMap.empty online).
  intros Hc.
  destruct (foldl_overlay_user_inv cs onlineMap allUsers _ (merge_inv_previews cs))
    as [[Hnd Hent] _].
  apply elem_of_values in Hc as (k & Hk); [|done].
  destruct (Hent _ _ Hk) as [<- _].
  by rewrite <- (foldl_overlay_user_last onlineMap allUsers), Hk.
Qed.

(** The merge on arbitrary inputs. *)
Lemma mergeConversations_spec cs allUsers online :
  let merged := mergeConversations localeCompare cs allUsers online in
  NoDup (c_user_id <$> merged)
  ∧ (∀ k, k ∈ c_user_id <$> merged
          ↔ k ∈ d_user_id <$> allUsers ∨ k ∈ c_user_id <$> cs)
  ∧ (∀ c, c ∈ merged → c_user_id c ∉ c_user_id <$> cs →
       c_unread_count c = 0%Z ∧ c_last_message c = None)
  ∧ StronglySorted (preview_le localeCompare) merged.
Proof.
  intros merged. subst merged. unfold mergeConversations.
  set (onlineMap := foldl _ JsMap.empty online).
  set (byId0 := foldl _ JsMap.empty cs).
  assert (merge_inv cs byId0) as Hinv0 by apply merge_inv_previews.
  assert (∀ k, k ∈ keys byId0 ↔ k ∈ c_user_id <$> cs) as Hkeys0.
  { subst byId0. clear. induction cs as [|c l IH] using rev_ind.
    - done.
    - intros k. rewrite foldl_app. cbn [foldl].
      rewrite elem_of_keys_put, IH, fmap_app, elem_of_app.
      change (c_user_id <$> [c]) with [c_user_id c].
      rewrite list_elem_of_singleton.
      intuition. }
  destruct (foldl_overlay_user_inv cs onlineMap allUsers byId0 Hinv0)
    as [[Hnd Hent] Hkeys].
  set (byId := foldl (overlay_user onlineMap) byId0 allUsers) in *.
  assert (c_user_id <$> values byId = keys byId) as Hids.
  { apply fmap_values_keys; [done|]. intros k c Hget. by apply Hent. }
  split; [|split; [|split]].
  - rewrite Array_sort_Permutation. by rewrite Hids.
  - intros k. rewrite Array_sort_Permutation, Hids, Hkeys, Hkeys0. done.
  - intros c. rewrite Array_sort_Permutation.
    intros (k & Hget)%elem_of_values Hnew; [|done].
    destruct (Hent _ _ Hget) as [<- [?|?]]; done.
  - apply Array_sort_preview_le.
Qed.
End merge.

(** The most recent instant of a pair, from the store. *)
Lemma foldr_max_created (x : Message) (l : list Message) :
  let t := foldr (λ y t, Z.max (m_created_at y) t) (m_created_at x) l in
  (∃ y, y ∈ x :: l ∧ t = m_created_at y)
  ∧ ∀ y, y ∈ x :: l → (m_created_at y ≤ t)%Z.
Proof.
  induction l as [|z l [(y & Hy & IHy) IHle]]; cbn [foldr].
  - split; [exists x; split; [left|done]|].
    by intros y ->%list_elem_of_singleton.
  - split.
    + destruct (Z.max_spec (m_created_at z)
                  (foldr (λ y t, Z.max (m_created_at y) t) (m_created_at x) l))
        as [[_ ->]|[_ ->]].
      * exists y. split; [|done].
        apply elem_of_cons in Hy as [->|Hy]; [left|by do 2 right].
      * exists z. split; [right; left|done].
    + intros y' [->|[->|Hy']%elem_of_cons]%elem_of_cons.
      * etrans; [apply IHle; left|apply Z.le_max_r].
      * apply Z.le_max_l.
      * etrans; [apply IHle; by right|apply Z.le_max_r].
Qed.

Lemma most_recent_time_none userId peer rows :
  (∀ m, m ∈ rows → ¬ between userId peer m) →
  most_recent_time userId peer rows = 0%Z.
Proof.
  intros Hnone. unfold most_recent_time.
  destruct (filter (between userId peer) rows) as [|m ms] eqn:Hf; [done|].
  assert (m ∈ filter (between userId peer) rows) as [? ?]%list_elem_of_filter
    by (rewrite Hf; left).
  by destruct (Hnone m).
Qed.

Lemma most_recent_time_max userId peer rows m :
  m ∈ rows → between userId peer m →
  (∀ m', m' ∈ rows → between userId peer m' → (m_created_at m' ≤ m_created_at m)%Z) →
  most_recent_time userId peer rows = m_created_at m.
Proof.
  intros Hm Hpair Hmax. unfold most_recent_time.
  assert (m ∈ filter (between userId peer) rows) as Hin
    by by apply list_elem_of_filter.
  destruct (filter (between userId peer) rows) as [|x l] eqn:Hf;
    [by apply elem_of_nil in Hin|].
  destruct (foldr_max_created x l) as [(y & Hy & ->) Hle].
  rewrite <- Hf in Hy. apply list_elem_of_filter in Hy as [Hypair Hy].
  apply Z.le_antisymm; [by apply Hmax|by apply Hle].
Qed.

Lemma StronglySorted_weaken_in {A} (R R' : A → A → Prop) l :
  (∀ a b, a ∈ l → b ∈ l → R a b → R' a b) →
  StronglySorted R l → StronglySorted R' l.
Proof.
  intros HR Hs. induction Hs as [|x l Hs IH Hx]; constructor.
  - apply IH. intros a b Ha Hb. apply HR; by right.
  - rewrite Forall_forall in Hx |- *. intros b Hb.
    apply HR; [left|by right|by apply Hx].
Qed.

(** The order of the comparator is the order of the three keys, for
    previews whose last message carries the most recent instant. *)
Lemma preview_le_three_key localeCompare (recent : string → Z) a b :
  last_message_time a = recent (c_user_id a) →
  last_message_time b = recent (c_user_id b) →
  preview_le localeCompare a b → three_key_le localeCompare recent a b.
Proof. unfold preview_le, three_key_le. by intros <- <-. Qed.

(** The calls [initializeChat] makes before the merge. *)

Lemma initializeUserStatus_frame userId w :
  ∃ w', initializeUserStatus userId w = (Returned (), w') ∧ same_store w w'.
Proof.
  unfold initializeUserStatus, upsert_user_status. mstep. case_script.
  all: eexists; (split; [reflexivity|solve_same_store]).
Qed.

Lemma getAllUsersExcept_quiet userId w :
  quiet w →
  ∃ w',
    getAllUsersExcept userId w
      = (Returned (directory_user
                     <$> Array_sort (λ a b, collation w (p_name a) (p_name b))
                           (filter (λ p, p_user_id p ≠ userId) (profiles w))), w')
    ∧ same_store w w'.
Proof.
  intros (H0 & _)%quiet_script.
  unfold getAllUsersExcept, select_profiles_except. mstep. rewrite H0. mstep.
  eexists. split; [reflexivity|solve_same_store].
Qed.

Lemma getOnlineUsers_frame userId w :
  ∃ online w', getOnlineUsers userId w = (Returned online, w') ∧ same_store w w'.
Proof.
  unfold getOnlineUsers, select_user_status_online, select_profiles_in.
  mstep. case_script.
  all: eexists _, _; (split; [reflexivity|solve_same_store]).
Qed.

(** C4. In a world without failures and with a consistent comparison of
    names, the list [initializeChat] builds contains every profile other
    than the current user exactly once; a user without message history has
    unread count zero and no last message; and the list is ordered by the
    three keys: online first, then the user with whom the most recent
    stored message was exchanged later first (a user without message
    counting as instant 0), then name ascending. *)
Theorem initializeChat_directory userId w :
  quiet w → consistent (locale w) →
  ∃ merged w',
    initializeChat userId w = (Returned merged, w')
    ∧ (∀ p, p ∈ profiles w → p_user_id p ≠ userId →
         length (filter (λ c, c_user_id c = p_user_id p) merged) = 1%nat)
    ∧ (∀ p c, p ∈ profiles w → p_user_id p ≠ userId →
         c ∈ merged → c_user_id c = p_user_id p →
         (¬ ∃ m, m ∈ messages w ∧ between userId (p_user_id p) m) →
         c_unread_count c = 0%Z ∧ c_last_message c = None)
    ∧ StronglySorted
        (three_key_le (locale w)
           (λ peer, most_recent_time userId peer (messages w)))
        merged.
Proof.
  intros Hq Hlocale.
  destruct (initializeUserStatus_frame userId w) as (w1 & Hrun1 & Hs1).
  assert (quiet w1) as Hq1 by by apply Hs1.
  destruct (getConversations_quiet userId w1 Hq1) as (pMap & sMap & w2 & Hrun2 & Hs2).
  assert (quiet w2) as Hq2 by by apply Hs2.
  destruct (getAllUsersExcept_quiet userId w2 Hq2) as (w3 & Hrun3 & Hs3).
  destruct (getOnlineUsers_frame userId w3) as (online & w4 & Hrun4 & Hs4).
  pose proof (same_store_trans _ _ _ Hs1 Hs2) as Hs12.
  pose proof (same_store_trans _ _ _ Hs12 (same_store_trans _ _ _ Hs3 Hs4))
    as (_ & _ & _ & Hloc & _).
  destruct Hs12 as (Hmsgs & Hprof & _).
  destruct Hs1 as (Hmsgs1 & _).
  pose proof (scanned_last_message userId w1 pMap sMap) as Hlast.
  set (cs := JsMap.values _) in Hrun2, Hlast.
  set (allUsers := directory_user <$> _) in Hrun3.
  exists (mergeConversations (locale w) cs allUsers online), w4.
  destruct (mergeConversations_spec (locale w) Hlocale cs allUsers online)
    as (Hnd & Hmem & Hfresh & Hsorted).
  destruct (scanned_previews userId w1 pMap sMap) as (_ & Hpeers & _).
  fold cs in Hpeers. rewrite Hmsgs1 in Hlast, Hpeers.
  assert (∀ p, p ∈ profiles w → p_user_id p ≠ userId →
            p_user_id p ∈ d_user_id <$> allUsers) as Hdir.
  { intros p Hp Hne. subst allUsers. rewrite <- list_fmap_compose.
    apply list_elem_of_fmap. exists p. split; [done|].
    rewrite Array_sort_Permutation. apply list_elem_of_filter.
    split; [done|]. by rewrite Hprof. }
  assert (∀ c, c ∈ mergeConversations (locale w) cs allUsers online →
            last_message_time c = most_recent_time userId (c_user_id c) (messages w))
    as Hrecent.
  { intros c Hc. unfold last_message_time.
    rewrite (mergeConversations_last (locale w) cs allUsers online c Hc).
    destruct (JsMap.get (c_user_id c) _) as [c0|] eqn:Hget; cbn.
    - apply get_foldl_put in Hget as (c1 & Hc1 & Hid & ->).
      destruct (Hlast c1 Hc1) as (m & Hm & Hpair & -> & Hmax).
      rewrite Hid in Hpair, Hmax. cbn. symmetry.
      by apply most_recent_time_max.
    - symmetry. apply most_recent_time_none. intros m Hm Hpair.
      assert (c_user_id c ∈ c_user_id <$> cs) as (c1 & Hid & Hc1)%list_elem_of_fmap
        by (apply Hpeers; by exists m).
      destruct (is_Some_get_foldl_put c_user_id (λ c, c) cs c1 Hc1) as [c2 Hc2].
      rewrite <- Hid in Hc2. congruence. }
  split; [|split; [|split]].
  - unfold initializeChat, mbind, M_bind, Promise_all.
    rewrite Hrun1, Hrun2, Hrun3, Hrun4. unfold gets, mret, M_ret. by rewrite Hloc.
  - intros p Hp Hne. apply NoDup_fmap_once; [done|]. apply Hmem. left. auto.
  - intros p c Hp Hne Hc Hid Hnone. apply Hfresh; [done|].
    rewrite Hid. intros (m & Hm & Hbetween)%Hpeers. apply Hnone.
    by exists m.
  - eapply StronglySorted_weaken_in; [|exact Hsorted].
    intros a b Ha Hb. apply preview_le_three_key; by apply Hrecent.
Qed.

(** ** Failure policy *)

(** Where a request threw, when no, one, two or three answers of the
    script were consumed. *)
Lemma throw_in_consumed (l : list NetMode) :
  (Throw ∈ take (length l - length l) l → False)
  ∧ (Throw ∈ take (length l - length (tail l)) l → hd Healthy l = Throw)
  ∧ (Throw ∈ take (length l - length (tail (tail l))) l →
     hd Healthy l = Throw ∨ hd Healthy (tail l) = Throw)
  ∧ (Throw ∈ take (length l - length (tail (tail (tail l)))) l →
     hd Healthy l = Throw ∨ hd Healthy (tail l) = Throw
     ∨ hd Healthy (tail (tail l)) = Throw).
Proof.
  destruct l as [|a [|b [|c l]]]; cbn [tail hd length]; repeat split;
    match goal with
    | |- Throw ∈ take ?n _ → _ =>
        first [ replace n with 0%nat by lia | replace n with 1%nat by lia
              | replace n with 2%nat by lia | replace n with 3%nat by lia ]
    end;
    cbn [take]; rewrite ?elem_of_cons, ?elem_of_nil; intuition congruence.
Qed.

(** C1, as stated, fails: when the insert throws, [sendMessage] does not
    raise; it returns [null]. *)
Lemma sendMessage_swallows_failure :
  hd Healthy (net throwing_world) = Throw
  ∧ (sendMessage alice bob "hi" text None throwing_world).1 = Returned None.
Proof. split; reflexivity. Qed.

(** C1, amended.  Every operation of the message store accessor returns to
    its caller in every world.  For [getMessages], [getConversations],
    [getOnlineUsers], [getAllUsersExcept] and [markMessagesAsRead]: when any
    request the operation issues throws, the failure is caught and logged
    and the caller receives the empty list (nothing, for
    [markMessagesAsRead]); a first request answered with an error gives the
    empty result as well.  [sendMessage] is no exception: a failing insert
    (thrown or answered with an error) gives [null]; [null] always comes
    with one logged error and a returned message with none.  A failure
    thrown by a later request is not reported to the caller: when the
    insert of a row with a fresh identifier is served, the lookup of the
    sender's profile throws and the broadcast that follows is served,
    nothing is logged and the stored message is still returned. *)
Theorem accessor_failure_policy :
  (∀ userId1 userId2 limit offset,
     fails_softly (getMessages userId1 userId2 limit offset) []
       "Error fetching messages:")
  ∧ (∀ userId,
       fails_softly (getConversations userId) [] "Error fetching conversations:")
  ∧ (∀ currentUserId,
       fails_softly (getOnlineUsers currentUserId) [] "Error fetching online users:")
  ∧ (∀ currentUserId,
       fails_softly (getAllUsersExcept currentUserId) [] "Error fetching all users:")
  ∧ (∀ senderId receiverId,
       fails_softly (markMessagesAsRead senderId receiverId) ()
         "Error marking messages as read:")
  ∧ (∀ senderId receiverId content messageType replyTo,
       sends_softly (sendMessage senderId receiverId content messageType replyTo)
         "Error sending message:")
  ∧ (∀ senderId receiverId content messageType replyTo w,
       ¬ (uuids w (uuid_next w) ∈ m_id <$> messages w) →
       hd Healthy (net w) = Healthy →
       hd Healthy (tail (net w)) = Throw →
       hd Healthy (tail (tail (tail (net w)))) = Healthy →
       ∃ m w',
         sendMessage senderId receiverId content messageType replyTo w
           = (Returned (Some m), w')
         ∧ console w' = console w
         ∧ messages w' = messages w ++ [m]).
Proof.
  unfold fails_softly, sends_softly.
  split; [|split; [|split; [|split; [|split; [|split]]]]]; intros.
  - unfold getMessages, select_messages, select_profiles_in, range.
    mstep. case_script;
      solve_fails_softly throw_in_consumed.
  - unfold getConversations, select_messages, select_profiles_in,
      select_user_status_in.
    mstep. case_script;
      solve_fails_softly throw_in_consumed.
  - unfold getOnlineUsers, select_user_status_online, select_profiles_in.
    mstep. case_script;
      solve_fails_softly throw_in_consumed.
  - unfold getAllUsersExcept, select_profiles_except.
    mstep. case_script;
      solve_fails_softly throw_in_consumed.
  - unfold markMessagesAsRead, update_messages.
    mstep. case_script;
      solve_fails_softly throw_in_consumed.
  - unfold sendMessage, insert_message, select_profile_single, broadcastPairMessage.
    mstep. case_script; solve_sends_softly.
  - unfold sendMessage, insert_message, select_profile_single, broadcastPairMessage.
    mstep. rewrite H0. mstep. rewrite (bool_decide_false _ H). mstep.
    rewrite H1. mstep.
    destruct (hd Healthy (tail (tail (net w)))); mstep;
      destruct (channels w !! buildPairRoom senderId receiverId); mstep;
      rewrite H2; mstep; by eexists _, _.
Qed.

(** ** The scenario *)

(** Code-unit order on strings is a consistent comparison. *)
Lemma ascii_compare_refl x : Ascii.compare x x = Eq.
Proof. unfold Ascii.compare. apply N.compare_refl. Qed.

Lemma ascii_compare_lt_trans x y z :
  Ascii.compare x y = Lt → Ascii.compare y z = Lt → Ascii.compare x z = Lt.
Proof. unfold Ascii.compare. rewrite !N.compare_lt_iff. lia. Qed.

Lemma string_compare_refl a : String.compare a a = Eq.
Proof. induction a as [|x a IH]; cbn; [done|]. by rewrite ascii_compare_refl. Qed.

Lemma string_compare_lt_trans a b c :
  String.compare a b = Lt → String.compare b c = Lt → String.compare a c = Lt.
Proof.
  revert b c. induction a as [|x a IH]; intros [|y b] [|z c]; cbn; try done.
  destruct (Ascii.compare x y) eqn:Hxy; try done;
    destruct (Ascii.compare y z) eqn:Hyz; try done; intros Hab Hbc.
  - apply Ascii.compare_eq_iff in Hxy as ->. apply Ascii.compare_eq_iff in Hyz as ->.
    rewrite ascii_compare_refl. eauto.
  - apply Ascii.compare_eq_iff in Hxy as ->. by rewrite Hyz.
  - apply Ascii.compare_eq_iff in Hyz as <-. by rewrite Hxy.
  - by rewrite (ascii_compare_lt_trans x y z).
Qed.

Lemma defaultCompare_consistent : consistent defaultCompare.
Proof.
  unfold defaultCompare. split.
  - intros a b. rewrite (String.compare_antisym b a).
    destruct (String.compare a b); cbn; lia.
  - intros a b c.
    destruct (String.compare a b) eqn:Hab; [| |lia];
      destruct (String.compare b c) eqn:Hbc; try lia; intros _ _.
    + apply String.compare_eq_iff in Hab as ->. rewrite Hbc. lia.
    + apply String.compare_eq_iff in Hab as ->. rewrite Hbc. lia.
    + apply String.compare_eq_iff in Hbc as <-. rewrite Hab. lia.
    + rewrite (string_compare_lt_trans a b c); [lia|done|done].
Qed.

(** C2, as stated, fails beyond the default page: with fifty messages
    stored for the pair, a message that was just sent is not among the
    messages a subsequent [getMessages alice bob] returns. *)
Lemma fifty_first_message_not_fetched :
  match sendMessage alice bob "late" text None busy_world with
  | (Returned (Some m), w1) =>
      match getMessages alice bob 50 0 w1 with
      | (Returned ms, _) => bool_decide (m_id m ∈ m_id <$> ms)
      | _ => true
      end
  | _ => true
  end = false.
Proof. vm_compute. reflexivity. Qed.

(** The theorems above, at the worlds of the scenario. *)

Lemma accessor_failure_policy_witness :
  (∃ w',
     sendMessage alice bob "hi" text None throwing_world = (Returned None, w')
     ∧ console w' = console throwing_world ++ ["Error sending message:"])
  ∧ (∃ w',
       getMessages alice bob 50%Z 0%Z half_served_world = (Returned [], w')
       ∧ console w' = console half_served_world ++ ["Error fetching messages:"])
  ∧ (∃ m w',
       sendMessage alice bob "hi" text None half_served_world
         = (Returned (Some m), w')
       ∧ console w' = console half_served_world
       ∧ messages w' = messages half_served_world ++ [m]).
Proof.
  destruct accessor_failure_policy as (Hget & _ & _ & _ & _ & Hsend & Hsilent).
  split; [|split].
  - destruct (Hsend alice bob "hi" text None throwing_world)
      as (r & w' & Hrun & Hfail & Hnone & _).
    assert (r = None) as -> by (apply Hfail; vm_compute; discriminate).
    exists w'. split; [exact Hrun|]. apply Hnone. reflexivity.
  - destruct (Hget alice bob 50%Z 0%Z half_served_world) as (a & w' & Hrun & Hthrow & _).
    destruct Hthrow as [-> Hlog].
    + assert (w' = (getMessages alice bob 50%Z 0%Z half_served_world).2) as ->
        by (by rewrite Hrun).
      vm_compute. repeat constructor.
    + exists w'. split; [exact Hrun | exact Hlog].
  - apply (Hsilent alice bob "hi" text None half_served_world).
    + apply (bool_decide_unpack _). vm_compute. exact I.
    + reflexivity.
    + reflexivity.
    + reflexivity.
Defined.

Lemma sendMessage_then_getMessages_witness :
  ∃ ms w3,
    getMessages alice bob 50 0 promoted_world = (Returned ms, w3)
    ∧ length (filter (λ x, m_id x = m_id sent_message) ms) = 1%nat
    ∧ StronglySorted created_le ms
    ∧ ∀ x, x ∈ ms → m_id x = m_id sent_message →
        m_sender_id x = alice ∧ m_receiver_id x = bob
        ∧ m_content x = "yo" ∧ m_created_at x = m_created_at sent_message.
Proof.
  apply (sendMessage_then_getMessages alice bob "yo" text None quiet_world
           sent_message sent_world 50).
  - apply (bool_decide_unpack _). vm_compute. exact I.
  - vm_compute. reflexivity.
  - vm_compute. reflexivity.
  - constructor.
  - vm_compute. lia.
Defined.

Lemma getMessages_window_witness :
  ∃ ms w' ordered,
    getMessages alice bob 2 1 quiet_world = (Returned ms, w')
    ∧ ordered ≡ₚ filter (between alice bob) (messages quiet_world)
    ∧ StronglySorted created_le ordered
    ∧ columns <$> ms = columns <$> take (Z.to_nat 2) (drop (Z.to_nat 1) ordered)
    ∧ StronglySorted created_le ms.
Proof.
  apply (proj2 (getMessages_window alice bob 2 1 quiet_world)).
  - constructor.
  - lia.
  - lia.
Defined.

Lemma initializeChat_directory_witness :
  ∃ merged w',
    initializeChat alice quiet_world = (Returned merged, w')
    ∧ (∀ p, p ∈ profiles quiet_world → p_user_id p ≠ alice →
         length (filter (λ c, c_user_id c = p_user_id p) merged) = 1%nat)
    ∧ (∀ p c, p ∈ profiles quiet_world → p_user_id p ≠ alice →
         c ∈ merged → c_user_id c = p_user_id p →
         (¬ ∃ m, m ∈ messages quiet_world ∧ between alice (p_user_id p) m) →
         c_unread_count c = 0%Z ∧ c_last_message c = None)
    ∧ StronglySorted
        (three_key_le (locale quiet_world)
           (λ peer, most_recent_time alice peer (messages quiet_world)))
        merged.
Proof.
  apply (initializeChat_directory alice quiet_world).
  - constructor.
  - exact defaultCompare_consistent.
Defined.

Lemma getConversations_unread_count_witness :
  ∃ cs w',
    getConversations alice quiet_world = (Returned cs, w')
    ∧ NoDup (c_user_id <$> cs)
    ∧ ∀ peer, peer ∈ c_user_id <$> cs
              ↔ ∃ m, m ∈ messages quiet_world ∧ between alice peer m.
Proof.
  apply (proj2 (getConversations_unread_count alice quiet_world)).
  constructor.
Defined.

Lemma subscribeToPairBroadcast_filters_witness :
  ∃ w1,
    subscribeToPairBroadcast alice bob 7 quiet_world
      = (Returned (buildPairRoom alice bob), w1)
    ∧ ∀ w' payload,
        channels w' !! buildPairRoom alice bob = channels w1 !! buildPairRoom alice bob →
        ∃ w2,
          deliver (buildPairRoom alice bob) payload w' = (Returned (), w2)
          ∧ (between alice bob payload → calls w2 = calls w' ++ [(7%nat, payload)])
          ∧ (¬ between alice bob payload → calls w2 = calls w').
Proof.
  apply (subscribeToPairBroadcast_filters alice bob 7 quiet_world).
  reflexivity.
Defined.

Lemma markMessagesAsRead_changes_nothing_witness :
  ∃ w',
    markMessagesAsRead bob alice quiet_world = (Returned (), w')
    ∧ messages w' = messages quiet_world
    ∧ stored "m2" bob alice "hi" sent 20 ∈ messages w'
    ∧ m_status (stored "m2" bob alice "hi" sent 20) ≠ read
    ∧ console w' = console quiet_world.
Proof.
  destruct (markMessagesAsRead_changes_nothing bob alice quiet_world)
    as (w' & Hrun & Hsame & _ & Hkept & Hquiet & _).
  exists w'. split; [exact Hrun|]. split; [exact Hsame|].
  destruct (Hkept (stored "m2" bob alice "hi" sent 20)) as [Hin Hunread].
  - vm_compute. repeat constructor.
  - split; [reflexivity|]. split; [reflexivity | discriminate].
  - split; [exact Hin|]. split; [exact Hunread|]. apply Hquiet. reflexivity.
Defined.

Lemma sendMessage_insert_failure_witness :
  ∃ w',
    sendMessage alice bob "hi" text None throwing_world = (Returned None, w')
    ∧ messages w' = messages throwing_world
    ∧ outbox w' = outbox throwing_world
                  ++ [(buildPairRoom alice bob, fabricated throwing_world alice bob "hi")]
    ∧ m_status (fabricated throwing_world alice bob "hi") = sent
    ∧ is_Some (channels w' !! buildPairRoom alice bob).
Proof.
  apply (proj1 (sendMessage_insert_failure alice bob "hi" text None throwing_world));
    reflexivity.
Defined.

(** * Further properties *)

(** ** Sending: what is stored, scheduled and broadcast *)

Lemma quiet_script5 w :
  quiet w →
  hd Healthy (net w) = Healthy
  ∧ hd Healthy (tail (net w)) = Healthy
  ∧ hd Healthy (tail (tail (net w))) = Healthy
  ∧ hd Healthy (tail (tail (tail (net w)))) = Healthy
  ∧ hd Healthy (tail (tail (tail (tail (net w))))) = Healthy.
Proof.
  unfold quiet. intros Hq. repeat split; auto 10 using quiet_hd, Forall_tail.
Qed.

(** X1. Whatever [messageType] and [replyTo] a caller passes, a send that
    returns a message has stored one new row whose type is [text], whose
    [reply_to] is empty and whose remaining columns are the defaults of the
    schema; the returned message carries exactly these columns. *)
Theorem sendMessage_stores_defaults
    senderId receiverId content messageType replyTo w m w1 :
  sendMessage senderId receiverId content messageType replyTo w = (Returned (Some m), w1) →
  columns m = inserted_row w senderId receiverId content
  ∧ messages w1 = messages w ++ [inserted_row w senderId receiverId content]
  ∧ m_message_type m = text ∧ m_reply_to m = None.
Proof.
  unfold sendMessage, insert_message, select_profile_single, broadcastPairMessage.
  mstep. case_script.
  all: intros Heq; try discriminate Heq; simplify_eq.
  all: repeat split.
Qed.

(** X2. In a world without failures and with a fresh identifier, a send
    returns the stored row with the users attached, stores exactly that one
    row, schedules exactly one promotion to [delivered] after 800 ms, hands
    the message once to the channel of the pair and logs nothing. *)
Theorem sendMessage_quiet_effects senderId receiverId content messageType replyTo w :
  quiet w →
  ¬ (uuids w (uuid_next w) ∈ m_id <$> messages w) →
  ∃ m w1,
    sendMessage senderId receiverId content messageType replyTo w = (Returned (Some m), w1)
    ∧ m = message_of_row (inserted_row w senderId receiverId content)
            (single_profile_ref w senderId) (single_profile_ref w receiverId)
    ∧ messages w1 = messages w ++ [inserted_row w senderId receiverId content]
    ∧ timers w1 = timers w ++ [promotion_timer w (m_id m)]
    ∧ outbox w1 = outbox w ++ [(buildPairRoom senderId receiverId, m)]
    ∧ console w1 = console w
    ∧ quiet w1.
Proof.
  intros Hq Hfresh. pose proof Hq as (H0 & H1 & H2 & H3 & _)%quiet_script5.
  unfold sendMessage, insert_message, select_profile_single, broadcastPairMessage,
    single_profile_ref.
  mstep. rewrite H0. mstep. rewrite (bool_decide_false _ Hfresh). mstep.
  rewrite H1. mstep. rewrite H2. mstep. cbn [m_sender_id m_receiver_id].
  destruct (filter (λ p, p_user_id p = senderId) (profiles w)) as [|? [|? ?]];
    destruct (filter (λ p, p_user_id p = receiverId) (profiles w)) as [|? [|? ?]];
    mstep;
    destruct (channels w !! buildPairRoom senderId receiverId); mstep;
    rewrite H3; mstep;
    eexists _, _; (split; [reflexivity|]);
    repeat split; unfold quiet in *; cbn [net with_outbox with_net with_channels
      with_timers with_messages with_uuid_next];
    auto 10 using Forall_tail.
Qed.

Lemma filter_none {A} (P : A → Prop) `{!∀ x, Decision (P x)} (l : list A) :
  Forall (λ x, ¬ P x) l → filter P l = [].
Proof.
  induction 1 as [|x l Hx _ IH]; [done|]. by rewrite filter_cons_False.
Qed.

Lemma filter_all {A} (P : A → Prop) `{!∀ x, Decision (P x)} (l : list A) :
  Forall P l → filter P l = l.
Proof.
  induction 1 as [|x l Hx _ IH]; [done|]. by rewrite filter_cons_True, IH.
Qed.

(** The run of [updateMessageStatus]: one request, no row changed. *)
Lemma updateMessageStatus_run messageId status w :
  ∃ w',
    updateMessageStatus messageId status w = (Returned (), w')
    ∧ messages w' = messages w
    ∧ net w' = tail (net w)
    ∧ timers w' = timers w
    ∧ (hd Healthy (net w) = Healthy → console w' = console w)
    ∧ (hd Healthy (net w) ≠ Healthy →
       console w' = console w ++ ["Error updating message status:"]).
Proof.
  pose proof (update_messages_denied
                {| patch_status := status;
                   patch_read_at := if decide (status = read)
                                    then Some (client_now w) else None |}
                (f_eq col_id messageId) w) as Hkept.
  revert Hkept. unfold updateMessageStatus, update_messages. mstep.
  destruct (hd Healthy (net w)) eqn:Hmode; mstep; intros Hkept;
    eexists; (split; [reflexivity|]);
    cbn [messages console net timers with_messages with_net with_console];
    (split; [exact Hkept|]); (split; [done|]); (split; [done|]);
    split; intros Hserved; try done; try discriminate Hserved.
Qed.

(** The first pending timeout with handle [h] fires: it leaves the queue
    and the status update it carries is issued. *)
Lemma fire_promotion w ts rest h messageId :
  timers w = ts ++ {| t_handle := h; t_delay := 800;
                      t_action := BumpDelivered messageId |} :: rest →
  Forall (λ t, t_handle t ≠ h) ts →
  ∃ w2,
    fire h w = (Returned (), w2)
    ∧ updateMessageStatus messageId delivered
        (with_timers (filter (λ t, t_handle t ≠ h)) id w) = (Returned (), w2).
Proof.
  intros Hts Hfresh.
  destruct (updateMessageStatus_run messageId delivered
              (with_timers (filter (λ t, t_handle t ≠ h)) id w)) as (w2 & Hrun & _).
  exists w2. split; [|exact Hrun].
  unfold fire, run_action. mstep. rewrite Hts, filter_app.
  rewrite (filter_none (λ t, t_handle t = h) ts) by exact Hfresh.
  rewrite filter_cons, decide_True by reflexivity. cbn [app t_action]. mstep.
  by rewrite Hrun.
Qed.

(** A send that returns a message has stored its row and has queued the
    promotion of that message behind the pending timeouts: once, or twice
    when the first broadcast threw. *)
Lemma sendMessage_scheduled senderId receiverId content messageType replyTo w m w1 :
  sendMessage senderId receiverId content messageType replyTo w = (Returned (Some m), w1) →
  m_id m = uuids w (uuid_next w)
  ∧ messages w1 = messages w ++ [inserted_row w senderId receiverId content]
  ∧ ∃ again, timers w1 = timers w ++ promotion_timer w (m_id m) :: again.
Proof.
  unfold sendMessage, insert_message, select_profile_single, broadcastPairMessage.
  mstep. case_script.
  all: intros Heq; try discriminate Heq; simplify_eq.
  all: split; [done|]; split; [done|].
  all: cbn; rewrite <- ?app_assoc; by eexists.
Qed.

(** X3. [updateMessageStatus] never raises and changes no stored message:
    it issues one update of [public.messages], which the policies of the
    schema deny on every row.  A served update logs nothing; a failure of
    either kind is logged. *)
Theorem updateMessageStatus_changes_nothing messageId status w :
  ∃ w',
    updateMessageStatus messageId status w = (Returned (), w')
    ∧ messages w' = messages w
    ∧ net w' = tail (net w)
    ∧ (hd Healthy (net w) = Healthy → console w' = console w)
    ∧ (hd Healthy (net w) ≠ Healthy →
       console w' = console w ++ ["Error updating message status:"]).
Proof.
  destruct (updateMessageStatus_run messageId status w)
    as (w' & Hrun & Hms & Hnet & _ & Hserved & Hfailed).
  by exists w'.
Qed.

(** X4. The promotion to [delivered] that a send schedules does not take
    place: when the timeout of a message just sent fires, the status update
    is issued and nothing is raised, the store holds the same messages as
    before, and the row of the message still has status [sent]. *)
Theorem promotion_changes_nothing
    senderId receiverId content messageType replyTo w m w1 :
  Forall (λ t, t_handle t ≠ timer_next w) (timers w) →
  sendMessage senderId receiverId content messageType replyTo w = (Returned (Some m), w1) →
  ∃ w2,
    fire (timer_next w) w1 = (Returned (), w2)
    ∧ net w2 = tail (net w1)
    ∧ messages w2 = messages w1
    ∧ ∃ x, x ∈ messages w2 ∧ m_id x = m_id m ∧ m_status x = sent.
Proof.
  intros Hfresh (Hid & Hrows & again & Hts)%sendMessage_scheduled.
  destruct (fire_promotion w1 (timers w) again (timer_next w) (m_id m) Hts Hfresh)
    as (w2 & Hfire & Hupdate).
  destruct (updateMessageStatus_run (m_id m) delivered
              (with_timers (filter (λ t, t_handle t ≠ timer_next w)) id w1))
    as (w2' & Hrun & Hms & Hnet & _).
  rewrite Hupdate in Hrun. injection Hrun as <-.
  exists w2. split; [exact Hfire|]. split; [exact Hnet|]. split; [exact Hms|].
  exists (inserted_row w senderId receiverId content).
  split; [|by split].
  rewrite Hms. cbn [messages with_timers]. rewrite Hrows.
  apply elem_of_app. right. by left.
Qed.

(** ** Marking as read, again *)

(** The run of [markMessagesAsRead]: one request, no row changed. *)
Lemma markMessagesAsRead_run senderId receiverId w :
  ∃ w',
    markMessagesAsRead senderId receiverId w = (Returned (), w')
    ∧ messages w' = messages w
    ∧ net w' = tail (net w)
    ∧ profiles w' = profiles w ∧ user_status w' = user_status w.
Proof.
  pose proof (update_messages_denied
                {| patch_status := read; patch_read_at := Some (client_now w) |}
                (f_and (f_and (f_eq col_sender_id senderId) (f_eq col_receiver_id receiverId))
                       (f_neq col_status "read")) w) as Hkept.
  revert Hkept. unfold markMessagesAsRead, update_messages. mstep.
  destruct (hd Healthy (net w)); mstep; intros Hkept;
    eexists; (split; [reflexivity|]); (split; [exact Hkept|]); done.
Qed.

(** X6. The count of [getConversations] does not look at the status of a
    message: after [markMessagesAsRead peer userId], the preview of [peer]
    still reports every message [peer] ever sent to [userId] as unread, a
    positive number. *)
Theorem markMessagesAsRead_keeps_badge userId peer w :
  quiet w → peer ≠ userId →
  (∃ m, m ∈ messages w ∧ m_sender_id m = peer ∧ m_receiver_id m = userId) →
  ∃ w1 cs w2 c,
    markMessagesAsRead peer userId w = (Returned (), w1)
    ∧ getConversations userId w1 = (Returned cs, w2)
    ∧ c ∈ cs ∧ c_user_id c = peer
    ∧ c_unread_count c = inbound_count userId peer (messages w)
    ∧ (0 < c_unread_count c)%Z.
Proof.
  intros Hq Hpeer (m & Hm & Hs & Hr).
  destruct (markMessagesAsRead_run peer userId w) as (w1 & Hrun1 & Hms1 & Hnet & _).
  assert (quiet w1) as Hq1 by (unfold quiet; rewrite Hnet; by apply Forall_tail).
  destruct (getConversations_quiet userId w1 Hq1) as (pMap & sMap & w2 & Hrun2 & _).
  destruct (scanned_previews userId w1 pMap sMap) as (_ & Hdom & Hcount).
  assert (peer ∈ c_user_id <$> JsMap.values (JsMap.forEach (overlay_profile_status pMap sMap)
            (foldl (scan_message userId) JsMap.empty (rows_touching userId w1)))) as Hin.
  { apply Hdom. rewrite Hms1. exists m. split; [done|]. by right. }
  apply list_elem_of_fmap in Hin as (c & Hc & Hin).
  eexists w1, _, w2, c. split; [exact Hrun1|]. split; [exact Hrun2|].
  split; [exact Hin|]. split; [done|].
  assert (c_unread_count c = inbound_count userId peer (messages w)) as Hc'.
  { by rewrite (Hcount c Hin), <- Hc, Hms1. }
  split; [exact Hc'|].
  rewrite Hc'. unfold inbound_count.
  assert (m ∈ filter (λ m, between userId peer m ∧ m_sender_id m ≠ userId) (messages w))
    as Hne.
  { apply list_elem_of_filter. split; [|done]. split; [by right|congruence]. }
  destruct (filter _ (messages w)); [by apply elem_of_nil in Hne|cbn; lia].
Qed.

(** The theorems of this part, in the scenario. *)

Lemma sendMessage_stores_defaults_witness :
  columns sent_message = inserted_row quiet_world alice bob "yo"
  ∧ messages sent_world = messages quiet_world ++ [inserted_row quiet_world alice bob "yo"]
  ∧ m_message_type sent_message = text ∧ m_reply_to sent_message = None.
Proof.
  apply (sendMessage_stores_defaults alice bob "yo" image (Some "m1") quiet_world
           sent_message sent_world).
  vm_compute. reflexivity.
Defined.

Lemma sendMessage_quiet_effects_witness :
  ∃ m w1,
    sendMessage alice bob "yo" text None quiet_world = (Returned (Some m), w1)
    ∧ m = message_of_row (inserted_row quiet_world alice bob "yo")
            (single_profile_ref quiet_world alice) (single_profile_ref quiet_world bob)
    ∧ messages w1 = messages quiet_world ++ [inserted_row quiet_world alice bob "yo"]
    ∧ timers w1 = timers quiet_world ++ [promotion_timer quiet_world (m_id m)]
    ∧ outbox w1 = outbox quiet_world ++ [(buildPairRoom alice bob, m)]
    ∧ console w1 = console quiet_world
    ∧ quiet w1.
Proof.
  apply (sendMessage_quiet_effects alice bob "yo" text None quiet_world).
  - constructor.
  - apply (bool_decide_unpack _). vm_compute. exact I.
Defined.

Lemma updateMessageStatus_changes_nothing_witness :
  ∃ w',
    updateMessageStatus "m2" read quiet_world = (Returned (), w')
    ∧ messages w' = messages quiet_world
    ∧ console w' = console quiet_world.
Proof.
  destruct (updateMessageStatus_changes_nothing "m2" read quiet_world)
    as (w' & Hrun & Hms & _ & Hserved & _).
  exists w'. split; [exact Hrun|]. split; [exact Hms|]. apply Hserved. reflexivity.
Defined.

Lemma promotion_changes_nothing_witness :
  ∃ w2,
    fire 0 sent_world = (Returned (), w2)
    ∧ net w2 = tail (net sent_world)
    ∧ messages w2 = messages sent_world
    ∧ ∃ x, x ∈ messages w2 ∧ m_id x = m_id sent_message ∧ m_status x = sent.
Proof.
  apply (promotion_changes_nothing alice bob "yo" text None quiet_world
           sent_message sent_world).
  - constructor.
  - vm_compute. reflexivity.
Defined.

Lemma markMessagesAsRead_keeps_badge_witness :
  ∃ w1 cs w2 c,
    markMessagesAsRead bob alice quiet_world = (Returned (), w1)
    ∧ getConversations alice w1 = (Returned cs, w2)
    ∧ c ∈ cs ∧ c_user_id c = bob
    ∧ c_unread_count c = inbound_count alice bob (messages quiet_world)
    ∧ (0 < c_unread_count c)%Z.
Proof.
  apply (markMessagesAsRead_keeps_badge alice bob quiet_world).
  - constructor.
  - discriminate.
  - exists (stored "m2" bob alice "hi" sent 20). split; [|done].
    right. left.
Defined.

(** ** The last message of a preview *)

(** X7. The last message of a preview returned by [getConversations] is a
    stored message of that pair, and no stored message of the pair is more
    recent. *)
Theorem getConversations_last_message userId w cs w' :
  getConversations userId w = (Returned cs, w') →
  ∀ c, c ∈ cs →
    ∃ m, m ∈ messages w ∧ between userId (c_user_id c) m
      ∧ c_last_message c = Some (last_of m)
      ∧ ∀ m', m' ∈ messages w → between userId (c_user_id c) m' →
          (m_created_at m' ≤ m_created_at m)%Z.
Proof.
  intros [->|(pMap & sMap & ->)]%getConversations_shape c Hc;
    [by apply elem_of_nil in Hc|].
  by apply (scanned_last_message userId w pMap sMap).
Qed.

Lemma getConversations_last_message_witness :
  Forall (λ c,
    ∃ m, m ∈ messages quiet_world ∧ between alice (c_user_id c) m
      ∧ c_last_message c = Some (last_of m)
      ∧ ∀ m', m' ∈ messages quiet_world → between alice (c_user_id c) m' →
          (m_created_at m' ≤ m_created_at m)%Z) alice_conversations.
Proof.
  apply Forall_forall.
  apply (getConversations_last_message alice quiet_world alice_conversations
           (getConversations alice quiet_world).2).
  vm_compute. reflexivity.
Defined.

(** ** The directory and the users online *)

(** The entry [getOnlineUsers] makes from a profile row and the map of the
    instants last seen. *)
Lemma getOnlineUsers_shape currentUserId w us w' :
  getOnlineUsers currentUserId w = (Returned us, w') →
  us = []
  ∨ us = online_entry (online_rows w)
           <$> filter (λ p, p_user_id p ∈ other_online currentUserId w) (profiles w).
Proof.
  unfold getOnlineUsers, select_user_status_online, select_profiles_in,
    online_entry, other_online, online_rows.
  mstep.
  destruct (hd Healthy (net w)); mstep; try (intros [= <- <-]; by left).
  case_bool_decide; mstep; [intros [= <- <-]; by left|].
  destruct (hd Healthy (tail (net w))); mstep; intros [= <- <-]; auto.
Qed.

Lemma getOnlineUsers_quiet currentUserId w :
  quiet w →
  ∃ w',
    getOnlineUsers currentUserId w
      = (Returned (online_entry (online_rows w)
                     <$> filter (λ p, p_user_id p ∈ other_online currentUserId w)
                           (profiles w)), w')
    ∧ same_store w w'.
Proof.
  intros (H0 & H1 & _)%quiet_script.
  unfold getOnlineUsers, select_user_status_online, select_profiles_in,
    online_entry, other_online, online_rows.
  mstep. rewrite H0. mstep.
  case_bool_decide as Hnone; mstep.
  - apply length_zero_iff_nil in Hnone. rewrite Hnone.
    assert (filter (λ p, p_user_id p ∈ ([] : list string)) (profiles w) = []) as ->.
    { apply filter_none. apply Forall_forall. intros p _ Hp. by apply elem_of_nil in Hp. }
    eexists. split; [reflexivity|solve_same_store].
  - rewrite H1. mstep. eexists. split; [reflexivity|solve_same_store].
Qed.

Lemma elem_of_other_online currentUserId w k :
  k ∈ other_online currentUserId w
  ↔ k ≠ currentUserId
    ∧ ∃ s, s ∈ user_status w ∧ s_user_id s = k ∧ s_is_online s = true.
Proof.
  unfold other_online, online_rows.
  rewrite list_elem_of_filter, list_elem_of_fmap. split.
  - intros (? & s & -> & [? ?]%list_elem_of_filter). eauto.
  - intros (? & s & ? & <- & ?). split; [done|]. exists s.
    split; [done|]. by apply list_elem_of_filter.
Qed.

(** X8. [getOnlineUsers] never lists the current user; every user it lists
    has a profile row and a presence row that says online, whose [last_seen]
    it reports.  Without failures it lists every other user who has a
    profile and is online. *)
Theorem getOnlineUsers_online_others currentUserId w :
  (∀ us w', getOnlineUsers currentUserId w = (Returned us, w') →
     ∀ u, u ∈ us →
       d_user_id u ≠ currentUserId
       ∧ (∃ p, p ∈ profiles w ∧ p_user_id p = d_user_id u ∧ p_name p = d_name u)
       ∧ ∃ s, s ∈ user_status w ∧ s_user_id s = d_user_id u ∧ s_is_online s = true
           ∧ d_last_seen u = Some (s_last_seen s))
  ∧ (quiet w →
     ∃ us w', getOnlineUsers currentUserId w = (Returned us, w')
       ∧ ∀ p s, p ∈ profiles w → s ∈ user_status w →
           s_user_id s = p_user_id p → s_is_online s = true →
           p_user_id p ≠ currentUserId →
           p_user_id p ∈ d_user_id <$> us).
Proof.
  split.
  - intros us w' [-> | ->]%getOnlineUsers_shape u Hu; [by apply elem_of_nil in Hu|].
    apply list_elem_of_fmap in Hu as (p & -> & [Hother Hp]%list_elem_of_filter).
    apply elem_of_other_online in Hother as (Hne & s & Hs & Hid & Hon).
    split; [done|]. split; [by exists p|]. cbn.
    assert (s ∈ online_rows w) as Hrow by by apply list_elem_of_filter.
    destruct (is_Some_get_foldl_put s_user_id s_last_seen (online_rows w) s Hrow)
      as [seen Hseen].
    rewrite Hid in Hseen. rewrite Hseen.
    apply get_foldl_put in Hseen as (s' & [Hon' Hs']%list_elem_of_filter & Hid' & ->).
    by exists s'.
  - intros (w' & Hrun & _)%(getOnlineUsers_quiet currentUserId).
    eexists _, w'. split; [exact Hrun|].
    intros p s Hp Hs Hid Hon Hne.
    rewrite <- list_fmap_compose. apply list_elem_of_fmap. exists p. split; [done|].
    apply list_elem_of_filter. split; [|done].
    apply elem_of_other_online. split; [done|]. by exists s.
Qed.

Lemma getOnlineUsers_online_others_witness :
  ∃ us w', getOnlineUsers alice quiet_world = (Returned us, w')
    ∧ ∀ p s, p ∈ profiles quiet_world → s ∈ user_status quiet_world →
        s_user_id s = p_user_id p → s_is_online s = true →
        p_user_id p ≠ alice →
        p_user_id p ∈ d_user_id <$> us.
Proof.
  apply (proj2 (getOnlineUsers_online_others alice quiet_world)). constructor.
Defined.

(** X9. [getAllUsersExcept] never lists the current user and lists profile
    rows only; without failures it lists each of the other profiles, in the
    ascending order of names of the store's collation. *)
Theorem getAllUsersExcept_directory currentUserId w :
  (∀ us w', getAllUsersExcept currentUserId w = (Returned us, w') →
     ∀ u, u ∈ us →
       d_user_id u ≠ currentUserId ∧ ∃ p, p ∈ profiles w ∧ u = directory_user p)
  ∧ (quiet w → consistent (collation w) →
     ∃ us w', getAllUsersExcept currentUserId w = (Returned us, w')
       ∧ us ≡ₚ directory_user <$> filter (λ p, p_user_id p ≠ currentUserId) (profiles w)
       ∧ StronglySorted (λ a b, (collation w (d_name a) (d_name b) ≤ 0)%Z) us).
Proof.
  split.
  - unfold getAllUsersExcept, select_profiles_except. mstep.
    intros us w'.
    destruct (hd Healthy (net w)); mstep; intros [= <- <-] u Hu;
      try (by apply elem_of_nil in Hu).
    apply list_elem_of_fmap in Hu as (p & -> & Hp).
    rewrite Array_sort_Permutation in Hp. apply list_elem_of_filter in Hp as [Hne Hp].
    split; [done|]. by exists p.
  - intros Hq [Htotal Htrans].
    destruct (getAllUsersExcept_quiet currentUserId w Hq) as (w' & Hrun & _).
    eexists _, w'. split; [exact Hrun|]. split.
    + by rewrite Array_sort_Permutation.
    + eapply StronglySorted_fmap;
        [|apply (Array_sort_sorted (λ a b, collation w (p_name a) (p_name b)))].
      * by intros a b.
      * intros a b. apply Htotal.
      * intros a b c. apply Htrans.
Qed.

Lemma getAllUsersExcept_directory_witness :
  ∃ us w', getAllUsersExcept alice quiet_world = (Returned us, w')
    ∧ us ≡ₚ directory_user <$> filter (λ p, p_user_id p ≠ alice) (profiles quiet_world)
    ∧ StronglySorted (λ a b, (collation quiet_world (d_name a) (d_name b) ≤ 0)%Z) us.
Proof.
  apply (proj2 (getAllUsersExcept_directory alice quiet_world)).
  - constructor.
  - exact defaultCompare_consistent.
Defined.

(** ** Presence in the merged conversation list *)

Lemma has_foldl_put {A V} (key : A → string) (val : A → V) (l : list A) k :
  JsMap.has k (foldl (λ mp x, JsMap.put (key x) (val x) mp) JsMap.empty l) = true
  ↔ k ∈ key <$> l.
Proof.
  unfold JsMap.has. split.
  - destruct (JsMap.get k _) as [v|] eqn:Hget; [|done]. intros _.
    apply get_foldl_put in Hget as (x & Hx & <- & _). by apply list_elem_of_fmap_2.
  - intros (x & -> & Hx)%list_elem_of_fmap.
    by destruct (is_Some_get_foldl_put key val l x Hx) as [v ->].
Qed.

Lemma foldl_overlay_user_presence onlineMap allUsers byId k c :
  JsMap.get k (foldl (overlay_user onlineMap) byId allUsers) = Some c →
  k ∈ d_user_id <$> allUsers →
  c_is_online c = JsMap.has k onlineMap.
Proof.
  revert c. induction allUsers as [|u l IH] using rev_ind; intros c.
  - by intros _ ?%elem_of_nil.
  - rewrite foldl_app, fmap_app. cbn [foldl]. unfold overlay_user at 1.
    destruct (JsMap.get (d_user_id u) (foldl (overlay_user onlineMap) byId l));
      rewrite JsMapFacts.get_put;
      (destruct (decide (d_user_id u = k)) as [<-|Hne];
        [by intros [= <-]|]);
      intros Hget [Hin|Hin%list_elem_of_singleton]%elem_of_app; try congruence;
      by apply IH.
Qed.

Lemma mergeConversations_presence localeCompare cs allUsers online c :
  c ∈ mergeConversations localeCompare cs allUsers online →
  c_user_id c ∈ d_user_id <$> allUsers →
  c_is_online c = true ↔ c_user_id c ∈ d_user_id <$> online.
Proof.
  unfold mergeConversations. rewrite Array_sort_Permutation.
  intros Hc Hdir.
  pose proof (merge_inv_previews cs) as Hinv0.
  destruct (foldl_overlay_user_inv cs
              (foldl (λ mp u, JsMap.put (d_user_id u) u mp) JsMap.empty online)
              allUsers _ Hinv0) as [[Hnd Hent] _].
  apply JsMapFacts.elem_of_values in Hc as (k & Hk); [|done].
  destruct (Hent _ _ Hk) as [<- _].
  rewrite (foldl_overlay_user_presence _ _ _ _ _ Hk Hdir).
  apply (has_foldl_put d_user_id (λ u, u)).
Qed.

(** The presence rows of the other users survive the calls that precede
    [getOnlineUsers] in [initializeChat]. *)
Lemma initializeUserStatus_others userId w s :
  s_user_id s ≠ userId →
  s ∈ user_status (initializeUserStatus userId w).2 ↔ s ∈ user_status w.
Proof.
  intros Hne. unfold initializeUserStatus, upsert_user_status. mstep. case_script;
    try done.
  rewrite elem_of_app, list_elem_of_singleton. split; [|auto].
  intros [?| ->]; [done|]. by destruct Hne.
Qed.

Lemma getConversations_user_status userId w :
  user_status (getConversations userId w).2 = user_status w.
Proof.
  unfold getConversations, select_messages, select_profiles_in, select_user_status_in.
  mstep. case_script; done.
Qed.

Lemma getAllUsersExcept_user_status userId w :
  user_status (getAllUsersExcept userId w).2 = user_status w.
Proof.
  unfold getAllUsersExcept, select_profiles_except. mstep. case_script; done.
Qed.

(** X10. In the list [initializeChat] builds without failures, the entry of
    a profile other than the current user is flagged online exactly when the
    store holds a presence row of that user that says online. *)
Theorem initializeChat_presence userId w :
  quiet w →
  ∃ merged w',
    initializeChat userId w = (Returned merged, w')
    ∧ ∀ c p, c ∈ merged → p ∈ profiles w →
        c_user_id c = p_user_id p → p_user_id p ≠ userId →
        c_is_online c = true
        ↔ ∃ s, s ∈ user_status w ∧ s_user_id s = p_user_id p ∧ s_is_online s = true.
Proof.
  intros Hq.
  destruct (initializeUserStatus_frame userId w) as (w1 & Hrun1 & Hs1).
  assert (quiet w1) as Hq1 by by apply Hs1.
  destruct (getConversations_quiet userId w1 Hq1) as (pMap & sMap & w2 & Hrun2 & Hs2).
  assert (quiet w2) as Hq2 by by apply Hs2.
  destruct (getAllUsersExcept_quiet userId w2 Hq2) as (w3 & Hrun3 & Hs3).
  assert (quiet w3) as Hq3 by by apply Hs3.
  destruct (getOnlineUsers_quiet userId w3 Hq3) as (w4 & Hrun4 & Hs4).
  pose proof (same_store_trans _ _ _ Hs1 Hs2) as Hs12.
  pose proof (same_store_trans _ _ _ Hs12 Hs3) as (_ & Hprof3 & _).
  destruct Hs12 as (_ & Hprof2 & _).
  assert (∀ s, s_user_id s ≠ userId → s ∈ user_status w3 ↔ s ∈ user_status w) as Hrows.
  { intros s Hne.
    pose proof (getAllUsersExcept_user_status userId w2) as H3.
    pose proof (getConversations_user_status userId w1) as H2.
    pose proof (initializeUserStatus_others userId w s Hne) as H1.
    rewrite Hrun3 in H3. rewrite Hrun2 in H2. rewrite Hrun1 in H1. cbn in H1, H2, H3.
    by rewrite H3, H2. }
  eexists _, w4. split.
  { unfold initializeChat, mbind, M_bind, Promise_all.
    rewrite Hrun1, Hrun2, Hrun3, Hrun4. reflexivity. }
  intros c p Hc Hp Hid Hne.
  rewrite (mergeConversations_presence _ _ _ _ c Hc).
  - rewrite <- list_fmap_compose, list_elem_of_fmap. split.
    + intros (p' & Hid' & [Hother _]%list_elem_of_filter). cbn in Hid'.
      apply elem_of_other_online in Hother as (_ & s & Hin & Hs & Hon).
      exists s. split; [apply Hrows; [congruence|done]|]. split; [congruence|done].
    + intros (s & Hin & Hs & Hon). exists p. split; [done|].
      apply list_elem_of_filter. split; [|by rewrite Hprof3].
      apply elem_of_other_online. split; [done|]. exists s.
      split; [apply Hrows; [congruence|done]|done].
  - rewrite Hid, <- list_fmap_compose. apply list_elem_of_fmap. exists p.
    split; [done|]. rewrite Array_sort_Permutation. apply list_elem_of_filter.
    split; [done|]. by rewrite Hprof2.
Qed.

Lemma initializeChat_presence_witness :
  ∃ merged w',
    initializeChat alice quiet_world = (Returned merged, w')
    ∧ ∀ c p, c ∈ merged → p ∈ profiles quiet_world →
        c_user_id c = p_user_id p → p_user_id p ≠ alice →
        c_is_online c = true
        ↔ ∃ s, s ∈ user_status quiet_world ∧ s_user_id s = p_user_id p
               ∧ s_is_online s = true.
Proof. apply (initializeChat_presence alice quiet_world). constructor. Defined.

(** ** Rooms *)

(** X11. A subscription that comes after a broadcast is dead: once
    [broadcastPairMessage] has opened the room of a pair, with or without
    success of the send, [subscribeToPairBroadcast] for the pair returns
    that room without registering its callback, and no payload arriving on
    the room invokes it. *)
Theorem broadcast_then_subscribe senderId receiverId message onPairMessage w :
  channels w !! buildPairRoom senderId receiverId = None →
  ∃ w2,
    subscribeToPairBroadcast senderId receiverId onPairMessage
      (broadcastPairMessage senderId receiverId message w).2
      = (Returned (buildPairRoom senderId receiverId), w2)
    ∧ ∀ payload, ∃ w3,
        deliver (buildPairRoom senderId receiverId) payload w2 = (Returned (), w3)
        ∧ calls w3 = calls w2.
Proof.
  intros Hnew. unfold broadcastPairMessage, subscribeToPairBroadcast. mstep.
  rewrite Hnew. mstep.
  destruct (hd Healthy (net w)); mstep; rewrite lookup_insert_eq;
    (eexists; split; [reflexivity|]);
    intros payload; unfold deliver; mstep; rewrite lookup_insert_eq;
    by eexists.
Qed.

Lemma broadcast_then_subscribe_witness :
  ∃ w2,
    subscribeToPairBroadcast alice bob 7
      (broadcastPairMessage alice bob sent_message quiet_world).2
      = (Returned (buildPairRoom alice bob), w2)
    ∧ ∀ payload, ∃ w3,
        deliver (buildPairRoom alice bob) payload w2 = (Returned (), w3)
        ∧ calls w3 = calls w2.
Proof.
  apply (broadcast_then_subscribe alice bob sent_message 7 quiet_world). reflexivity.
Defined.

Lemma append_colon_inj x y x' y' :
  colon_free x → colon_free x' →
  x +:+ ":" +:+ y = x' +:+ ":" +:+ y' → x = x' ∧ y = y'.
Proof.
  revert x'. induction x as [|c x IH]; intros [|c' x']; cbn; append_step.
  - intros _ _ [= ->]. done.
  - intros _ [Hc _] [= <- _]. done.
  - intros [Hc _] _ [= -> _]. done.
  - intros [_ Hx] [_ Hx'] [= -> Heq]. destruct (IH x' Hx Hx' Heq) as [-> ->]. done.
Qed.

(** X12. For identifiers without colon, two pairs share a room only if they
    are the same pair, in one order or the other. *)
Theorem buildPairRoom_injective a b c d :
  colon_free a → colon_free b → colon_free c → colon_free d →
  buildPairRoom a b = buildPairRoom c d →
  (a = c ∧ b = d) ∨ (a = d ∧ b = c).
Proof.
  intros Ha Hb Hc Hd. unfold buildPairRoom, Array_sort. cbn.
  destruct (defaultCompare a b <=? 0)%Z, (defaultCompare c d <=? 0)%Z; cbn;
    append_step; intros [= Heq]; apply append_colon_inj in Heq as [-> ->]; auto.
Qed.

Lemma buildPairRoom_injective_witness :
  (alice = bob ∧ bob = alice) ∨ (alice = alice ∧ bob = bob).
Proof.
  apply (buildPairRoom_injective alice bob bob alice); cbn; done.
Defined.

(** ** Presence updates and cleanup *)

(** X13. A presence row is written once.  [updateUserStatus] never raises;
    for a user who already has a presence row it changes nothing and logs an
    error, in every world; for a user without row a served call inserts the
    row. *)
Theorem updateUserStatus_write_once userId isOnline statusMessage w :
  ∃ w',
    updateUserStatus userId isOnline statusMessage w = (Returned (), w')
    ∧ (userId ∈ s_user_id <$> user_status w →
       user_status w' = user_status w
       ∧ console w' = console w ++ ["Error updating user status:"])
    ∧ (¬ (userId ∈ s_user_id <$> user_status w) → hd Healthy (net w) = Healthy →
       user_status w'
       = user_status w ++ [{| s_user_id := userId; s_is_online := isOnline;
                              s_last_seen := client_now w |}]
       ∧ console w' = console w).
Proof.
  unfold updateUserStatus, upsert_user_status. mstep.
  destruct (hd Healthy (net w)) eqn:Hmode; mstep.
  - case_bool_decide as Hrow; mstep;
      (eexists; split; [reflexivity|]); split; intros; done.
  - eexists. split; [reflexivity|]. split; intros; done.
  - eexists. split; [reflexivity|]. split; intros; done.
Qed.

Lemma updateUserStatus_write_once_witness :
  ∃ w',
    updateUserStatus carol false None quiet_world = (Returned (), w')
    ∧ user_status w' = user_status quiet_world
    ∧ console w' = console quiet_world ++ ["Error updating user status:"].
Proof.
  destruct (updateUserStatus_write_once carol false None quiet_world)
    as (w' & Hrun & Hkept & _).
  exists w'. split; [exact Hrun|]. apply Hkept.
  apply (bool_decide_unpack _). vm_compute. exact I.
Defined.

(** A presence update touches the table of presence rows and the console
    only, and leaves an existing row of the user alone. *)
Lemma updateUserStatus_frame userId isOnline statusMessage w :
  ∃ w',
    updateUserStatus userId isOnline statusMessage w = (Returned (), w')
    ∧ messages w' = messages w ∧ timers w' = timers w
    ∧ typingTimeouts w' = typingTimeouts w
    ∧ (userId ∈ s_user_id <$> user_status w → user_status w' = user_status w).
Proof.
  unfold updateUserStatus, upsert_user_status. mstep.
  destruct (hd Healthy (net w)); mstep; [case_bool_decide; mstep|..];
    (eexists; split; [reflexivity|]); done.
Qed.

(** The handles of a map of timeouts, and clearing them one by one. *)
Lemma clear_all_timers (handles : list nat) w :
  ∃ w',
    clearTimeouts handles w = (Returned (), w')
    ∧ timers w' = filter (λ t, t_handle t ∉ handles) (timers w)
    ∧ user_status w' = user_status w ∧ messages w' = messages w
    ∧ channels w' = channels w ∧ console w' = console w.
Proof.
  revert w. induction handles as [|h l IH]; intros w; unfold clearTimeouts; cbn [foldr].
  - exists w. split; [done|]. split; [|done].
    symmetry. apply filter_all. apply Forall_forall. intros t _. apply not_elem_of_nil.
  - change (foldr _ _ l) with (clearTimeouts l). mstep.
    destruct (IH (with_timers (filter (λ t, t_handle t ≠ h)) id w))
      as (w' & -> & Hts & ? & ? & ? & ?).
    exists w'. split; [done|]. split; [|done].
    rewrite Hts. cbn [timers with_timers]. rewrite list_filter_filter.
    apply list_filter_iff. intros t. rewrite not_elem_of_cons. tauto.
Qed.

(** [cleanup] returns; what it leaves of the client and of the store. *)
Lemma cleanup_run userId w :
  ∃ w',
    cleanup userId w = (Returned (), w')
    ∧ (userId ∈ s_user_id <$> user_status w → user_status w' = user_status w).
Proof.
  unfold cleanup.
  destruct (updateUserStatus_frame userId false None w) as (w1 & Hrun & _ & _ & _ & Hkept).
  unfold try_catch at 1. unfold mbind at 1, M_bind at 1. rewrite Hrun. mstep.
  destruct (clear_all_timers (map_to_list (typingTimeouts w1)).*2
              (with_channels (λ _, ∅) w1)) as (w2 & -> & _ & Hus & _).
  eexists. split; [reflexivity|]. mstep.
  intros Hrow. rewrite Hus. cbn [user_status with_channels]. by apply Hkept.
Qed.

(** X14. [cleanup] never raises.  It empties the registry of channels and
    the registry of typing timeouts, clears exactly the pending timeouts
    that were registered there (the promotions scheduled by sends stay
    pending), keeps the stored messages, and leaves the presence row of a
    user who has one as it is. *)
Theorem cleanup_releases userId w :
  ∃ w',
    cleanup userId w = (Returned (), w')
    ∧ channels w' = ∅
    ∧ typingTimeouts w' = ∅
    ∧ messages w' = messages w
    ∧ (∀ t, t ∈ timers w' ↔
         t ∈ timers w ∧ ¬ ∃ key, typingTimeouts w !! key = Some (t_handle t))
    ∧ (userId ∈ s_user_id <$> user_status w → user_status w' = user_status w).
Proof.
  unfold cleanup.
  destruct (updateUserStatus_frame userId false None w)
    as (w1 & Hrun & Hms & Hts & Hmap & Hkept).
  unfold try_catch at 1. unfold mbind at 1, M_bind at 1. rewrite Hrun. mstep.
  destruct (clear_all_timers (map_to_list (typingTimeouts w1)).*2
              (with_channels (λ _, ∅) w1)) as (w2 & -> & Hts2 & Hus & Hms2 & Hch & _).
  eexists. split; [reflexivity|]. mstep.
  split; [by rewrite Hch|]. split; [done|]. split; [by rewrite Hms2|]. split.
  - intros t. rewrite Hts2. cbn [timers with_channels].
    rewrite list_elem_of_filter, Hts, Hmap. split.
    + intros [Hnot Hin]. split; [done|]. intros [key Hkey]. apply Hnot.
      apply list_elem_of_fmap. exists (key, t_handle t). split; [done|].
      by apply elem_of_map_to_list.
    + intros [Hin Hnot]. split; [|done].
      intros ([key h] & Hh & Hkey%elem_of_map_to_list)%list_elem_of_fmap.
      apply Hnot. exists key. cbn in Hh. by subst.
  - intros Hrow. rewrite Hus. cbn [user_status with_channels]. by apply Hkept.
Qed.

Lemma cleanup_releases_witness :
  ∃ w',
    cleanup carol sent_world = (Returned (), w')
    ∧ channels w' = ∅
    ∧ timers w' = timers sent_world
    ∧ user_status w' = user_status sent_world.
Proof.
  destruct (cleanup_releases carol sent_world) as (w' & Hrun & Hch & _ & _ & _ & Hkept).
  exists w'. split; [exact Hrun|]. split; [exact Hch|]. split.
  - injection Hrun as <-. reflexivity.
  - apply Hkept. apply (bool_decide_unpack _). vm_compute. exact I.
Defined.

(** X15. A user stays online after [cleanup]: following a served
    [initializeUserStatus], the presence rows after [cleanup] are the rows
    before it; for a user who had no row, the row says online. *)
Theorem cleanup_leaves_online userId w :
  hd Healthy (net w) = Healthy →
  ∃ w1 w2,
    initializeUserStatus userId w = (Returned (), w1)
    ∧ cleanup userId w1 = (Returned (), w2)
    ∧ user_status w2 = user_status w1
    ∧ (userId ∈ s_user_id <$> user_status w → user_status w1 = user_status w)
    ∧ (¬ (userId ∈ s_user_id <$> user_status w) →
       user_status w1
       = user_status w ++ [{| s_user_id := userId; s_is_online := true;
                              s_last_seen := client_now w |}]).
Proof.
  intros H0.
  assert (∃ w1, initializeUserStatus userId w = (Returned (), w1)
            ∧ userId ∈ s_user_id <$> user_status w1
            ∧ (userId ∈ s_user_id <$> user_status w → user_status w1 = user_status w)
            ∧ (¬ (userId ∈ s_user_id <$> user_status w) →
               user_status w1
               = user_status w ++ [{| s_user_id := userId; s_is_online := true;
                                      s_last_seen := client_now w |}]))
    as (w1 & Hrun1 & Hrow & Hold & Hnew).
  { unfold initializeUserStatus, upsert_user_status. mstep. rewrite H0. mstep.
    case_bool_decide as Hin; mstep; (eexists; split; [reflexivity|]); cbn.
    - done.
    - split; [|done]. rewrite fmap_app. apply elem_of_app. right. by left. }
  destruct (cleanup_run userId w1) as (w2 & Hrun2 & Hkept).
  exists w1, w2. split; [exact Hrun1|]. split; [exact Hrun2|]. auto.
Qed.

Lemma cleanup_leaves_online_witness :
  ∃ w1 w2,
    initializeUserStatus alice quiet_world = (Returned (), w1)
    ∧ cleanup alice w1 = (Returned (), w2)
    ∧ user_status w2 = user_status w1
    ∧ user_status w1
      = user_status quiet_world ++ [{| s_user_id := alice; s_is_online := true;
                                       s_last_seen := client_now quiet_world |}].
Proof.
  destruct (cleanup_leaves_online alice quiet_world eq_refl)
    as (w1 & w2 & Hrun1 & Hrun2 & Hkept & _ & Hnew).
  exists w1, w2. split; [exact Hrun1|]. split; [exact Hrun2|]. split; [exact Hkept|].
  apply Hnew. apply (bool_decide_unpack _). vm_compute. exact I.
Defined.

(** ** The conversation list of the page *)

(** Replacing an entry that does not match by one that does not match
    leaves the first match where it is. *)
Lemma list_find_insert_other {A} (P : A → Prop) `{!∀ x, Decision (P x)}
    (l : list A) i x y :
  l !! i = Some x → ¬ P x → ¬ P y →
  list_find P (<[i := y]> l) = list_find P l.
Proof.
  revert i. induction l as [|z l IH]; intros [|i] Hi Hx Hy; try done.
  - injection Hi as ->. cbn. by rewrite !decide_False.
  - cbn. case_decide; [done|]. by erewrite IH.
Qed.

(** Replacing the first match by a match keeps it the first match. *)
Lemma list_find_insert_first {A} (P : A → Prop) `{!∀ x, Decision (P x)}
    (l : list A) i x y :
  list_find P l = Some (i, x) → P y →
  list_find P (<[i := y]> l) = Some (i, y).
Proof.
  intros (Hi & Hx & Hfirst)%list_find_Some Hy. apply list_find_Some.
  split; [apply list_lookup_insert_eq; by eapply lookup_lt_Some|].
  split; [done|]. intros j z Hj Hlt.
  rewrite list_lookup_insert_ne in Hj by lia. by eapply Hfirst.
Qed.

Section page_list.
Context (userId : string) (onlineUsers : gset string).

Lemma unread_of_update message prev k :
  unread_of k (updateConversationsList userId onlineUsers message prev)
  = (unread_of k prev
     + if decide (peer_of userId message = k ∧ m_sender_id message ≠ userId)
       then 1 else 0)%Z.
Proof.
  unfold updateConversationsList, unread_of.
  change (if bool_decide (m_sender_id message = userId)
          then m_receiver_id message else m_sender_id message)
    with (peer_of userId message).
  set (k0 := peer_of userId message).
  destruct (list_find (λ conv, c_user_id conv = k0) prev) as [[i c]|] eqn:Hfind.
  - pose proof Hfind as Hfind'.
    destruct (decide (k0 = k)) as [<-|Hne].
    + apply list_find_Some in Hfind as (_ & Hc & _).
      rewrite (list_find_insert_first _ prev i c), Hfind' by done. cbn.
      case_bool_decide; [rewrite decide_True by done|rewrite decide_False by tauto]; lia.
    + rewrite decide_False by tauto. rewrite Z.add_0_r.
      apply list_find_Some in Hfind as (Hi & Hc & _).
      by rewrite (list_find_insert_other _ prev i c) by (cbn; congruence).
  - destruct (decide (k0 = k)) as [<-|Hne].
    + cbn. destruct (decide (k0 = k0)) as [_|?]; [|done]. rewrite Hfind. cbn.
      case_bool_decide; [rewrite decide_True by done|rewrite decide_False by tauto]; lia.
    + rewrite decide_False by tauto. cbn.
      destruct (decide (k0 = k)) as [?|_]; [done|].
      destruct (list_find (λ c, c_user_id c = k) prev) as [[? ?]|]; cbn; lia.
Qed.

Lemma unread_of_arrived arrived prev k :
  unread_of k (foldl (λ prev m, updateConversationsList userId onlineUsers m prev)
                 prev arrived)
  = (unread_of k prev
     + Z.of_nat (length (filter (λ m, peer_of userId m = k ∧ m_sender_id m ≠ userId)
                           arrived)))%Z.
Proof.
  revert prev. induction arrived as [|m l IH]; intros prev; cbn [foldl].
  - rewrite filter_nil. cbn. lia.
  - rewrite IH, unread_of_update, filter_cons.
    destruct (decide (peer_of userId m = k ∧ m_sender_id m ≠ userId)); cbn [length]; lia.
Qed.

Lemma peer_of_between m k :
  touches userId m → peer_of userId m = k ↔ between userId k m.
Proof.
  unfold touches, peer_of, between. case_bool_decide; intuition congruence.
Qed.

Lemma inbound_count_app k l1 l2 :
  Forall (touches userId) l2 →
  inbound_count userId k (l1 ++ l2)
  = (inbound_count userId k l1
     + Z.of_nat (length (filter (λ m, peer_of userId m = k ∧ m_sender_id m ≠ userId) l2)))%Z.
Proof.
  intros Hl2. unfold inbound_count. rewrite filter_app, length_app, Nat2Z.inj_add.
  f_equal. f_equal. f_equal. induction Hl2 as [|m l Hm _ IH]; [done|].
  rewrite !filter_cons, IH.
  pose proof (peer_of_between m k Hm).
  repeat case_decide; try done; tauto.
Qed.
End page_list.

(** X16. The unread counts the page keeps by [updateConversationsList]
    agree with a reload: starting from the previews of [getConversations]
    and applying the messages that arrive for the user one by one gives, for
    every peer, the count [getConversations] reports once these messages are
    stored. *)
Theorem live_badges_agree userId onlineUsers w arrived :
  quiet w → Forall (touches userId) arrived →
  ∃ cs w',
    getConversations userId w = (Returned cs, w')
    ∧ ∀ k,
        unread_of k (foldl (λ prev m, updateConversationsList userId onlineUsers m prev)
                       cs arrived)
        = inbound_count userId k (messages w ++ arrived).
Proof.
  intros Hq Harrived.
  destruct (getConversations_quiet userId w Hq) as (pMap & sMap & w' & Hrun & _).
  destruct (scanned_previews userId w pMap sMap) as (_ & Hdom & Hcount).
  eexists _, w'. split; [exact Hrun|]. intros k.
  rewrite unread_of_arrived, inbound_count_app by done. f_equal.
  unfold unread_of.
  destruct (list_find _ _) as [[i c]|] eqn:Hfind.
  - apply list_find_Some in Hfind as (Hc%list_elem_of_lookup_2 & <- & _).
    by apply Hcount.
  - apply list_find_None in Hfind. unfold inbound_count.
    rewrite (filter_none (λ m, between userId k m ∧ m_sender_id m ≠ userId)); [done|].
    apply Forall_forall. intros m Hm [Hbetween _].
    assert (k ∈ c_user_id <$> JsMap.values
              (JsMap.forEach (overlay_profile_status pMap sMap)
                 (foldl (scan_message userId) JsMap.empty (rows_touching userId w))))
      as (c & -> & Hc)%list_elem_of_fmap by (apply Hdom; eauto).
    rewrite Forall_forall in Hfind. by apply (Hfind c).
Qed.

Lemma live_badges_agree_witness :
  ∃ cs w',
    getConversations alice quiet_world = (Returned cs, w')
    ∧ ∀ k,
        unread_of k (foldl (λ prev m, updateConversationsList alice ∅ m prev)
                       cs [stored "n1" bob alice "new" sent 50;
                           stored "n2" alice carol "out" sent 51])
        = inbound_count alice k
            (messages quiet_world ++ [stored "n1" bob alice "new" sent 50;
                                      stored "n2" alice carol "out" sent 51]).
Proof.
  apply (live_badges_agree alice ∅ quiet_world).
  - constructor.
  - apply Forall_cons. split; [by right|].
    apply Forall_cons. split; [by left|]. constructor.
Defined.

(** X17. [updateConversationsList] keeps the identifiers of the list free
    of duplicates; afterwards the entry of the other party shows the message
    as its last message, and the entries of all other users are the ones
    from before. *)
Theorem updateConversationsList_peer userId onlineUsers message prev :
  NoDup (c_user_id <$> prev) →
  NoDup (c_user_id <$> updateConversationsList userId onlineUsers message prev)
  ∧ (∃ c, c ∈ updateConversationsList userId onlineUsers message prev
       ∧ c_user_id c = peer_of userId message
       ∧ c_last_message c = Some (last_of message))
  ∧ (∀ c, c_user_id c ≠ peer_of userId message →
       c ∈ updateConversationsList userId onlineUsers message prev ↔ c ∈ prev).
Proof.
  intros Hnd. unfold updateConversationsList.
  change (if bool_decide (m_sender_id message = userId)
          then m_receiver_id message else m_sender_id message)
    with (peer_of userId message).
  set (k0 := peer_of userId message).
  destruct (list_find (λ conv, c_user_id conv = k0) prev) as [[i c0]|] eqn:Hfind.
  - apply list_find_Some in Hfind as (Hi & Hc0 & _).
    pose proof (lookup_lt_Some _ _ _ Hi) as Hlt.
    split; [|split].
    + rewrite list_fmap_insert. cbn. rewrite list_insert_id; [done|].
      by rewrite list_lookup_fmap, Hi.
    + exists (touch_preview userId message c0). split; [|done].
      apply (list_elem_of_lookup_2 _ i). by apply list_lookup_insert_eq.
    + intros c Hc. rewrite !list_elem_of_lookup. split; intros [j Hj].
      * destruct (decide (i = j)) as [->|Hij].
        -- rewrite list_lookup_insert_eq in Hj by done. injection Hj as <-. done.
        -- rewrite list_lookup_insert_ne in Hj by done. eauto.
      * exists j. rewrite list_lookup_insert_ne; [done|]. intros ->. congruence.
  - apply list_find_None in Hfind. rewrite Forall_forall in Hfind.
    split; [|split].
    + rewrite fmap_cons. apply NoDup_cons. split; [|done]. cbn.
      intros (c & Hc & Hin)%list_elem_of_fmap. by apply (Hfind c).
    + eexists. split; [left|done].
    + intros c Hc. rewrite elem_of_cons. split; [|auto].
      intros [->|?]; [|done]. by destruct Hc.
Qed.

Lemma updateConversationsList_peer_witness :
  ∃ c, c ∈ updateConversationsList alice ∅ (stored "n1" bob alice "new" sent 50)
             alice_conversations
    ∧ c_user_id c = peer_of alice (stored "n1" bob alice "new" sent 50)
    ∧ c_last_message c = Some (last_of (stored "n1" bob alice "new" sent 50)).
Proof.
  apply (updateConversationsList_peer alice ∅ (stored "n1" bob alice "new" sent 50)
           alice_conversations).
  apply (bool_decide_unpack _). vm_compute. exact I.
Defined.

(** ** Live updates of the page *)

(** X18. The update of the list for an arriving profile row keeps the
    identifiers free of duplicates, leaves an entry for the profile's user
    whose name and picture are those of the row, and is idempotent: applying
    the same row again changes nothing. *)
Theorem profileUpsert_replay onlineUsers onlineDirectory p prev :
  NoDup (c_user_id <$> prev) →
  NoDup (c_user_id <$> profileUpsert onlineUsers onlineDirectory p prev)
  ∧ (∀ c, c ∈ profileUpsert onlineUsers onlineDirectory p prev →
       c_user_id c = p_user_id p →
       c_name c = p_name p ∧ c_profile_picture c = p_profile_picture p)
  ∧ p_user_id p ∈ c_user_id <$> profileUpsert onlineUsers onlineDirectory p prev
  ∧ profileUpsert onlineUsers onlineDirectory p
      (profileUpsert onlineUsers onlineDirectory p prev)
    = profileUpsert onlineUsers onlineDirectory p prev.
Proof.
  intros Hnd.
  remember (profileUpsert onlineUsers onlineDirectory p prev) as next eqn:Hnext.
  unfold profileUpsert in Hnext.
  set (rename := λ c, if bool_decide (c_user_id c = p_user_id p)
                      then set_profile (p_name p) (p_profile_picture p) c else c).
  assert (∀ c, c_user_id (rename c) = c_user_id c) as Hid
    by (intros c; unfold rename; by destruct (bool_decide (c_user_id c = p_user_id p))).
  assert (∀ c, rename (rename c) = rename c) as Hidem.
  { intros c. unfold rename.
    destruct (bool_decide (c_user_id c = p_user_id p)) eqn:Hc; [|by rewrite Hc].
    cbn. apply bool_decide_eq_true in Hc. by rewrite bool_decide_true. }
  fold rename in Hnext. case_bool_decide as Hex; subst next.
  - split; [|split; [|split]].
    + rewrite <- list_fmap_compose.
      rewrite (list_fmap_ext (c_user_id ∘ rename) c_user_id prev); [done|].
      intros i c _. apply Hid.
    + intros c' (c & -> & _)%list_elem_of_fmap. rewrite Hid. intros Hc.
      unfold rename. by rewrite bool_decide_true.
    + apply Exists_exists in Hex as (c & Hc & <-).
      apply list_elem_of_fmap. exists (rename c).
      split; [by rewrite Hid|by apply list_elem_of_fmap_2].
    + unfold profileUpsert. fold rename. rewrite bool_decide_true.
      * rewrite <- list_fmap_compose. apply list_fmap_ext. intros; apply Hidem.
      * apply Exists_exists in Hex as (c & Hc & Hc').
        apply Exists_exists. exists (rename c).
        split; [by apply list_elem_of_fmap_2|by rewrite Hid].
  - split; [|split; [|split]].
    + rewrite fmap_cons. apply NoDup_cons. split; [|done]. cbn.
      intros (c & Hc & Hin)%list_elem_of_fmap. apply Hex, Exists_exists. eauto.
    + intros c [->|Hc]%elem_of_cons; [done|]. intros Hc'.
      destruct Hex. apply Exists_exists. eauto.
    + rewrite fmap_cons. left.
    + unfold profileUpsert. fold rename. rewrite bool_decide_true by (by left).
      rewrite fmap_cons. f_equal.
      * unfold rename. cbn. by rewrite bool_decide_true.
      * apply fmap_id_on. intros c Hc. unfold rename. rewrite bool_decide_false; [done|].
        intros Hc'. apply Hex, Exists_exists. eauto.
Qed.

Lemma profileUpsert_replay_witness :
  NoDup (c_user_id <$> profileUpsert ∅ []
           {| p_user_id := bob; p_name := "Robert"; p_profile_picture := None |}
           alice_conversations).
Proof.
  apply (profileUpsert_replay ∅ []
           {| p_user_id := bob; p_name := "Robert"; p_profile_picture := None |}
           alice_conversations).
  apply (bool_decide_unpack _). vm_compute. exact I.
Defined.

Lemma eq_bool_decide (b : bool) (P : Prop) `{!Decision P} :
  b = bool_decide P ↔ (b = true ↔ P).
Proof. destruct b; case_bool_decide; intuition congruence. Qed.

Lemma elem_of_statusOnlineUsers status online k :
  k ∈ statusOnlineUsers status online
  ↔ (s_is_online status = true ∧ (k ∈ online ∨ k = s_user_id status))
    ∨ (s_is_online status = false ∧ k ∈ online ∧ k ≠ s_user_id status).
Proof.
  unfold statusOnlineUsers. destruct (s_is_online status).
  - rewrite elem_of_union, elem_of_singleton. intuition congruence.
  - rewrite elem_of_difference, elem_of_singleton. intuition congruence.
Qed.

(** One presence row keeps the list and the set in agreement on the users
    seen so far, and brings them into agreement on its own user. *)
Lemma statusConversations_agree dir status online cs (seen : string → Prop) :
  well_keyed dir →
  (∀ c, c ∈ cs → seen (c_user_id c) → c_is_online c = bool_decide (c_user_id c ∈ online)) →
  ∀ c, c ∈ statusConversations dir status cs →
    c_user_id c = s_user_id status ∨ seen (c_user_id c) →
    c_is_online c = bool_decide (c_user_id c ∈ statusOnlineUsers status online).
Proof.
  intros Hdir Hcs c Hc Hseen. apply eq_bool_decide.
  rewrite elem_of_statusOnlineUsers.
  assert (∀ c0, c0 ∈ cs → c_user_id c0 ≠ s_user_id status →
            c_user_id c0 = s_user_id status ∨ seen (c_user_id c0) →
            c_is_online c0 = true ↔ c_user_id c0 ∈ online) as Hother.
  { intros c0 Hc0 Hne [?|Hs]; [done|]. by apply (proj1 (eq_bool_decide _ _)), Hcs. }
  unfold statusConversations in Hc.
  destruct (s_is_online status) eqn:Hon.
  - case_bool_decide as Hex.
    + apply list_elem_of_fmap in Hc as (c0 & -> & Hc0).
      case_bool_decide as Hid0; [cbn; intuition|].
      rewrite (Hother c0 Hc0 Hid0 Hseen). intuition congruence.
    + assert (c ∈ cs →
              c_is_online c = true
              ↔ true = true ∧ (c_user_id c ∈ online ∨ c_user_id c = s_user_id status)
                ∨ true = false ∧ c_user_id c ∈ online ∧ c_user_id c ≠ s_user_id status)
        as Hold.
      { intros Hc0.
        assert (c_user_id c ≠ s_user_id status) as Hne
          by (intros Heq; apply Hex, Exists_exists; eauto).
        rewrite (Hother c Hc0 Hne Hseen). intuition congruence. }
      destruct (JsMap.get (s_user_id status) dir) as [minimal|] eqn:Hget; [|by apply Hold].
      apply elem_of_cons in Hc as [->|Hc0]; [|by apply Hold].
      cbn. rewrite (Hdir _ _ Hget). intuition.
  - apply list_elem_of_fmap in Hc as (c0 & -> & Hc0).
    case_bool_decide as Hid0; [cbn; intuition congruence|].
    rewrite (Hother c0 Hc0 Hid0 Hseen). intuition congruence.
Qed.

Lemma statusConversations_listed dir status cs k :
  k ∈ c_user_id <$> cs → k ∈ c_user_id <$> statusConversations dir status cs.
Proof.
  intros Hk. unfold statusConversations.
  assert (∀ b last, c_user_id <$> ((λ c, if bool_decide (c_user_id c = s_user_id status)
                                         then set_presence b last c else c) <$> cs)
                    = c_user_id <$> cs) as Hmap.
  { intros b last. rewrite <- list_fmap_compose. apply list_fmap_ext.
    intros i c _. cbn. by case_bool_decide. }
  destruct (s_is_online status); [|by rewrite Hmap].
  case_bool_decide; [by rewrite Hmap|].
  destruct (JsMap.get (s_user_id status) dir); [|done].
  rewrite fmap_cons. by right.
Qed.

Lemma resolvedInsert_cases status list prev c :
  c ∈ resolvedInsert status list prev →
  c_user_id c = s_user_id status ∨ c ∈ prev.
Proof.
  unfold resolvedInsert.
  destruct (list_find _ list) as [[i found]|] eqn:Hfind; [|by right].
  apply list_find_Some in Hfind as (_ & Hid & _).
  intros [->|?]%elem_of_cons; [by left|by right].
Qed.

Lemma resolvedInsert_listed status list prev k :
  k ∈ c_user_id <$> prev → k ∈ c_user_id <$> resolvedInsert status list prev.
Proof.
  unfold resolvedInsert. destruct (list_find _ list) as [[i found]|]; [|done].
  rewrite fmap_cons. by right.
Qed.

Lemma startsFetch_unknown dir status prev cs0 :
  (∀ k, k ∈ c_user_id <$> cs0 → k ∈ c_user_id <$> prev) →
  startsFetch dir status prev = true →
  ¬ known dir cs0 (s_user_id status).
Proof.
  intros Hlisted [[_ Hex%negb_true_iff]%andb_true_iff Hdir%negb_true_iff]%andb_true_iff.
  apply bool_decide_eq_false in Hex. unfold JsMap.has in Hdir.
  intros [(c & Hid & Hc)%Hlisted%list_elem_of_fmap|[d Hd]].
  - apply Hex, Exists_exists. by exists c.
  - by rewrite Hd in Hdir.
Qed.

Lemma presence_step_inv dir cs0 (seen : string → Prop) st ev :
  well_keyed dir →
  replay_inv dir cs0 seen st →
  replay_inv dir cs0
    (λ k, seen k ∨ match ev with
                   | RowArrives status => k = s_user_id status
                   | FetchResolves _ _ => False
                   end)
    (presence_step dir st ev).
Proof.
  intros Hdir (Hfetch & Hlisted & Hagree).
  destruct ev as [status|i list]; cbn [presence_step].
  - split; [|split]; cbn [ps_fetching ps_conversations ps_onlineUsers].
    + intros s Hs.
      destruct (startsFetch dir status (ps_conversations st)) eqn:Hstart;
        [|by apply Hfetch].
      apply elem_of_app in Hs as [?| ->%list_elem_of_singleton]; [by apply Hfetch|].
      by eapply startsFetch_unknown.
    + intros k Hk. by apply statusConversations_listed, Hlisted.
    + intros c Hc [Hknown Hseen].
      apply (statusConversations_agree dir status (ps_onlineUsers st)
               (ps_conversations st)
               (λ k, known dir cs0 k ∧ seen k)); [done| |done|].
      * intros c0 Hc0 Hc0seen. by apply Hagree.
      * destruct Hseen as [?| ->]; [by right|]. by left.
  - destruct (ps_fetching st !! i) as [status|] eqn:Hi.
    + split; [|split]; cbn [ps_fetching ps_conversations ps_onlineUsers].
      * intros s Hs%list_elem_of_delete_inv. by apply Hfetch.
      * intros k Hk. by apply resolvedInsert_listed, Hlisted.
      * intros c [Hid|Hc]%resolvedInsert_cases [Hknown Hseen].
        -- exfalso. rewrite Hid in Hknown.
           by apply (Hfetch status); [eapply list_elem_of_lookup_2|].
        -- apply Hagree; [done|]. split; [done|]. by destruct Hseen.
    + split; [done|]. split; [done|].
      intros c Hc [Hknown Hseen]. apply Hagree; [done|]. split; [done|].
      by destruct Hseen.
Qed.

Lemma replay_inv_seen dir cs0 (seen seen' : string → Prop) st :
  (∀ k, seen' k → seen k) → replay_inv dir cs0 seen st → replay_inv dir cs0 seen' st.
Proof.
  intros Hsub (? & ? & Hagree). split; [done|]. split; [done|].
  intros c Hc [? ?]. apply Hagree; auto.
Qed.

Lemma presence_replay_inv dir cs0 online0 events :
  well_keyed dir →
  replay_inv dir cs0 (λ k, k ∈ row_users events)
    (presence_replay dir events (mounted online0 cs0)).
Proof.
  intros Hdir. unfold presence_replay, row_users.
  induction events as [|ev l IH] using rev_ind.
  - split; [|split]; cbn.
    + by intros s ?%elem_of_nil.
    + done.
    + by intros c _ [_ ?%elem_of_nil].
  - rewrite foldl_app. cbn [foldl].
    eapply replay_inv_seen; [|by apply presence_step_inv].
    intros k. rewrite bind_app, elem_of_app. intros [?|Hk]; [by left|right].
    destruct ev; cbn in Hk.
    + by apply list_elem_of_singleton in Hk.
    + by apply elem_of_nil in Hk.
Qed.

(** X19. While presence rows arrive and the fetches they start resolve, in
    any order, the list and the set of users online agree on every listed
    user who was known to the page from the start (listed at the start, or
    in the captured directory) and whose row occurred: the entry is flagged
    online exactly when the user is in the set (the captured directory
    holding every entry under its own identifier). *)
Theorem presence_replay_agrees onlineDirectory events online0 cs0 c :
  well_keyed onlineDirectory →
  c ∈ ps_conversations (presence_replay onlineDirectory events (mounted online0 cs0)) →
  c_user_id c ∈ row_users events →
  known onlineDirectory cs0 (c_user_id c) →
  c_is_online c
  = bool_decide
      (c_user_id c
       ∈ ps_onlineUsers (presence_replay onlineDirectory events (mounted online0 cs0))).
Proof.
  intros Hdir Hc Hseen Hknown.
  destruct (presence_replay_inv onlineDirectory cs0 online0 events Hdir)
    as (_ & _ & Hagree).
  by apply Hagree.
Qed.

(** A user unknown to the page: a row online, a row offline, and then the
    answer to the fetch of the first row leave an entry flagged online for a
    user who is not in the set. *)
Lemma late_fetch_disagrees :
  let dan := {| s_user_id := "d4"; s_is_online := true; s_last_seen := 60 |} in
  let gone := {| s_user_id := "d4"; s_is_online := false; s_last_seen := 61 |} in
  let answer := [{| d_user_id := "d4"; d_name := "Dan"; d_profile_picture := None;
                    d_last_seen := Some 60%Z |}] in
  let st := presence_replay [] [RowArrives dan; RowArrives gone; FetchResolves 0 answer]
              (mounted ∅ []) in
  (c_user_id <$> ps_conversations st, c_is_online <$> ps_conversations st)
    = (["d4"], [true])
  ∧ "d4" ∉ ps_onlineUsers st.
Proof.
  split; [reflexivity|]. cbn.
  rewrite elem_of_difference, elem_of_singleton. tauto.
Qed.

Lemma presence_replay_agrees_witness :
  Forall (λ c,
    c_user_id c ∈ [bob; carol] →
    c_is_online c
    = bool_decide
        (c_user_id c
         ∈ ps_onlineUsers
             (presence_replay []
                [RowArrives {| s_user_id := bob; s_is_online := true; s_last_seen := 60 |};
                 RowArrives {| s_user_id := carol; s_is_online := false; s_last_seen := 61 |}]
                (mounted ∅ alice_conversations))))
    (ps_conversations
       (presence_replay []
          [RowArrives {| s_user_id := bob; s_is_online := true; s_last_seen := 60 |};
           RowArrives {| s_user_id := carol; s_is_online := false; s_last_seen := 61 |}]
          (mounted ∅ alice_conversations))).
Proof.
  apply Forall_forall. intros c Hc Hseen.
  apply (presence_replay_agrees []
           [RowArrives {| s_user_id := bob; s_is_online := true; s_last_seen := 60 |};
            RowArrives {| s_user_id := carol; s_is_online := false; s_last_seen := 61 |}]
           ∅ alice_conversations c).
  - intros k d Hget. discriminate Hget.
  - exact Hc.
  - exact Hseen.
  - left. vm_compute in Hc. vm_compute.
    repeat (apply elem_of_cons in Hc as [->|Hc]; [repeat constructor|]).
    by apply elem_of_nil in Hc.
Defined.

(** X20. After any sequence of typing rows, a user is shown as typing
    exactly when the last row of that user addressed to the page's user says
    so; rows addressed to others are ignored, and a user without such row
    keeps the initial state. *)
Theorem typingChange_last_writer userId events start uid :
  uid ∈ foldl (λ st typing, typingChange userId typing st) start events
  ↔ match last (filter (λ e, ti_target_user_id e = userId ∧ ti_user_id e = uid) events) with
    | Some e => ti_is_typing e = true
    | None => uid ∈ start
    end.
Proof.
  induction events as [|e l IH] using rev_ind; [done|].
  rewrite foldl_app, filter_app. cbn [foldl]. unfold typingChange at 1.
  rewrite filter_cons, filter_nil.
  case_bool_decide as Htarget.
  - destruct (decide (ti_user_id e = uid)) as [Hu|Hu].
    + rewrite decide_True by done. rewrite last_snoc.
      destruct (ti_is_typing e);
        rewrite ?elem_of_union, ?elem_of_difference, elem_of_singleton;
        intuition congruence.
    + rewrite decide_False by tauto. rewrite app_nil_r, <- IH.
      destruct (ti_is_typing e);
        rewrite ?elem_of_union, ?elem_of_difference, elem_of_singleton;
        intuition congruence.
  - rewrite decide_False by tauto. by rewrite app_nil_r.
Qed.

(** ** Loading a conversation *)



(** ** Sending from the page *)

(** [sendMessage] of the service returns in every world. *)
Lemma sendMessage_returns senderId receiverId content messageType replyTo w :
  ∃ r w', sendMessage senderId receiverId content messageType replyTo w = (Returned r, w').
Proof.
  unfold sendMessage, insert_message, select_profile_single, broadcastPairMessage.
  mstep. case_script; by eexists _, _.
Qed.

(** X22. [sendMessage] of the page, on a non-blank draft while idle, always
    returns with [sending] reset and with one of two outcomes: the service
    returned a message, which is appended to the thread and to the
    conversation list while the draft is cleared; or the service returned
    [null], the thread and the list are unchanged, the trimmed draft is
    restored and the first alert is raised.  The alert for an unexpected
    error is never raised. *)
Theorem pageSendMessage_outcome trim onlineUsers uid selected st w :
  trim (pg_newMessage st) ≠ "" → pg_sending st = false →
  ∃ st' w',
    pageSendMessage trim onlineUsers (Some uid) (Some selected) st w = (Returned st', w')
    ∧ pg_sending st' = false
    ∧ ((∃ m,
          sendMessage uid selected (trim (pg_newMessage st)) text None w
            = (Returned (Some m), w')
          ∧ pg_messages st' = pg_messages st ++ [m]
          ∧ pg_conversations st'
            = updateConversationsList uid onlineUsers m (pg_conversations st)
          ∧ pg_newMessage st' = "" ∧ pg_alerts st' = pg_alerts st)
       ∨ (sendMessage uid selected (trim (pg_newMessage st)) text None w
            = (Returned None, w')
          ∧ pg_messages st' = pg_messages st
          ∧ pg_conversations st' = pg_conversations st
          ∧ pg_newMessage st' = trim (pg_newMessage st)
          ∧ pg_alerts st'
            = pg_alerts st ++ ["Failed to send message. Please ensure you are signed in and permitted."])).
Proof.
  intros Hdraft Hidle. unfold pageSendMessage.
  rewrite bool_decide_false, Hidle by done. cbn [orb].
  destruct (sendMessage_returns uid selected (trim (pg_newMessage st)) text None w)
    as ([m|] & w' & Hrun);
    unfold try_catch, mbind, M_bind; rewrite Hrun; cbn;
    eexists _, _; (split; [reflexivity|]); (split; [done|]).
  - left. by exists m.
  - by right.
Qed.

Lemma pageSendMessage_outcome_witness :
  ∃ st' w',
    pageSendMessage (λ s, s) ∅ (Some alice) (Some bob)
      {| pg_messages := []; pg_conversations := []; pg_newMessage := "hi";
         pg_sending := false; pg_alerts := [] |} throwing_world
      = (Returned st', w')
    ∧ pg_sending st' = false.
Proof.
  destruct (pageSendMessage_outcome (λ s, s) ∅ alice bob
              {| pg_messages := []; pg_conversations := []; pg_newMessage := "hi";
                 pg_sending := false; pg_alerts := [] |} throwing_world)
    as (st' & w' & Hrun & Hidle & _); [discriminate|reflexivity|].
  by exists st', w'.
Defined.

(** ** Typing *)

(** The typing indicator fails before it reaches the store; a registered
    timeout of the pair aside, it only logs. *)
Lemma sendTypingIndicator_logs userId targetUserId isTyping w :
  typingTimeouts w !! (userId +:+ "-" +:+ targetUserId) = None →
  sendTypingIndicator userId targetUserId isTyping w
  = (Returned (), with_console (λ c, c ++ ["Error sending typing indicator:"]) w).
Proof.
  intros Hnone. unfold sendTypingIndicator, identifier. mstep. by rewrite Hnone.
Qed.

(** One keystroke.  The pending timeout of the page, if any, is the last
    one queued; handles are handed out in increasing order. *)
Lemma handleTyping_step userId selectedUserId w ts ref :
  typingTimeouts w !! (userId +:+ "-" +:+ selectedUserId) = None →
  timers w = ts ++ pending_stop userId selectedUserId ref →
  Forall (λ t, t_handle t < timer_next w)%nat (timers w) →
  NoDup (t_handle <$> timers w) →
  ∃ w',
    handleTyping userId selectedUserId ref w = (Returned (Some (timer_next w)), w')
    ∧ timers w' = ts ++ pending_stop userId selectedUserId (Some (timer_next w))
    ∧ timer_next w' = S (timer_next w)
    ∧ console w' = console w ++ ["Error sending typing indicator:"]
    ∧ typing_indicators w' = typing_indicators w
    ∧ net w' = net w
    ∧ typingTimeouts w' = typingTimeouts w.
Proof.
  intros Hkey Hts Hlt Hnd. unfold handleTyping.
  unfold mbind at 1 2 3, M_bind at 1 2 3.
  rewrite (sendTypingIndicator_logs _ _ _ _ Hkey).
  destruct ref as [h|]; cbn [pending_stop] in Hts; mstep.
  - assert (filter (λ t, t_handle t ≠ h) (timers w) = ts) as Hclear.
    { rewrite Hts, filter_app, filter_cons_False, filter_nil, app_nil_r by (cbn; tauto).
      apply filter_all. rewrite Hts, fmap_app in Hnd.
      apply NoDup_app in Hnd as (_ & Hdisj & _).
      apply Forall_forall. intros t Ht Heq. apply (Hdisj (t_handle t)).
      + by apply list_elem_of_fmap_2.
      + rewrite Heq. cbn. left. }
    eexists. split; [reflexivity|]. cbn. by rewrite Hclear.
  - rewrite app_nil_r in Hts.
    eexists. split; [reflexivity|]. cbn. by rewrite Hts.
Qed.

(** X23. Typing is debounced in the page only: after [n + 1] keystrokes in
    a row, exactly one timeout of the page is pending (behind the timeouts
    that were pending before), every keystroke has logged the failure of
    the typing indicator, no typing row was written and no request was
    sent. *)
Theorem keystrokes_debounce userId selectedUserId n w :
  typingTimeouts w !! (userId +:+ "-" +:+ selectedUserId) = None →
  Forall (λ t, t_handle t < timer_next w)%nat (timers w) →
  NoDup (t_handle <$> timers w) →
  ∃ w',
    keystrokes userId selectedUserId (S n) None w
      = (Returned (Some (timer_next w + n)%nat), w')
    ∧ timers w' = timers w ++ [{| t_handle := (timer_next w + n)%nat; t_delay := 1000;
                                  t_action := StopTyping userId selectedUserId |}]
    ∧ console w' = console w ++ replicate (S n) "Error sending typing indicator:"
    ∧ typing_indicators w' = typing_indicators w
    ∧ net w' = net w.
Proof.
  assert (∀ n w ref ts,
            typingTimeouts w !! (userId +:+ "-" +:+ selectedUserId) = None →
            timers w = ts ++ pending_stop userId selectedUserId ref →
            Forall (λ t, t_handle t < timer_next w)%nat (timers w) →
            NoDup (t_handle <$> timers w) →
            ∃ w',
              keystrokes userId selectedUserId (S n) ref w
                = (Returned (Some (timer_next w + n)%nat), w')
              ∧ timers w' = ts ++ pending_stop userId selectedUserId
                                    (Some (timer_next w + n)%nat)
              ∧ console w' = console w ++ replicate (S n) "Error sending typing indicator:"
              ∧ typing_indicators w' = typing_indicators w
              ∧ net w' = net w) as Hgen.
  { clear n w. induction n as [|n IH]; intros w ref ts Hkey Hts Hlt Hnd;
      destruct (handleTyping_step userId selectedUserId w ts ref Hkey Hts Hlt Hnd)
        as (w1 & Hrun1 & Hts1 & Hnext1 & Hc1 & Hti1 & Hnet1 & Hkey1).
    - exists w1. cbn [keystrokes]. unfold mbind, M_bind. rewrite Hrun1.
      split; [by rewrite Nat.add_0_r|]. rewrite Nat.add_0_r. done.
    - destruct (IH w1 (Some (timer_next w)) ts) as (w2 & Hrun2 & Hts2 & Hc2 & Hti2 & Hnet2).
      + by rewrite Hkey1.
      + done.
      + rewrite Hts1, Hnext1. apply Forall_app. split.
        * rewrite Hts in Hlt. apply Forall_app in Hlt as [Hlt _].
          eapply Forall_impl; [exact Hlt|]. cbn. intros t ?. lia.
        * repeat constructor.
      + rewrite Hts1, fmap_app. apply NoDup_app. split; [|split].
        * rewrite Hts, fmap_app in Hnd. by apply NoDup_app in Hnd as (? & _).
        * intros h Hh ->%list_elem_of_singleton.
          rewrite Hts in Hlt. apply Forall_app in Hlt as [Hlt _].
          apply list_elem_of_fmap in Hh as (t & Heq & Ht).
          rewrite Forall_forall in Hlt. specialize (Hlt t Ht). cbn in *. lia.
        * apply NoDup_singleton.
      + exists w2.
        change (keystrokes userId selectedUserId (S (S n)) ref)
          with (ref' ← handleTyping userId selectedUserId ref;
                keystrokes userId selectedUserId (S n) ref').
        unfold mbind at 1, M_bind at 1. rewrite Hrun1, Hrun2, Hnext1.
        split; [do 3 f_equal; lia|]. rewrite Hts2, Hc2, Hc1, Hti2, Hnet2, Hnext1.
        replace (S (timer_next w) + n)%nat with (timer_next w + S n)%nat by lia.
        split; [done|]. split; [|done].
        rewrite <- app_assoc. f_equal. }
  intros Hkey Hlt Hnd. apply Hgen; [done| |done|done].
  cbn. by rewrite app_nil_r.
Qed.

Lemma keystrokes_debounce_witness :
  ∃ w',
    keystrokes alice bob 3 None sent_world
      = (Returned (Some (timer_next sent_world + 2)%nat), w')
    ∧ timers w' = timers sent_world
                  ++ [{| t_handle := (timer_next sent_world + 2)%nat; t_delay := 1000;
                         t_action := StopTyping alice bob |}]
    ∧ console w' = console sent_world ++ replicate 3 "Error sending typing indicator:"
    ∧ typing_indicators w' = typing_indicators sent_world
    ∧ net w' = net sent_world.
Proof.
  apply (keystrokes_debounce alice bob 2 sent_world).
  - reflexivity.
  - repeat constructor.
  - apply (bool_decide_unpack _). vm_compute. exact I.
Defined.

(** ** Time stamps *)

(** X24. [formatTime] shows ["Just now"] below one minute, also for
    instants in the future; a number of minutes between 1 and 59 below one
    hour; a number of hours between 1 and 23 below one day, each rounded
    down; and the date from one day on. *)
Theorem formatTime_ranges toLocaleDateString now timestamp :
  ((now - timestamp < 60000)%Z →
   formatTime toLocaleDateString now timestamp = "Just now")
  ∧ ((60000 ≤ now - timestamp < 3600000)%Z →
     ∃ minutes, (1 ≤ minutes ≤ 59)%Z
       ∧ (minutes * 60000 ≤ now - timestamp < (minutes + 1) * 60000)%Z
       ∧ formatTime toLocaleDateString now timestamp = pretty minutes +:+ "m ago")
  ∧ ((3600000 ≤ now - timestamp < 86400000)%Z →
     ∃ hours, (1 ≤ hours ≤ 23)%Z
       ∧ (hours * 3600000 ≤ now - timestamp < (hours + 1) * 3600000)%Z
       ∧ formatTime toLocaleDateString now timestamp = pretty hours +:+ "h ago")
  ∧ ((86400000 ≤ now - timestamp)%Z →
     formatTime toLocaleDateString now timestamp = toLocaleDateString timestamp).
Proof.
  unfold formatTime. set (diff := (now - timestamp)%Z).
  split; [|split; [|split]]; intros Hdiff.
  - by rewrite bool_decide_true.
  - rewrite bool_decide_false, bool_decide_true by lia.
    exists (diff `div` 60000)%Z.
    pose proof (Z.div_mod diff 60000 ltac:(lia)).
    pose proof (Z.mod_pos_bound diff 60000 ltac:(lia)).
    split; [|split; [|done]]; lia.
  - rewrite !bool_decide_false, bool_decide_true by lia.
    exists (diff `div` 3600000)%Z.
    pose proof (Z.div_mod diff 3600000 ltac:(lia)).
    pose proof (Z.mod_pos_bound diff 3600000 ltac:(lia)).
    split; [|split; [|done]]; lia.
  - by rewrite !bool_decide_false by lia.
Qed.

Lemma formatTime_ranges_witness :
  ∃ minutes, (1 ≤ minutes ≤ 59)%Z
    ∧ (minutes * 60000 ≤ 200000 - 20000 < (minutes + 1) * 60000)%Z
    ∧ formatTime (λ _, "1/1/2025") 200000 20000 = pretty minutes +:+ "m ago".
Proof.
  destruct (formatTime_ranges (λ _, "1/1/2025") 200000 20000) as (_ & Hminutes & _).
  apply Hminutes. lia.
Defined.

(** ** A broadcast that throws *)

(** X25. When the insert and the profile lookups are served, the first
    broadcast throws and the second goes through, [sendMessage] still
    returns the stored row, now without the users attached, has scheduled
    the promotion of the message twice and has handed the message to the
    channel once. *)
Theorem sendMessage_broadcast_retry senderId receiverId content messageType replyTo w rest :
  ¬ (uuids w (uuid_next w) ∈ m_id <$> messages w) →
  net w = [Healthy; Healthy; Healthy; Throw] ++ rest →
  hd Healthy rest = Healthy →
  ∃ w1,
    sendMessage senderId receiverId content messageType replyTo w
      = (Returned (Some (inserted_row w senderId receiverId content)), w1)
    ∧ messages w1 = messages w ++ [inserted_row w senderId receiverId content]
    ∧ timers w1
      = timers w
        ++ [promotion_timer w (uuids w (uuid_next w));
            {| t_handle := S (timer_next w); t_delay := 800;
               t_action := BumpDelivered (uuids w (uuid_next w)) |}]
    ∧ outbox w1
      = outbox w ++ [(buildPairRoom senderId receiverId,
                      inserted_row w senderId receiverId content)]
    ∧ console w1 = console w.
Proof.
  intros Hfresh Hnet Hrest.
  assert (hd Healthy (net w) = Healthy
          ∧ hd Healthy (tail (net w)) = Healthy
          ∧ hd Healthy (tail (tail (net w))) = Healthy
          ∧ hd Healthy (tail (tail (tail (net w)))) = Throw
          ∧ hd Healthy (tail (tail (tail (tail (net w))))) = Healthy)
    as (H0 & H1 & H2 & H3 & H4) by (by rewrite Hnet).
  unfold sendMessage, insert_message, select_profile_single, broadcastPairMessage.
  mstep. rewrite H0. mstep. rewrite (bool_decide_false _ Hfresh). mstep.
  rewrite H1. mstep. rewrite H2. mstep. cbn [m_sender_id m_receiver_id].
  destruct (filter (λ p, p_user_id p = senderId) (profiles w)) as [|? [|? ?]];
    destruct (filter (λ p, p_user_id p = receiverId) (profiles w)) as [|? [|? ?]];
    mstep;
    destruct (channels w !! buildPairRoom senderId receiverId) eqn:Hroom; mstep;
    rewrite H3; mstep; rewrite ?lookup_insert_eq, ?Hroom; mstep;
    rewrite H4; mstep;
    (eexists; split; [reflexivity|]); cbn; rewrite <- ?app_assoc; done.
Qed.

Lemma sendMessage_broadcast_retry_witness :
  ∃ w1,
    sendMessage alice bob "yo" text None flaky_world
      = (Returned (Some (inserted_row flaky_world alice bob "yo")), w1)
    ∧ messages w1 = messages flaky_world ++ [inserted_row flaky_world alice bob "yo"]
    ∧ timers w1
      = timers flaky_world
        ++ [promotion_timer flaky_world (uuids flaky_world (uuid_next flaky_world));
            {| t_handle := S (timer_next flaky_world); t_delay := 800;
               t_action := BumpDelivered (uuids flaky_world (uuid_next flaky_world)) |}]
    ∧ outbox w1
      = outbox flaky_world ++ [(buildPairRoom alice bob,
                                inserted_row flaky_world alice bob "yo")]
    ∧ console w1 = console flaky_world.
Proof.
  apply (sendMessage_broadcast_retry alice bob "yo" text None flaky_world []).
  - apply (bool_decide_unpack _). vm_compute. exact I.
  - reflexivity.
  - reflexivity.
Defined.

(** ** Names and presence in the previews *)

Section hydration.
Context (userId : string).
Import JsMap JsMapFacts.

(** What the scan stores in a preview besides the counts. *)
Lemma scan_defaults l k c :
  get k (foldl (scan_message userId) JsMap.empty l) = Some c →
  c_name c = "Unknown User" ∧ c_is_online c = false ∧ c_last_seen c = None.
Proof.
  revert k c. induction l as [|m l IH] using rev_ind; intros k c; [done|].
  rewrite foldl_app. cbn [foldl]. unfold scan_message at 1.
  set (k0 := if bool_decide (m_sender_id m = userId) then m_receiver_id m else m_sender_id m).
  destruct (get k0 (foldl (scan_message userId) JsMap.empty l)) as [c0|] eqn:Hget.
  - case_bool_decide; [|apply IH].
    rewrite get_put. destruct (decide (k0 = k)) as [<-|]; [|apply IH].
    intros [= <-]. cbn. by apply (IH k0).
  - rewrite get_put. destruct (decide (k0 = k)) as [<-|]; [|apply IH].
    by intros [= <-].
Qed.

Lemma getConversations_quiet_maps w :
  quiet w →
  ∃ w',
    getConversations userId w
      = (Returned
           (values
              (forEach
                 (overlay_profile_status
                    (profile_map (keys (foldl (scan_message userId) JsMap.empty
                                          (rows_touching userId w))) w)
                    (status_map (keys (foldl (scan_message userId) JsMap.empty
                                         (rows_touching userId w))) w))
                 (foldl (scan_message userId) JsMap.empty (rows_touching userId w)))), w').
Proof.
  intros (H0 & H1 & H2)%quiet_script.
  unfold rows_touching, getConversations, select_messages, select_profiles_in,
    select_user_status_in, profile_map, status_map.
  mstep. rewrite H0. mstep.
  case_bool_decide as Hkeys; mstep.
  - rewrite H1. mstep. rewrite H2. mstep. by eexists.
  - apply values_no_keys in Hkeys. rewrite Hkeys.
    assert (∀ (f : string → ConversationPreview → ConversationPreview)
              (m : JsMap.t ConversationPreview), values m = [] → values (forEach f m) = [])
      as Hempty by (by intros f [|? ?]).
    rewrite (Hempty _ _ Hkeys). by eexists.
Qed.
End hydration.

(** X26. Without failures, a preview of [getConversations] shows the name
    of a profile row of its user, or ["Unknown User"] when the user has no
    profile; it shows the flag and the instant of a presence row of its
    user, or offline without instant when the user has none. *)
Theorem getConversations_hydration userId w :
  quiet w →
  ∃ cs w',
    getConversations userId w = (Returned cs, w')
    ∧ ∀ c, c ∈ cs →
        ((∃ p, p ∈ profiles w ∧ p_user_id p = c_user_id c ∧ c_name c = p_name p)
         ∨ ((∀ p, p ∈ profiles w → p_user_id p ≠ c_user_id c)
            ∧ c_name c = "Unknown User"))
        ∧ ((∃ s, s ∈ user_status w ∧ s_user_id s = c_user_id c
                 ∧ c_is_online c = s_is_online s
                 ∧ c_last_seen c = Some (s_last_seen s))
           ∨ ((∀ s, s ∈ user_status w → s_user_id s ≠ c_user_id c)
              ∧ c_is_online c = false ∧ c_last_seen c = None)).
Proof.
  intros (w' & Hrun)%(getConversations_quiet_maps userId).
  eexists _, w'. split; [exact Hrun|]. intros c Hc.
  destruct (foldl_scan_inv userId (rows_touching userId w)) as (Hnd & _ & Hval).
  set (cm := foldl (scan_message userId) JsMap.empty (rows_touching userId w)) in *.
  apply JsMapFacts.elem_of_values in Hc as (k & Hk); [|by rewrite JsMapFacts.keys_forEach].
  rewrite JsMapFacts.get_forEach in Hk.
  destruct (JsMap.get k cm) as [c0|] eqn:Hc0; [|done]. injection Hk as <-.
  destruct (Hval _ _ Hc0) as [Hid _].
  destruct (scan_defaults userId _ _ _ Hc0) as (Hname & Hoff & Hseen).
  assert (k ∈ JsMap.keys cm) as Hkey by (apply JsMapFacts.elem_of_keys; eauto).
  unfold overlay_profile_status, profile_map, status_map.
  set (ps := filter (λ p, p_user_id p ∈ JsMap.keys cm) (profiles w)).
  set (ss := filter (λ s, s_user_id s ∈ JsMap.keys cm) (user_status w)).
  assert (∀ v, JsMap.get k (foldl (λ mp p, JsMap.put (p_user_id p)
                                (p_name p, or_undefined (p_profile_picture p)) mp)
                              JsMap.empty ps) = v →
            match v with
            | Some pv => ∃ p, p ∈ profiles w ∧ p_user_id p = k ∧ pv.1 = p_name p
            | None => ∀ p, p ∈ profiles w → p_user_id p ≠ k
            end) as Hprofile.
  { intros [pv|] Hget.
    - apply get_foldl_put in Hget as (p & [_ Hp]%list_elem_of_filter & Hpid & ->).
      by exists p.
    - intros p Hp Hpid.
      assert (p ∈ ps) as Hin by (apply list_elem_of_filter; by rewrite Hpid).
      destruct (is_Some_get_foldl_put p_user_id
                  (λ p, (p_name p, or_undefined (p_profile_picture p))) ps p Hin) as [? Hsome].
      rewrite Hpid in Hsome. congruence. }
  assert (∀ v, JsMap.get k (foldl (λ mp s, JsMap.put (s_user_id s)
                                (s_is_online s, Some (s_last_seen s)) mp)
                              JsMap.empty ss) = v →
            match v with
            | Some sv => ∃ s, s ∈ user_status w ∧ s_user_id s = k
                              ∧ sv = (s_is_online s, Some (s_last_seen s))
            | None => ∀ s, s ∈ user_status w → s_user_id s ≠ k
            end) as Hstatus.
  { intros [sv|] Hget.
    - apply get_foldl_put in Hget as (s & [_ Hs]%list_elem_of_filter & Hsid & ->).
      by exists s.
    - intros s Hs Hsid.
      assert (s ∈ ss) as Hin by (apply list_elem_of_filter; by rewrite Hsid).
      destruct (is_Some_get_foldl_put s_user_id
                  (λ s, (s_is_online s, Some (s_last_seen s))) ss s Hin) as [? Hsome].
      rewrite Hsid in Hsome. congruence. }
  specialize (Hprofile _ eq_refl). specialize (Hstatus _ eq_refl).
  destruct (JsMap.get k (foldl _ JsMap.empty ps)) as [pv|];
    destruct (JsMap.get k (foldl _ JsMap.empty ss)) as [sv|]; cbn; rewrite Hid; split.
  - left. destruct Hprofile as (p & ? & ? & ?). by exists p.
  - left. destruct Hstatus as (s & ? & ? & ->). by exists s.
  - left. destruct Hprofile as (p & ? & ? & ?). by exists p.
  - right. done.
  - by right.
  - left. destruct Hstatus as (s & ? & ? & ->). by exists s.
  - by right.
  - by right.
Qed.

Lemma getConversations_hydration_witness :
  ∃ cs w',
    getConversations alice quiet_world = (Returned cs, w')
    ∧ ∀ c, c ∈ cs →
        ((∃ p, p ∈ profiles quiet_world ∧ p_user_id p = c_user_id c ∧ c_name c = p_name p)
         ∨ ((∀ p, p ∈ profiles quiet_world → p_user_id p ≠ c_user_id c)
            ∧ c_name c = "Unknown User"))
        ∧ ((∃ s, s ∈ user_status quiet_world ∧ s_user_id s = c_user_id c
                 ∧ c_is_online c = s_is_online s
                 ∧ c_last_seen c = Some (s_last_seen s))
           ∨ ((∀ s, s ∈ user_status quiet_world → s_user_id s ≠ c_user_id c)
              ∧ c_is_online c = false ∧ c_last_seen c = None)).
Proof. apply (getConversations_hydration alice quiet_world). constructor. Defined.

(** ** The users attached to fetched messages *)

Lemma profile_map_get ids w k :
  k ∈ ids →
  match JsMap.get k (profile_map ids w) with
  | Some pv => ∃ p, p ∈ profiles w ∧ p_user_id p = k
                    ∧ pv = (p_name p, or_undefined (p_profile_picture p))
  | None => ∀ p, p ∈ profiles w → p_user_id p ≠ k
  end.
Proof.
  intros Hk. unfold profile_map.
  destruct (JsMap.get k _) as [pv|] eqn:Hget.
  - apply get_foldl_put in Hget as (p & [_ Hp]%list_elem_of_filter & Hpid & ->).
    by exists p.
  - intros p Hp Hpid.
    assert (p ∈ filter (λ p, p_user_id p ∈ ids) (profiles w)) as Hin
      by (apply list_elem_of_filter; by rewrite Hpid).
    destruct (is_Some_get_foldl_put p_user_id
                (λ p, (p_name p, or_undefined (p_profile_picture p))) _ p Hin) as [? Hsome].
    rewrite Hpid in Hsome. congruence.
Qed.

Lemma getMessages_quiet_maps userId1 userId2 limit offset w :
  quiet w → (0 ≤ limit)%Z → (0 ≤ offset)%Z →
  let rows := take (Z.to_nat limit) (drop (Z.to_nat offset) (history userId1 userId2 w)) in
  let profMap :=
    profile_map (remove_dups (rows ≫= λ m, [m_sender_id m; m_receiver_id m])) w in
  ∃ w',
    getMessages userId1 userId2 limit offset w
      = (Returned ((λ row, message_of_row row (ref_of profMap (m_sender_id row))
                                              (ref_of profMap (m_receiver_id row)))
                     <$> rows), w').
Proof.
  intros (H0 & H1 & _)%quiet_script Hlimit Hoffset.
  unfold history, pair_filter, getMessages, select_messages, select_profiles_in, range,
    profile_map.
  mstep. rewrite H0. mstep.
  rewrite bool_decide_false by lia. mstep. rewrite H1. mstep.
  replace (offset + limit - 1 - offset + 1)%Z with limit by lia.
  by eexists.
Qed.

(** X27. Without failures, the sender attached to a message by
    [getMessages] carries the sender's identifier and the name of a profile
    row of that user, and no sender is attached exactly when no profile row
    exists; likewise for the receiver. *)
Theorem getMessages_hydration userId1 userId2 limit offset w :
  quiet w → (0 ≤ limit)%Z → (0 ≤ offset)%Z →
  ∃ ms w',
    getMessages userId1 userId2 limit offset w = (Returned ms, w')
    ∧ ∀ x, x ∈ ms →
        match m_sender x with
        | Some ref =>
            ref_id ref = m_sender_id x
            ∧ ∃ p, p ∈ profiles w ∧ p_user_id p = m_sender_id x ∧ ref_name ref = p_name p
        | None => ∀ p, p ∈ profiles w → p_user_id p ≠ m_sender_id x
        end
        ∧ match m_receiver x with
          | Some ref =>
              ref_id ref = m_receiver_id x
              ∧ ∃ p, p ∈ profiles w ∧ p_user_id p = m_receiver_id x
                     ∧ ref_name ref = p_name p
          | None => ∀ p, p ∈ profiles w → p_user_id p ≠ m_receiver_id x
          end.
Proof.
  intros Hq Hlimit Hoffset.
  destruct (getMessages_quiet_maps userId1 userId2 limit offset w Hq Hlimit Hoffset)
    as (w' & Hrun).
  eexists _, w'. split; [exact Hrun|].
  intros x (row & -> & Hrow)%list_elem_of_fmap. cbn [m_sender m_receiver message_of_row
    m_sender_id m_receiver_id].
  set (rows := take _ _) in *.
  set (ids := remove_dups _).
  assert (m_sender_id row ∈ ids ∧ m_receiver_id row ∈ ids) as [Hs Hr].
  { split; apply elem_of_remove_dups, list_elem_of_bind; exists row;
      (split; [|done]); [left|right; left]. }
  pose proof (profile_map_get ids w _ Hs) as Hsender.
  pose proof (profile_map_get ids w _ Hr) as Hreceiver.
  unfold ref_of.
  destruct (JsMap.get (m_sender_id row) (profile_map ids w)) as [ps|];
    destruct (JsMap.get (m_receiver_id row) (profile_map ids w)) as [pr|]; cbn;
    repeat match goal with
           | H : ∃ p, _ |- _ => destruct H as (? & ? & ? & ->)
           end;
    repeat split; eauto.
Qed.

Lemma getMessages_hydration_witness :
  ∃ ms w',
    getMessages alice bob 50 0 quiet_world = (Returned ms, w')
    ∧ ∀ x, x ∈ ms →
        match m_sender x with
        | Some ref =>
            ref_id ref = m_sender_id x
            ∧ ∃ p, p ∈ profiles quiet_world ∧ p_user_id p = m_sender_id x
                   ∧ ref_name ref = p_name p
        | None => ∀ p, p ∈ profiles quiet_world → p_user_id p ≠ m_sender_id x
        end
        ∧ match m_receiver x with
          | Some ref =>
              ref_id ref = m_receiver_id x
              ∧ ∃ p, p ∈ profiles quiet_world ∧ p_user_id p = m_receiver_id x
                     ∧ ref_name ref = p_name p
          | None => ∀ p, p ∈ profiles quiet_world → p_user_id p ≠ m_receiver_id x
          end.
Proof.
  apply (getMessages_hydration alice bob 50 0 quiet_world).
  - constructor.
  - lia.
  - lia.
Defined.

(** ** Subscribing twice, and a message on its way *)

(** X28. Subscribing twice to the room of a pair registers the first
    callback only: the second call returns the room and leaves the client as
    it is, and a payload of the pair that arrives on the room invokes the
    first callback once and the second never. *)
Theorem subscribe_twice userId otherUserId first second w :
  channels w !! buildPairRoom userId otherUserId = None →
  ∃ w1 w2,
    subscribeToPairBroadcast userId otherUserId first w
      = (Returned (buildPairRoom userId otherUserId), w1)
    ∧ subscribeToPairBroadcast userId otherUserId second w1
      = (Returned (buildPairRoom userId otherUserId), w2)
    ∧ w2 = w1
    ∧ ∀ payload, between userId otherUserId payload →
        ∃ w3,
          deliver (buildPairRoom userId otherUserId) payload w2 = (Returned (), w3)
          ∧ calls w3 = calls w2 ++ [(first, payload)].
Proof.
  intros Hnew.
  set (w1 := with_channels
               (<[buildPairRoom userId otherUserId :=
                    [{| l_userId := userId; l_otherUserId := otherUserId;
                        l_onPairMessage := first |}]]>) w).
  exists w1, w1. unfold subscribeToPairBroadcast. mstep. rewrite Hnew. mstep.
  split; [reflexivity|]. subst w1. mstep. rewrite lookup_insert_eq. mstep.
  split; [reflexivity|]. split; [reflexivity|].
  intros payload Hpair. unfold deliver, on_dm. mrun. rewrite lookup_insert_eq. cbn.
  unfold between in Hpair.
  repeat case_bool_decide; cbn; eexists; (split; [reflexivity|]); cbn;
    try done; intuition congruence.
Qed.

Lemma subscribe_twice_witness :
  ∃ w1 w2,
    subscribeToPairBroadcast alice bob 7 quiet_world
      = (Returned (buildPairRoom alice bob), w1)
    ∧ subscribeToPairBroadcast alice bob 8 w1 = (Returned (buildPairRoom alice bob), w2)
    ∧ w2 = w1
    ∧ ∀ payload, between alice bob payload →
        ∃ w3,
          deliver (buildPairRoom alice bob) payload w2 = (Returned (), w3)
          ∧ calls w3 = calls w2 ++ [(7%nat, payload)].
Proof. apply (subscribe_twice alice bob 7 8 quiet_world). reflexivity. Defined.

(** X29. A message on its way: when a send succeeds without failures and
    the receiver's client has subscribed to the pair (naming the two users
    in its own order), the room the message is handed to is the room the
    receiver listens on, and delivering the message there invokes the
    receiver's callback once, with the message sent. *)
Theorem sent_message_reaches_peer
    senderId receiverId content messageType replyTo onPairMessage sender_w receiver_w :
  quiet sender_w →
  ¬ (uuids sender_w (uuid_next sender_w) ∈ m_id <$> messages sender_w) →
  channels receiver_w !! buildPairRoom receiverId senderId = None →
  ∃ m sender_w1 room receiver_w1 receiver_w2,
    sendMessage senderId receiverId content messageType replyTo sender_w
      = (Returned (Some m), sender_w1)
    ∧ outbox sender_w1 = outbox sender_w ++ [(room, m)]
    ∧ subscribeToPairBroadcast receiverId senderId onPairMessage receiver_w
      = (Returned room, receiver_w1)
    ∧ deliver room m receiver_w1 = (Returned (), receiver_w2)
    ∧ calls receiver_w2 = calls receiver_w ++ [(onPairMessage, m)]
    ∧ m_content m = content.
Proof.
  intros Hq Hfresh Hnew.
  assert (buildPairRoom receiverId senderId = buildPairRoom senderId receiverId) as Hroom.
  { unfold buildPairRoom, Array_sort, defaultCompare. cbn.
    rewrite (String.compare_antisym receiverId senderId).
    destruct (String.compare senderId receiverId) eqn:Hcmp; cbn; try done.
    apply String.compare_eq_iff in Hcmp. by subst. }
  assert (∃ m sender_w1,
            sendMessage senderId receiverId content messageType replyTo sender_w
              = (Returned (Some m), sender_w1)
            ∧ outbox sender_w1
              = outbox sender_w ++ [(buildPairRoom senderId receiverId, m)]
            ∧ m_sender_id m = senderId ∧ m_receiver_id m = receiverId
            ∧ m_content m = content) as (m & sender_w1 & Hrun & Hout & Hs & Hr & Hc).
  { pose proof Hq as (H0 & H1 & H2 & H3 & _)%quiet_script5.
    unfold sendMessage, insert_message, select_profile_single, broadcastPairMessage.
    mstep. rewrite H0. mstep. rewrite (bool_decide_false _ Hfresh). mstep.
    rewrite H1. mstep. rewrite H2. mstep. cbn [m_sender_id m_receiver_id].
    destruct (filter (λ p, p_user_id p = senderId) (profiles sender_w)) as [|? [|? ?]];
      destruct (filter (λ p, p_user_id p = receiverId) (profiles sender_w)) as [|? [|? ?]];
      mstep;
      destruct (channels sender_w !! buildPairRoom senderId receiverId); mstep;
      rewrite H3; mstep;
      eexists _, _; (split; [reflexivity|]); done. }
  exists m, sender_w1, (buildPairRoom senderId receiverId).
  eexists _, _. split; [exact Hrun|]. split; [exact Hout|].
  unfold subscribeToPairBroadcast. mstep. rewrite Hnew, Hroom. mstep.
  split; [reflexivity|].
  unfold deliver, on_dm. mrun. rewrite lookup_insert_eq. cbn.
  rewrite Hs, Hr.
  rewrite (bool_decide_true (senderId = senderId)),
    (bool_decide_true (receiverId = receiverId)) by done.
  cbn [andb]. rewrite orb_true_r. cbn.
  split; [reflexivity|]. done.
Qed.

Lemma sent_message_reaches_peer_witness :
  ∃ m sender_w1 room receiver_w1 receiver_w2,
    sendMessage alice bob "yo" text None quiet_world = (Returned (Some m), sender_w1)
    ∧ outbox sender_w1 = outbox quiet_world ++ [(room, m)]
    ∧ subscribeToPairBroadcast bob alice 7 quiet_world = (Returned room, receiver_w1)
    ∧ deliver room m receiver_w1 = (Returned (), receiver_w2)
    ∧ calls receiver_w2 = calls quiet_world ++ [(7%nat, m)]
    ∧ m_content m = "yo".
Proof.
  apply (sent_message_reaches_peer alice bob "yo" text None 7 quiet_world quiet_world).
  - constructor.
  - apply (bool_decide_unpack _). vm_compute. exact I.
  - reflexivity.
Defined.

(** ** Two presence rows in a row *)

Lemma getOnlineUsers_user_status userId w :
  user_status (getOnlineUsers userId w).2 = user_status w.
Proof.
  unfold getOnlineUsers, select_user_status_online, select_profiles_in.
  mstep. case_script; done.
Qed.

(** Without failures the deferred fetch finds an online user who has a
    profile, and queues an entry under the identifier of that user. *)
Lemma deferredStatusInsert_found userId status w p s :
  quiet w →
  p ∈ profiles w → s ∈ user_status w →
  p_user_id p = s_user_id status → s_user_id s = s_user_id status →
  s_is_online s = true → s_user_id status ≠ userId →
  ∃ queued w',
    deferredStatusInsert userId status w = (Returned queued, w')
    ∧ same_store w w' ∧ user_status w' = user_status w
    ∧ ∀ prev2, ∃ entry,
        queued prev2 = entry :: prev2 ∧ c_user_id entry = s_user_id status.
Proof.
  intros Hq Hp Hs Hpid Hsid Hon Hne.
  destruct (getOnlineUsers_quiet userId w Hq) as (w' & Hrun & Hsame).
  pose proof (getOnlineUsers_user_status userId w) as Hrows.
  rewrite Hrun in Hrows. cbn [snd] in Hrows.
  unfold deferredStatusInsert, mbind, M_bind. rewrite Hrun.
  destruct (list_find _ _) as [[i found]|] eqn:Hfind.
  - apply list_find_Some in Hfind as (_ & Hfound & _).
    eexists _, w'. split; [reflexivity|]. split; [done|]. split; [done|].
    intros prev2. by eexists.
  - exfalso. apply list_find_None in Hfind. rewrite Forall_forall in Hfind.
    apply (Hfind (online_entry (online_rows w) p)); [|by cbn].
    apply list_elem_of_fmap_2, list_elem_of_filter. split; [|done].
    apply elem_of_other_online. rewrite Hpid. split; [done|]. by exists s.
Qed.

(** X30. Two presence rows in a row duplicate an entry.  For an online
    user with a profile who is neither listed nor in the captured directory,
    each row leaves the list alone and starts a fetch; once both fetches
    have resolved, the list holds two entries of that user. *)
Theorem presence_rows_duplicate_entry userId onlineDirectory status prev w p s :
  quiet w →
  p ∈ profiles w → s ∈ user_status w →
  p_user_id p = s_user_id status → s_user_id s = s_user_id status →
  s_is_online s = true → s_user_id status ≠ userId →
  s_is_online status = true →
  JsMap.get (s_user_id status) onlineDirectory = None →
  ¬ (s_user_id status ∈ c_user_id <$> prev) →
  ∃ first second w1 w2,
    statusConversations onlineDirectory status
      (statusConversations onlineDirectory status prev) = prev
    ∧ deferredStatusInsert userId status w = (Returned first, w1)
    ∧ deferredStatusInsert userId status w1 = (Returned second, w2)
    ∧ length (filter (λ c, c_user_id c = s_user_id status) (second (first prev))) = 2%nat
    ∧ ¬ NoDup (c_user_id <$> second (first prev)).
Proof.
  intros Hq Hp Hs Hpid Hsid Hon Hne Honline Hdir Hnew.
  assert (statusConversations onlineDirectory status prev = prev) as Hsync.
  { unfold statusConversations. rewrite Honline, Hdir.
    rewrite bool_decide_false; [done|].
    intros (c & Hc & Hid)%Exists_exists. apply Hnew. rewrite <- Hid.
    by apply list_elem_of_fmap_2. }
  destruct (deferredStatusInsert_found userId status w p s) as
    (first & w1 & Hrun1 & Hsame & Hrows & Hfirst); try done.
  destruct (deferredStatusInsert_found userId status w1 p s) as
    (second & w2 & Hrun2 & _ & _ & Hsecond); try done.
  { by apply Hsame. }
  { destruct Hsame as (_ & -> & _). done. }
  { by rewrite Hrows. }
  exists first, second, w1, w2.
  split; [by rewrite !Hsync|]. split; [exact Hrun1|]. split; [exact Hrun2|].
  destruct (Hfirst prev) as (e1 & -> & Hid1).
  destruct (Hsecond (e1 :: prev)) as (e2 & -> & Hid2).
  split.
  - rewrite !filter_cons, !decide_True by done. cbn. do 2 f_equal.
    rewrite (filter_none (λ c, c_user_id c = s_user_id status)); [done|].
    apply Forall_forall. intros c Hc Hid. apply Hnew. rewrite <- Hid.
    by apply list_elem_of_fmap_2.
  - rewrite !fmap_cons, Hid1, Hid2. intros [Hdup _]%NoDup_cons. apply Hdup. left.
Qed.

Lemma presence_rows_duplicate_entry_witness :
  ∃ first second w1 w2,
    statusConversations [] {| s_user_id := carol; s_is_online := true; s_last_seen := 70 |}
      (statusConversations [] {| s_user_id := carol; s_is_online := true; s_last_seen := 70 |}
         []) = []
    ∧ deferredStatusInsert alice
        {| s_user_id := carol; s_is_online := true; s_last_seen := 70 |} quiet_world
      = (Returned first, w1)
    ∧ deferredStatusInsert alice
        {| s_user_id := carol; s_is_online := true; s_last_seen := 70 |} w1
      = (Returned second, w2)
    ∧ length (filter (λ c, c_user_id c = carol) (second (first []))) = 2%nat
    ∧ ¬ NoDup (c_user_id <$> second (first [])).
Proof.
  apply (presence_rows_duplicate_entry alice []
           {| s_user_id := carol; s_is_online := true; s_last_seen := 70 |} [] quiet_world
           {| p_user_id := carol; p_name := "Carol"; p_profile_picture := Some "" |}
           {| s_user_id := carol; s_is_online := true; s_last_seen := 40 |}).
  - constructor.
  - right. right. left.
  - left.
  - reflexivity.
  - reflexivity.
  - reflexivity.
  - discriminate.
  - reflexivity.
  - reflexivity.
  - apply not_elem_of_nil.
Defined.
